(** * vanilla_stats_parser.py: tag decoding, start/end matching and roll-up

    A shallow embedding of [software/py/vanilla_stats_parser.py]:
    the [CudaStatTag] class, Python's [collections.Counter] as far as the
    parser uses it, and the two methods of [VanillaStatsParser] that build
    the statistics, [__generate_tile_stats] and
    [__generate_manycore_stats_all], with [parse_header] and the deprecated
    [__generate_inclusive_tile_stat].

    Python integers are unbounded, so every integer is a [Z]; [>>] and [&]
    are [Z.shiftr] and [Z.land].  A [Counter] and a trace (a [dict]) are
    [gmap string Z].  Python lists are Rocq lists, indexed the Python way
    (a negative index counts from the end, anything else out of range
    raises [IndexError]).  Exceptions are the [Err] results of a small
    error monad; [print] appends to an output log. *)

From Stdlib Require Import ZArith Lia String List.
From stdpp Require Import base tactics option list gmap strings fin_maps.

Local Open Scope string_scope.
Local Open Scope list_scope.
Local Open Scope Z_scope.

(** ** Exceptions *)

Inductive error : Type :=
| ValueError   (* Enum lookup of a value that is no member *)
| KeyError     (* dict lookup of an absent key *)
| IndexError.  (* list index out of range *)

Inductive result (A : Type) : Type :=
| Ok (a : A)
| Err (e : error).
Arguments Ok {A} a.
Arguments Err {A} e.

Definition bind {A B} (m : result A) (k : A -> result B) : result B :=
  match m with
  | Ok a => k a
  | Err e => Err e
  end.

Notation "'try' x <- m 'in' k" := (bind m (fun x => k))
  (at level 10, x name, m at level 100, k at level 200,
   format "'[v' 'try'  x  <-  m  'in' '/' k ']'").

(** A loop [for a in l: s = body(s, a)] whose body may raise. *)
Fixpoint for_each {A S} (body : S -> A -> result S) (l : list A) (s : S)
  : result S :=
  match l with
  | [] => Ok s
  | a :: l' => try s' <- body s a in for_each body l' s'
  end.

(** [range(n)]: [0, 1, ..., n - 1], empty when [n <= 0]. *)
Fixpoint range_from (start : Z) (count : nat) : list Z :=
  match count with
  | O => []
  | S count' => start :: range_from (start + 1) count'
  end.

Definition range (n : Z) : list Z := range_from 0 (Z.to_nat n).

(** ** CudaStatTag *)

Module CudaStatTag.

Definition _TAG_WIDTH   : Z := 4.
Definition _TAG_INDEX   : Z := 0.
Definition _TAG_MASK    : Z := Z.shiftl 1 _TAG_WIDTH - 1.
Definition _TG_ID_WIDTH : Z := 14.
Definition _TG_ID_INDEX : Z := _TAG_WIDTH + _TAG_INDEX.
Definition _TG_ID_MASK  : Z := Z.shiftl 1 _TG_ID_WIDTH - 1.
Definition _X_WIDTH     : Z := 6.
Definition _X_MASK      : Z := Z.shiftl 1 _X_WIDTH - 1.
Definition _X_INDEX     : Z := _TG_ID_WIDTH + _TG_ID_INDEX.
Definition _Y_WIDTH     : Z := 6.
Definition _Y_INDEX     : Z := _X_WIDTH + _X_INDEX.
Definition _Y_MASK      : Z := Z.shiftl 1 _Y_WIDTH - 1.
Definition _TYPE_WIDTH  : Z := 2.
Definition _TYPE_INDEX  : Z := _Y_WIDTH + _Y_INDEX.
Definition _TYPE_MASK   : Z := Z.shiftl 1 _TYPE_WIDTH - 1.

Inductive StatType : Type := STAT | START | END.

Definition StatType_value (t : StatType) : Z :=
  match t with STAT => 0 | START => 1 | END => 2 end.

(** [StatType(v)]: the member whose value is [v], [ValueError] if none. *)
Definition StatType_of (v : Z) : result StatType :=
  if v =? 0 then Ok STAT
  else if v =? 1 then Ok START
  else if v =? 2 then Ok END
  else Err ValueError.

Definition StatType_eqb (a b : StatType) : bool :=
  StatType_value a =? StatType_value b.

(** The object: [__s] and [__type]. *)
Record t : Type := { s : Z; type : StatType }.

(** [__init__] *)
Definition init (tag : Z) : result t :=
  try ty <- StatType_of (Z.land (Z.shiftr tag _TYPE_INDEX) _TYPE_MASK) in
  Ok {| s := tag; type := ty |}.

Definition tag (c : t) : Z := Z.land (Z.shiftr (s c) _TAG_INDEX) _TAG_MASK.
Definition tg_id (c : t) : Z := Z.land (Z.shiftr (s c) _TG_ID_INDEX) _TG_ID_MASK.
Definition x (c : t) : Z := Z.land (Z.shiftr (s c) _X_INDEX) _X_MASK.
Definition y (c : t) : Z := Z.land (Z.shiftr (s c) _Y_INDEX) _Y_MASK.
Definition statType (c : t) : StatType := type c.
Definition isStart (c : t) : bool := StatType_eqb (type c) START.
Definition isEnd (c : t) : bool := StatType_eqb (type c) END.
Definition isStat (c : t) : bool := StatType_eqb (type c) STAT.

End CudaStatTag.

(** The packing that the class comment draws, written as the integer with
    [tag] at bit 0, [tg_id] at bit 4, [x] at bit 18, [y] at bit 24 and the
    stat type at bit 30.  The parser itself never packs; this is the input
    side of the round trip. *)
Definition pack (type y x tg_id tag : Z) : Z :=
  Z.lor (Z.lor (Z.lor (Z.lor (Z.shiftl type 30) (Z.shiftl y 24))
                      (Z.shiftl x 18))
               (Z.shiftl tg_id 4))
        (Z.shiftl tag 0).

(** ** Python lists and dicts *)

(** The position a Python index denotes in a list of length [len]:
    [0 <= i < len] is itself, [-len <= i < 0] counts from the end. *)
Definition index (len : nat) (i : Z) : result nat :=
  let n := Z.of_nat len in
  if (0 <=? i) && (i <? n) then Ok (Z.to_nat i)
  else if (- n <=? i) && (i <? 0) then Ok (Z.to_nat (i + n))
  else Err IndexError.

(** [l[i]] *)
Definition getitem {A} (l : list A) (i : Z) : result A :=
  try n <- index (length l) i in
  match l !! n with
  | Some a => Ok a
  | None => Err IndexError
  end.

(** [l[i] = a] *)
Definition setitem {A} (l : list A) (i : Z) (a : A) : result (list A) :=
  try n <- index (length l) i in Ok (<[n := a]> l).

(** [bool(l)] for a list: non-empty. *)
Definition list_truthy {A} (l : list A) : bool :=
  negb (Nat.eqb (length l) 0).

(** [t[i][j]] and [t[i][j] = a] *)
Definition get2 {A} (t : list (list A)) (i j : Z) : result A :=
  try row <- getitem t i in getitem row j.

Definition set2 {A} (t : list (list A)) (i j : Z) (a : A)
  : result (list (list A)) :=
  try row <- getitem t i in
  try row' <- setitem row j a in
  setitem t i row'.

(** [t[i][j][k]] and [t[i][j][k] = a] *)
Definition get3 {A} (t : list (list (list A))) (i j k : Z) : result A :=
  try plane <- getitem t i in get2 plane j k.

Definition set3 {A} (t : list (list (list A))) (i j k : Z) (a : A)
  : result (list (list (list A))) :=
  try plane <- getitem t i in
  try plane' <- set2 plane j k a in
  setitem t i plane'.

(** [d[k]] for a dict. *)
Definition dict_get (d : gmap string Z) (k : string) : result Z :=
  match d !! k with
  | Some v => Ok v
  | None => Err KeyError
  end.

(** ** collections.Counter *)

Abbreviation Counter := (gmap string Z).

(** [c[k]]: a missing key reads as 0 and is not inserted. *)
Definition counter_get (c : Counter) (k : string) : Z := default 0 (c !! k).

(** [c[k] = v] *)
Definition counter_set (c : Counter) (k : string) (v : Z) : Counter :=
  <[k := v]> c.

(** [c[k] += v] *)
Definition counter_iadd (c : Counter) (k : string) (v : Z) : Counter :=
  <[k := counter_get c k + v]> c.

(** [bool(c)]: a Counter is a dict, true when it has a key. *)
Definition counter_truthy (c : Counter) : bool :=
  negb (bool_decide (c = ∅)).

(** [Counter.__sub__]: for every key of [a] the difference with [b] is
    kept when positive; a key of [b] alone with a negative count gives its
    opposite.  Nothing else is in the result. *)
Definition counter_sub_cell (oa ob : option Z) : option Z :=
  match oa, ob with
  | Some count, _ =>
      let newcount := count - default 0 ob in
      if 0 <? newcount then Some newcount else None
  | None, Some count => if count <? 0 then Some (0 - count) else None
  | None, None => None
  end.

Definition counter_sub (a b : Counter) : Counter :=
  merge counter_sub_cell a b.

(** ** VanillaStatsParser *)

Definition _BSG_ORIGIN_X : Z := 0.
Definition _BSG_ORIGIN_Y : Z := 1.

(** The attributes of [self] that the two methods read or write. *)
Record VanillaStatsParser : Type := {
  manycore_dim_y : Z;
  manycore_dim_x : Z;
  stats : list string;
  instrs : list string;
  misses : list string;
  stalls : list string;
  all_ops : list string
}.

Definition max_tile_groups : Z := Z.shiftl 1 CudaStatTag._TG_ID_WIDTH.
Definition max_tags : Z := Z.shiftl 1 CudaStatTag._TAG_WIDTH.

(** [parse_header], from the list of column names of the file. *)
Fixpoint parse_header_loop (header : list string)
    (acc : list string * list string * list string * list string)
  : list string * list string * list string * list string :=
  match header with
  | [] => acc
  | item :: rest =>
      let '(stats, instrs, misses, stalls) := acc in
      parse_header_loop rest
        (if String.prefix "instr_" item then
           if negb (String.eqb item "instr_total")
           then (stats, instrs ++ [item], misses, stalls)
           else (stats, instrs, misses, stalls)
         else if String.prefix "miss_" item then
           (stats, instrs, misses ++ [item], stalls)
         else if String.prefix "stall_" item then
           (stats, instrs, misses, stalls ++ [item])
         else (stats ++ [item], instrs, misses, stalls))
  end.

Definition parse_header (header : list string)
  : list string * list string * list string * list string :=
  parse_header_loop header ([], [], [], []).

(** The part of [__init__] before the traces are read. *)
Definition new_parser (manycore_dim_y manycore_dim_x : Z)
    (header : list string) : VanillaStatsParser :=
  let '(stats, instrs, misses, stalls) := parse_header header in
  {| manycore_dim_y := manycore_dim_y;
     manycore_dim_x := manycore_dim_x;
     stats := stats; instrs := instrs; misses := misses; stalls := stalls;
     all_ops := stats ++ instrs ++ misses ++ stalls |}.

(** What [print] writes. *)
Inductive line : Type :=
| missing_start (tag relative_x relative_y : Z)
    (* "Warning: missing start stat for tag {}, tile {},{}." *)
| missing_end (credits tag x y : Z).
    (* "Warning: {} missing end stat(s) for tag {}, tile {},{}." *)

(** The local variables of [__generate_tile_stats], and the output. *)
Record locals : Type := {
  num_tags : Z;
  num_tile_groups : list Z;
  tile_stat_start : list (list (list Counter));
  tile_stat_end : list (list (list Counter));
  tile_stat : list (list (list Counter));
  tile_group_stat_start : list (list Counter);
  tile_group_stat_end : list (list Counter);
  tile_group_stat : list (list Counter);
  tag_credits : list (list (list Z));
  stdout : list line
}.

Definition with_num_tags (st : locals) (v : Z) : locals :=
  {| num_tags := v; num_tile_groups := num_tile_groups st;
     tile_stat_start := tile_stat_start st; tile_stat_end := tile_stat_end st;
     tile_stat := tile_stat st;
     tile_group_stat_start := tile_group_stat_start st;
     tile_group_stat_end := tile_group_stat_end st;
     tile_group_stat := tile_group_stat st;
     tag_credits := tag_credits st; stdout := stdout st |}.

Definition with_num_tile_groups (st : locals) (v : list Z) : locals :=
  {| num_tags := num_tags st; num_tile_groups := v;
     tile_stat_start := tile_stat_start st; tile_stat_end := tile_stat_end st;
     tile_stat := tile_stat st;
     tile_group_stat_start := tile_group_stat_start st;
     tile_group_stat_end := tile_group_stat_end st;
     tile_group_stat := tile_group_stat st;
     tag_credits := tag_credits st; stdout := stdout st |}.

Definition with_tile_stat_start (st : locals) (v : list (list (list Counter)))
  : locals :=
  {| num_tags := num_tags st; num_tile_groups := num_tile_groups st;
     tile_stat_start := v; tile_stat_end := tile_stat_end st;
     tile_stat := tile_stat st;
     tile_group_stat_start := tile_group_stat_start st;
     tile_group_stat_end := tile_group_stat_end st;
     tile_group_stat := tile_group_stat st;
     tag_credits := tag_credits st; stdout := stdout st |}.

Definition with_tile_stat_end (st : locals) (v : list (list (list Counter)))
  : locals :=
  {| num_tags := num_tags st; num_tile_groups := num_tile_groups st;
     tile_stat_start := tile_stat_start st; tile_stat_end := v;
     tile_stat := tile_stat st;
     tile_group_stat_start := tile_group_stat_start st;
     tile_group_stat_end := tile_group_stat_end st;
     tile_group_stat := tile_group_stat st;
     tag_credits := tag_credits st; stdout := stdout st |}.

Definition with_tile_stat (st : locals) (v : list (list (list Counter)))
  : locals :=
  {| num_tags := num_tags st; num_tile_groups := num_tile_groups st;
     tile_stat_start := tile_stat_start st; tile_stat_end := tile_stat_end st;
     tile_stat := v;
     tile_group_stat_start := tile_group_stat_start st;
     tile_group_stat_end := tile_group_stat_end st;
     tile_group_stat := tile_group_stat st;
     tag_credits := tag_credits st; stdout := stdout st |}.

Definition with_tile_group_stat_start (st : locals) (v : list (list Counter))
  : locals :=
  {| num_tags := num_tags st; num_tile_groups := num_tile_groups st;
     tile_stat_start := tile_stat_start st; tile_stat_end := tile_stat_end st;
     tile_stat := tile_stat st;
     tile_group_stat_start := v;
     tile_group_stat_end := tile_group_stat_end st;
     tile_group_stat := tile_group_stat st;
     tag_credits := tag_credits st; stdout := stdout st |}.

Definition with_tile_group_stat_end (st : locals) (v : list (list Counter))
  : locals :=
  {| num_tags := num_tags st; num_tile_groups := num_tile_groups st;
     tile_stat_start := tile_stat_start st; tile_stat_end := tile_stat_end st;
     tile_stat := tile_stat st;
     tile_group_stat_start := tile_group_stat_start st;
     tile_group_stat_end := v;
     tile_group_stat := tile_group_stat st;
     tag_credits := tag_credits st; stdout := stdout st |}.

Definition with_tile_group_stat (st : locals) (v : list (list Counter))
  : locals :=
  {| num_tags := num_tags st; num_tile_groups := num_tile_groups st;
     tile_stat_start := tile_stat_start st; tile_stat_end := tile_stat_end st;
     tile_stat := tile_stat st;
     tile_group_stat_start := tile_group_stat_start st;
     tile_group_stat_end := tile_group_stat_end st;
     tile_group_stat := v;
     tag_credits := tag_credits st; stdout := stdout st |}.

Definition with_tag_credits (st : locals) (v : list (list (list Z)))
  : locals :=
  {| num_tags := num_tags st; num_tile_groups := num_tile_groups st;
     tile_stat_start := tile_stat_start st; tile_stat_end := tile_stat_end st;
     tile_stat := tile_stat st;
     tile_group_stat_start := tile_group_stat_start st;
     tile_group_stat_end := tile_group_stat_end st;
     tile_group_stat := tile_group_stat st;
     tag_credits := v; stdout := stdout st |}.

Definition print (st : locals) (l : line) : locals :=
  {| num_tags := num_tags st; num_tile_groups := num_tile_groups st;
     tile_stat_start := tile_stat_start st; tile_stat_end := tile_stat_end st;
     tile_stat := tile_stat st;
     tile_group_stat_start := tile_group_stat_start st;
     tile_group_stat_end := tile_group_stat_end st;
     tile_group_stat := tile_group_stat st;
     tag_credits := tag_credits st; stdout := stdout st ++ [l] |}.

(** *** __generate_tile_stats *)

(** The tables as the comprehensions build them. *)
Definition new_tile_table {A} (self : VanillaStatsParser) (a : A)
  : list (list (list A)) :=
  map (fun tag =>
         map (fun y => map (fun x => a) (range (manycore_dim_x self)))
             (range (manycore_dim_y self)))
      (range max_tags).

Definition new_tile_group_table : list (list Counter) :=
  map (fun tag => map (fun tg_id => (∅ : Counter)) (range max_tile_groups))
      (range max_tags).

Definition initial_locals (self : VanillaStatsParser) : locals :=
  {| num_tags := 0;
     num_tile_groups := map (fun tag => 0) (range max_tags);
     tile_stat_start := new_tile_table self ∅;
     tile_stat_end := new_tile_table self ∅;
     tile_stat := new_tile_table self ∅;
     tile_group_stat_start := new_tile_group_table;
     tile_group_stat_end := new_tile_group_table;
     tile_group_stat := new_tile_group_table;
     tag_credits := new_tile_table self 0;
     stdout := [] |}.

(** [for op in self.all_ops:] of a start or an end trace: the tile's
    snapshot takes the trace's value, the tile group's one adds it. *)
Definition record_op (trace : gmap string Z) (tag relative_y relative_x tg_id : Z)
    (tables : list (list (list Counter)) * list (list Counter)) (op : string)
  : result (list (list (list Counter)) * list (list Counter)) :=
  let '(tile_table, group_table) := tables in
  try v <- dict_get trace op in
  try c <- get3 tile_table tag relative_y relative_x in
  try tile_table' <-
    set3 tile_table tag relative_y relative_x (counter_set c op v) in
  try v' <- dict_get trace op in
  try g <- get2 group_table tag tg_id in
  try group_table' <- set2 group_table tag tg_id (counter_iadd g op v') in
  Ok (tile_table', group_table').

(** The body of [for trace in traces:]. *)
Definition process_trace (self : VanillaStatsParser) (st : locals)
    (trace : gmap string Z) : result locals :=
  try y <- dict_get trace "y" in
  try x <- dict_get trace "x" in
  let relative_y := y - _BSG_ORIGIN_Y in
  let relative_x := x - _BSG_ORIGIN_X in
  try tag <- dict_get trace "tag" in
  try cst <- CudaStatTag.init tag in
  if CudaStatTag.isStart cst then
    try credit <-
      get3 (tag_credits st) (CudaStatTag.tag cst) relative_y relative_x in
    try credits' <-
      set3 (tag_credits st) (CudaStatTag.tag cst) relative_y relative_x
           (credit + 1) in
    let st := with_tag_credits st credits' in
    try groups <- getitem (tile_group_stat_start st) (CudaStatTag.tag cst) in
    let st :=
      if negb (list_truthy groups)
      then with_num_tags st (num_tags st + 1) else st in
    try group <- getitem groups (CudaStatTag.tg_id cst) in
    try st <-
      (if negb (counter_truthy group) then
         try n <- getitem (num_tile_groups st) (CudaStatTag.tag cst) in
         try l <- setitem (num_tile_groups st) (CudaStatTag.tag cst) (n + 1) in
         Ok (with_num_tile_groups st l)
       else Ok st) in
    try tables <-
      for_each (record_op trace (CudaStatTag.tag cst) relative_y relative_x
                          (CudaStatTag.tg_id cst))
               (all_ops self)
               (tile_stat_start st, tile_group_stat_start st) in
    Ok (with_tile_group_stat_start
          (with_tile_stat_start st (fst tables)) (snd tables))
  else if CudaStatTag.isEnd cst then
    try credit <-
      get3 (tag_credits st) (CudaStatTag.tag cst) relative_y relative_x in
    try credits' <-
      set3 (tag_credits st) (CudaStatTag.tag cst) relative_y relative_x
           (credit - 1) in
    let st := with_tag_credits st credits' in
    try credit' <-
      get3 (tag_credits st) (CudaStatTag.tag cst) relative_y relative_x in
    let st :=
      if credit' <? 0
      then print st (missing_start (CudaStatTag.tag cst) relative_x relative_y)
      else st in
    try tables <-
      for_each (record_op trace (CudaStatTag.tag cst) relative_y relative_x
                          (CudaStatTag.tg_id cst))
               (all_ops self)
               (tile_stat_end st, tile_group_stat_end st) in
    Ok (with_tile_group_stat_end
          (with_tile_stat_end st (fst tables)) (snd tables))
  else Ok st.

(** Three nested loops, [for a in la: for b in lb: for c in lc: body]. *)
Definition for_each3 {S} (body : S -> Z -> Z -> Z -> result S)
    (la lb lc : list Z) (s : S) : result S :=
  for_each
    (fun s a =>
       for_each (fun s b => for_each (fun s c => body s a b c) lc s) lb s)
    la s.

(** "Generate all tile stats by subtracting start time from end time" *)
Definition subtract_tile (st : locals) (tag y x : Z) : result locals :=
  try credit <- get3 (tag_credits st) tag y x in
  try st <-
    (if 0 <? credit then
       try credit' <- get3 (tag_credits st) tag y x in
       Ok (print st (missing_end credit' tag x y))
     else Ok st) in
  try e <- get3 (tile_stat_end st) tag y x in
  try s <- get3 (tile_stat_start st) tag y x in
  try t <- set3 (tile_stat st) tag y x (counter_sub e s) in
  Ok (with_tile_stat st t).

Definition subtract_tiles (self : VanillaStatsParser) (st : locals)
  : result locals :=
  for_each3 subtract_tile
    (range max_tags) (range (manycore_dim_y self)) (range (manycore_dim_x self))
    st.

(** "Generate all tile group stats by subtracting start time from end
    time" *)
Definition subtract_group (tag : Z) (st : locals) (tg_id : Z) : result locals :=
  try e <- get2 (tile_group_stat_end st) tag tg_id in
  try s <- get2 (tile_group_stat_start st) tag tg_id in
  try t <- set2 (tile_group_stat st) tag tg_id (counter_sub e s) in
  Ok (with_tile_group_stat st t).

Definition subtract_groups (st : locals) : result locals :=
  for_each
    (fun st tag =>
       try n <- getitem (num_tile_groups st) tag in
       for_each (subtract_group tag) (range n) st)
    (range max_tags) st.

(** [t[tag][y][x][total] += t[tag][y][x][op]] *)
Definition add_to_total3 (total : string) (tag y x : Z)
    (t : list (list (list Counter))) (op : string)
  : result (list (list (list Counter))) :=
  try c <- get3 t tag y x in
  try c' <- get3 t tag y x in
  set3 t tag y x (counter_iadd c total (counter_get c' op)).

(** "Generate total stats for each tile by summing all stats" *)
Definition total_tile (self : VanillaStatsParser)
    (t : list (list (list Counter))) (tag y x : Z)
  : result (list (list (list Counter))) :=
  try t <- for_each (add_to_total3 "instr_total" tag y x) (instrs self) t in
  try t <- for_each (add_to_total3 "stall_total" tag y x) (stalls self) t in
  for_each (add_to_total3 "miss_total" tag y x) (misses self) t.

Definition total_tiles (self : VanillaStatsParser) (st : locals)
  : result locals :=
  try t <-
    for_each3 (total_tile self)
      (range max_tags) (range (manycore_dim_y self))
      (range (manycore_dim_x self)) (tile_stat st) in
  Ok (with_tile_stat st t).

(** [t[tag][tg_id][total] += t[tag][tg_id][op]] *)
Definition add_to_total2 (total : string) (tag tg_id : Z)
    (t : list (list Counter)) (op : string) : result (list (list Counter)) :=
  try c <- get2 t tag tg_id in
  try c' <- get2 t tag tg_id in
  set2 t tag tg_id (counter_iadd c total (counter_get c' op)).

(** "Generate total stats for each tile group by summing all stats" *)
Definition total_group (self : VanillaStatsParser) (tag : Z)
    (t : list (list Counter)) (tg_id : Z) : result (list (list Counter)) :=
  try t <- for_each (add_to_total2 "instr_total" tag tg_id) (instrs self) t in
  try t <- for_each (add_to_total2 "stall_total" tag tg_id) (stalls self) t in
  for_each (add_to_total2 "miss_total" tag tg_id) (misses self) t.

Definition total_groups (self : VanillaStatsParser) (st : locals)
  : result locals :=
  try t <-
    for_each
      (fun t tag =>
         try n <- getitem (num_tile_groups st) tag in
         for_each (total_group self tag) (range n) t)
      (range max_tags) (tile_group_stat st) in
  Ok (with_tile_group_stat st t).

(** [self] after the four [+=] lines that close the method. *)
Definition with_totals (self : VanillaStatsParser) : VanillaStatsParser :=
  {| manycore_dim_y := manycore_dim_y self;
     manycore_dim_x := manycore_dim_x self;
     stats := stats self;
     instrs := instrs self ++ ["instr_total"];
     misses := misses self ++ ["miss_total"];
     stalls := stalls self ++ ["stall_total"];
     all_ops := all_ops self ++ ["instr_total"; "stall_total"; "miss_total"] |}.

(** The loop over the traces alone. *)
Definition read_traces (self : VanillaStatsParser)
    (traces : list (gmap string Z)) : result locals :=
  for_each (process_trace self) traces (initial_locals self).

(** The method.  It returns [num_tags], [num_tile_groups],
    [tile_group_stat] and [tile_stat]; here it returns all its locals (so
    that the start and end snapshots can be named) next to the updated
    [self]. *)
Definition __generate_tile_stats (self : VanillaStatsParser)
    (traces : list (gmap string Z)) : result (VanillaStatsParser * locals) :=
  try st <- read_traces self traces in
  try st <- subtract_tiles self st in
  try st <- subtract_groups st in
  try st <- total_tiles self st in
  try st <- total_groups self st in
  Ok (with_totals self, st).

(** *** __generate_manycore_stats_all *)

Definition add_tile_op (tile_stat : list (list (list Counter)))
    (tag y x : Z) (manycore_stat : list Counter) (op : string)
  : result (list Counter) :=
  try m <- getitem manycore_stat tag in
  try c <- get3 tile_stat tag y x in
  setitem manycore_stat tag (counter_iadd m op (counter_get c op)).

Definition __generate_manycore_stats_all (self : VanillaStatsParser)
    (tile_stat : list (list (list Counter))) : result (list Counter) :=
  for_each3
    (fun manycore_stat tag y x =>
       for_each (add_tile_op tile_stat tag y x) (all_ops self) manycore_stat)
    (range max_tags) (range (manycore_dim_y self)) (range (manycore_dim_x self))
    (map (fun tag => (∅ : Counter)) (range max_tags)).

(** ** Vocabulary of the statements *)

(** The cell of a table at a position (positions are the ones [index]
    gives, so they are natural numbers). *)
Definition cell2 {A} (t : list (list A)) (p : nat * nat) : option A :=
  match t !! p.1 with
  | Some row => row !! p.2
  | None => None
  end.

Definition cell3 {A} (t : list (list (list A))) (p : nat * nat * nat)
  : option A :=
  match t !! p.1.1 with
  | Some plane => cell2 plane (p.1.2, p.2)
  | None => None
  end.

(** A table with [m] rows of [p] cells, and [n] planes of them. *)
Definition rect2 {A} (m p : nat) (t : list (list A)) : Prop :=
  length t = m /\ Forall (fun row => length row = p) t.

Definition rect3 {A} (n m p : nat) (t : list (list (list A))) : Prop :=
  length t = n /\ Forall (rect2 m p) t.

Definition rect3b {A} (n m p : nat) (t : list (list (list A))) : bool :=
  Nat.eqb (length t) n
  && forallb (fun plane =>
                Nat.eqb (length plane) m
                && forallb (fun row => Nat.eqb (length row) p) plane) t.

(** The sizes of the tables of a parser. *)
Definition n_tags : nat := Z.to_nat max_tags.
Definition n_groups : nat := Z.to_nat max_tile_groups.
Definition dim_y (self : VanillaStatsParser) : nat :=
  Z.to_nat (manycore_dim_y self).
Definition dim_x (self : VanillaStatsParser) : nat :=
  Z.to_nat (manycore_dim_x self).

(** The tile [tile_stat[tag][y][x]] of a returned table, the empty Counter
    outside the table. *)
Definition tile_at (t : list (list (list Counter))) (tag y x : nat)
  : Counter :=
  default ∅ (cell3 t (tag, y, x)).

Definition group_at (t : list (list Counter)) (tag tg_id : nat) : Counter :=
  default ∅ (cell2 t (tag, tg_id)).

#[global] Instance StatType_eq_dec : EqDecision CudaStatTag.StatType.
Proof. solve_decision. Defined.

(** What a trace is about, when [process_trace] can index the tables with
    it: the stat type, the position of the tile (tag, row, column) and
    the tile group id. *)
Definition event (self : VanillaStatsParser) (trace : gmap string Z)
  : option (CudaStatTag.StatType * (nat * nat * nat) * nat) :=
  match trace !! "y", trace !! "x", trace !! "tag" with
  | Some y, Some x, Some tag =>
      match CudaStatTag.init tag with
      | Ok cst =>
          match index (dim_y self) (y - _BSG_ORIGIN_Y),
                index (dim_x self) (x - _BSG_ORIGIN_X) with
          | Ok a, Ok b =>
              Some (CudaStatTag.statType cst,
                    (Z.to_nat (CudaStatTag.tag cst), a, b),
                    Z.to_nat (CudaStatTag.tg_id cst))
          | _, _ => None
          end
      | Err _ => None
      end
  | _, _, _ => None
  end.

(** The traces on which [process_trace] raises nothing: the three columns
    it reads are there and the stat type is one of the three; a start or
    an end trace moreover indexes a tile of the grid and has every
    operation of [all_ops]. *)
Definition valid_trace (self : VanillaStatsParser) (trace : gmap string Z)
  : bool :=
  match trace !! "y", trace !! "x", trace !! "tag" with
  | Some y, Some x, Some tag =>
      match CudaStatTag.init tag with
      | Ok cst =>
          if CudaStatTag.isStat cst then true
          else
            match event self trace with
            | Some _ =>
                forallb (fun op => bool_decide (is_Some (trace !! op)))
                        (all_ops self)
            | None => false
            end
      | Err _ => false
      end
  | _, _, _ => false
  end.

(** Is the trace a start (or end) trace of this tile, of this tile
    group? *)
Definition tile_event (self : VanillaStatsParser)
    (kind : CudaStatTag.StatType) (p : nat * nat * nat)
    (trace : gmap string Z) : bool :=
  match event self trace with
  | Some (k, q, _) => bool_decide (k = kind) && bool_decide (q = p)
  | None => false
  end.

Definition group_event (self : VanillaStatsParser)
    (kind : CudaStatTag.StatType) (g : nat * nat)
    (trace : gmap string Z) : bool :=
  match event self trace with
  | Some (k, q, tg) => bool_decide (k = kind) && bool_decide ((q.1.1, tg) = g)
  | None => false
  end.

(** The value of a column of a trace, 0 when the trace lacks it. *)
Definition col (trace : gmap string Z) (op : string) : Z :=
  default 0 (trace !! op).

(** One run of [for op in all_ops] on a tile's and on a group's Counter. *)
Definition write_ops (ops : list string) (trace : gmap string Z)
    (c : Counter) : Counter :=
  foldl (fun c op => counter_set c op (col trace op)) c ops.

Definition add_ops (ops : list string) (trace : gmap string Z)
    (c : Counter) : Counter :=
  foldl (fun c op => counter_iadd c op (col trace op)) c ops.

(** What one trace does to the snapshot of a tile, to the accumulated
    snapshot of a tile group, and to the credits of a tile. *)
Definition tile_step (self : VanillaStatsParser)
    (kind : CudaStatTag.StatType) (trace : gmap string Z)
    (p : nat * nat * nat) (c : Counter) : Counter :=
  if tile_event self kind p trace
  then write_ops (all_ops self) trace c else c.

Definition group_step (self : VanillaStatsParser)
    (kind : CudaStatTag.StatType) (trace : gmap string Z)
    (g : nat * nat) (c : Counter) : Counter :=
  if group_event self kind g trace
  then add_ops (all_ops self) trace c else c.

Definition credit_step (self : VanillaStatsParser) (trace : gmap string Z)
    (p : nat * nat * nat) (z : Z) : Z :=
  if tile_event self CudaStatTag.START p trace then z + 1
  else if tile_event self CudaStatTag.END p trace then z - 1
  else z.

(** The snapshot of a tile after the traces: each start (end) trace of
    the tile written over what was there. *)
Definition snapshot (self : VanillaStatsParser)
    (kind : CudaStatTag.StatType) (p : nat * nat * nat)
    (traces : list (gmap string Z)) (c : Counter) : Counter :=
  foldl (fun c trace => tile_step self kind trace p c) c traces.

(** The accumulated snapshot of a tile group after the traces. *)
Definition accumulated (self : VanillaStatsParser)
    (kind : CudaStatTag.StatType) (g : nat * nat)
    (traces : list (gmap string Z)) (c : Counter) : Counter :=
  foldl (fun c trace => group_step self kind trace g c) c traces.

(** The credits of a tile after the traces. *)
Definition credits (self : VanillaStatsParser) (p : nat * nat * nat)
    (traces : list (gmap string Z)) (z : Z) : Z :=
  foldl (fun z trace => credit_step self trace p z) z traces.

(** The warning of an end trace that finds the credits [z] of its tile. *)
Definition missing_start_line (trace : gmap string Z) (p : nat * nat * nat)
  : line :=
  missing_start (Z.of_nat p.1.1) (col trace "x" - _BSG_ORIGIN_X)
                (col trace "y" - _BSG_ORIGIN_Y).

Definition step_output (self : VanillaStatsParser)
    (credits : list (list (list Z))) (trace : gmap string Z) : list line :=
  match event self trace with
  | Some (k, p, _) =>
      if bool_decide (k = CudaStatTag.END) then
        match cell3 credits p with
        | Some z => if z - 1 <? 0 then [missing_start_line trace p] else []
        | None => []
        end
      else []
  | None => []
  end.

(** The warnings of the loop over the traces: an end trace that finds no
    credit on its tile (the starts and ends before it balance out, or
    worse) prints one. *)
Definition step_warning (self : VanillaStatsParser)
    (done : list (gmap string Z)) (trace : gmap string Z) : list line :=
  match event self trace with
  | Some (k, p, _) =>
      if bool_decide (k = CudaStatTag.END) then
        if credits self p done 0 - 1 <? 0
        then [missing_start_line trace p] else []
      else []
  | None => []
  end.

Definition warn_step (self : VanillaStatsParser)
    (acc : list (gmap string Z) * list line) (trace : gmap string Z)
  : list (gmap string Z) * list line :=
  (acc.1 ++ [trace], acc.2 ++ step_warning self acc.1 trace).

Definition warnings (self : VanillaStatsParser)
    (traces : list (gmap string Z)) : list line :=
  (foldl (warn_step self) ([], []) traces).2.

(** The tables of [__generate_tile_stats] keep the sizes they are built
    with. *)
Record shapes (self : VanillaStatsParser) (st : locals) : Prop := {
  sh_start : rect3 n_tags (dim_y self) (dim_x self) (tile_stat_start st);
  sh_end : rect3 n_tags (dim_y self) (dim_x self) (tile_stat_end st);
  sh_stat : rect3 n_tags (dim_y self) (dim_x self) (tile_stat st);
  sh_credits : rect3 n_tags (dim_y self) (dim_x self) (tag_credits st);
  sh_group_start : rect2 n_tags n_groups (tile_group_stat_start st);
  sh_group_end : rect2 n_tags n_groups (tile_group_stat_end st);
  sh_group_stat : rect2 n_tags n_groups (tile_group_stat st);
  sh_num_tile_groups : length (num_tile_groups st) = n_tags
}.

(** The sum of a function over a list. *)
Definition sum_over {A} (f : A -> Z) (l : list A) : Z :=
  foldr (fun a acc => f a + acc) 0 l.

(** The sum of a column over the start (end) traces of a tile group. *)
Definition column_sum (self : VanillaStatsParser)
    (kind : CudaStatTag.StatType) (g : nat * nat) (op : string)
    (traces : list (gmap string Z)) : Z :=
  sum_over (fun trace => if group_event self kind g trace
                         then col trace op else 0) traces.

(** The three totals that the method adds to a Counter. *)
Definition total_names : list string :=
  ["instr_total"; "stall_total"; "miss_total"].

Definition add_total (total : string) (ops : list string) (c : Counter)
  : Counter :=
  foldl (fun c op => counter_iadd c total (counter_get c op)) c ops.

Definition add_totals (self : VanillaStatsParser) (c : Counter) : Counter :=
  add_total "miss_total" (misses self)
    (add_total "stall_total" (stalls self)
       (add_total "instr_total" (instrs self) c)).

(** The value [tile_stat[tag][y][x][op]] of a table, 0 where the indices
    are out of range. *)
Definition tile_value (T : list (list (list Counter))) (tag y x : Z)
    (op : string) : Z :=
  match get3 T tag y x with
  | Ok c => counter_get c op
  | Err _ => 0
  end.

(** How many times a name is in a list of names. *)
Definition occurrences (op : string) (ops : list string) : Z :=
  sum_over (fun o => if decide (o = op) then 1 else 0) ops.

(** The last start (end) trace of a tile, the empty trace when the tile
    has none. *)
Definition last_trace (self : VanillaStatsParser)
    (kind : CudaStatTag.StatType) (q : nat * nat * nat)
    (traces : list (gmap string Z)) : gmap string Z :=
  List.last (List.filter (tile_event self kind q) traces) ∅.

(** Is the trace one of stat type STAT? *)
Definition is_stat_trace (trace : gmap string Z) : bool :=
  match trace !! "tag" with
  | Some tag =>
      match CudaStatTag.init tag with
      | Ok cst => CudaStatTag.isStat cst
      | Err _ => false
      end
  | None => false
  end.

(** *** __generate_inclusive_tile_stat *)

(** [tile_stat[y][x][op] = trace[op]] *)
Definition inclusive_op (trace : gmap string Z) (y x : Z)
    (tile_stat : list (list Counter)) (op : string)
  : result (list (list Counter)) :=
  try v <- dict_get trace op in
  try c <- get2 tile_stat y x in
  set2 tile_stat y x (counter_set c op v).

(** The body of the two loops, on [tile_stat] and [trace_idx]. *)
Definition inclusive_tile (self : VanillaStatsParser)
    (traces : list (gmap string Z)) (y : Z)
    (s : list (list Counter) * Z) (x : Z)
  : result (list (list Counter) * Z) :=
  let trace_idx := s.2 - 1 in
  try trace <- getitem traces trace_idx in
  try tile_stat <- for_each (inclusive_op trace y x) (all_ops self) s.1 in
  Ok (tile_stat, trace_idx).

Definition __generate_inclusive_tile_stat (self : VanillaStatsParser)
    (traces : list (gmap string Z)) : result (list (list Counter)) :=
  let tile_stat :=
    map (fun y => map (fun x => (∅ : Counter)) (range (manycore_dim_x self)))
        (range (manycore_dim_y self)) in
  let trace_idx := Z.of_nat (length traces) in
  try s <-
    for_each
      (fun s y =>
         for_each (inclusive_tile self traces y)
                  (range (manycore_dim_x self)) s)
      (range (manycore_dim_y self)) (tile_stat, trace_idx) in
  Ok s.1.

(** The trace that a Python index denotes, the empty one when there is
    none. *)
Definition trace_at (traces : list (gmap string Z)) (i : Z)
  : gmap string Z :=
  match getitem traces i with
  | Ok trace => trace
  | Err _ => ∅
  end.

(** Every trace has every operation of the schema. *)
Definition complete_traces (self : VanillaStatsParser)
    (traces : list (gmap string Z)) : Prop :=
  Forall (fun trace => Forall (fun op => is_Some (trace !! op))
                              (all_ops self)) traces.

(** The [tile_stat] that the method returns, the empty table when it
    raises. *)
Definition returned_tile_stat (r : result (VanillaStatsParser * locals))
  : list (list (list Counter)) :=
  match r with
  | Ok (_, st) => tile_stat st
  | Err _ => []
  end.

(** How many more start traces than end traces a tile has. *)
Definition unmatched_starts (self : VanillaStatsParser)
    (q : nat * nat * nat) (traces : list (gmap string Z)) : Z :=
  Z.of_nat (length (List.filter (tile_event self CudaStatTag.START q) traces))
  - Z.of_nat (length (List.filter (tile_event self CudaStatTag.END q) traces)).

(** The tile group id of a start trace of the tag [t]. *)
Definition started_group (self : VanillaStatsParser) (t : nat)
    (trace : gmap string Z) : option nat :=
  match event self trace with
  | Some (k, q, g) =>
      if bool_decide (k = CudaStatTag.START) && bool_decide (q.1.1 = t)
      then Some g else None
  | None => None
  end.

(** The tile group ids that the start traces of a tag name. *)
Definition started_groups (self : VanillaStatsParser) (t : nat)
    (traces : list (gmap string Z)) : gset nat :=
  list_to_set (omap (started_group self t) traces).

(** The exception of a trace that is not valid: [KeyError] when y, x or
    tag is missing, [ValueError] when the stat type is none of the three,
    [IndexError] when a start or end trace names no tile of the grid, and
    [KeyError] again when it lacks an operation. *)
Definition trace_exception (self : VanillaStatsParser)
    (trace : gmap string Z) : error :=
  match trace !! "y", trace !! "x", trace !! "tag" with
  | Some y, Some x, Some tag =>
      match CudaStatTag.init tag with
      | Ok _ =>
          match index (dim_y self) (y - _BSG_ORIGIN_Y),
                index (dim_x self) (x - _BSG_ORIGIN_X) with
          | Ok _, Ok _ => KeyError
          | _, _ => IndexError
          end
      | Err e => e
      end
  | _, _, _ => KeyError
  end.


(** * Proofs *)

(** ** The error monad and loops *)

Lemma bind_Ok {A B} (m : result A) (k : A -> result B) (b : B) :
  bind m k = Ok b -> exists a, m = Ok a /\ k a = Ok b.
Proof. destruct m as [a | e]; simpl; [eauto | discriminate]. Qed.

Ltac inv_bind H :=
  let a := fresh "v" in
  let Ha := fresh "Hv" in
  apply bind_Ok in H; destruct H as (a & Ha & H).

Lemma for_each_app {A S} (body : S -> A -> result S) (l1 l2 : list A) (s : S) :
  for_each body (l1 ++ l2) s
  = bind (for_each body l1 s) (for_each body l2).
Proof.
  revert s. induction l1 as [| a l1 IH]; intros s; simpl; [reflexivity |].
  destruct (body s a) as [s' | e]; simpl; [apply IH | reflexivity].
Qed.

(** A loop whose body keeps an invariant and never raises under it runs to
    its end and keeps the invariant; [P] also sees the items done so far. *)
Lemma for_each_invariant {A S} (P : list A -> S -> Prop)
    (body : S -> A -> result S) (l : list A) (s : S) :
  P [] s ->
  (forall done a todo s, l = done ++ a :: todo -> P done s ->
     exists s', body s a = Ok s' /\ P (done ++ [a]) s') ->
  exists s', for_each body l s = Ok s' /\ P l s'.
Proof.
  intros H0 Hstep.
  assert (Hgen : forall todo done s, done ++ todo = l -> P done s ->
            exists s', for_each body todo s = Ok s' /\ P l s').
  { induction todo as [| a todo IH]; intros done s1 Hl HP.
    - rewrite app_nil_r in Hl. subst done. exists s1.
      split; [reflexivity | assumption].
    - destruct (Hstep done a todo s1 (eq_sym Hl) HP) as (s2 & Hb & HP2).
      cbn [for_each]. rewrite Hb. cbn [bind].
      apply (IH (done ++ [a])); [| assumption].
      rewrite <- app_assoc. exact Hl. }
  apply (Hgen l [] s); [reflexivity | assumption].
Qed.

(** The same for a loop that is known to have run to its end. *)
Lemma for_each_invariant_Ok {A S} (P : list A -> S -> Prop)
    (body : S -> A -> result S) (l : list A) (s s' : S) :
  for_each body l s = Ok s' ->
  P [] s ->
  (forall done a todo s1 s2, l = done ++ a :: todo -> P done s1 ->
     body s1 a = Ok s2 -> P (done ++ [a]) s2) ->
  P l s'.
Proof.
  intros Hrun H0 Hstep.
  assert (Hgen : forall todo done s1, done ++ todo = l -> P done s1 ->
            for_each body todo s1 = Ok s' -> P l s').
  { induction todo as [| a todo IH]; intros done s1 Hl HP Hr.
    - rewrite app_nil_r in Hl. subst done. cbn [for_each] in Hr.
      injection Hr as <-. assumption.
    - cbn [for_each] in Hr. inv_bind Hr.
      apply (IH (done ++ [a]) v); [| | assumption].
      + rewrite <- app_assoc. exact Hl.
      + eapply Hstep; eauto. }
  apply (Hgen l [] s); [reflexivity | assumption | assumption].
Qed.

(** Three nested loops are one loop over the triples. *)
Definition triples (la lb lc : list Z) : list (Z * Z * Z) :=
  a ← la; b ← lb; c ← lc; [(a, b, c)].

Lemma for_each3_triples {S} (body : S -> Z -> Z -> Z -> result S)
    (la lb lc : list Z) (s : S) :
  for_each3 body la lb lc s
  = for_each (fun s t => body s t.1.1 t.1.2 t.2) (triples la lb lc) s.
Proof.
  unfold for_each3, triples. revert s.
  induction la as [| a la IHa]; intros s; [reflexivity |].
  simpl. rewrite for_each_app.
  assert (Hb : forall s,
    for_each (fun s b => for_each (fun s c => body s a b c) lc s) lb s
    = for_each (fun s t => body s t.1.1 t.1.2 t.2)
        (b ← lb; c ← lc; [(a, b, c)]) s).
  { clear. induction lb as [| b lb IHb]; intros s; [reflexivity |].
    simpl. rewrite for_each_app.
    assert (Hc : forall s,
      for_each (fun s c => body s a b c) lc s
      = for_each (fun s t => body s t.1.1 t.1.2 t.2)
          (c ← lc; [(a, b, c)]) s).
    { clear. induction lc as [| c lc IHc]; intros s; [reflexivity |].
      simpl. destruct (body s a b c); simpl; [apply IHc | reflexivity]. }
    rewrite Hc. destruct (for_each _ (c ← lc; [(a, b, c)]) s); simpl;
      [apply IHb | reflexivity]. }
  rewrite Hb.
  destruct (for_each _ (b ← lb; c ← lc; [(a, b, c)]) s); simpl;
    [apply IHa | reflexivity].
Qed.

Lemma elem_of_triples (la lb lc : list Z) (a b c : Z) :
  (a, b, c) ∈ triples la lb lc <-> a ∈ la /\ b ∈ lb /\ c ∈ lc.
Proof.
  unfold triples. rewrite list_elem_of_bind. split.
  - intros (a' & Hin & Ha). apply list_elem_of_bind in Hin.
    destruct Hin as (b' & Hin & Hb). apply list_elem_of_bind in Hin.
    destruct Hin as (c' & Hin & Hc). apply list_elem_of_singleton in Hin.
    inversion Hin; subst. auto.
  - intros (Ha & Hb & Hc). exists a. split; [| assumption].
    apply list_elem_of_bind. exists b. split; [| assumption].
    apply list_elem_of_bind. exists c. split; [| assumption].
    apply list_elem_of_singleton. reflexivity.
Qed.

(** ** range *)

Lemma range_from_length (start : Z) (count : nat) :
  length (range_from start count) = count.
Proof.
  revert start. induction count as [| n IH]; intros start; simpl;
    [reflexivity | rewrite IH; reflexivity].
Qed.

Lemma elem_of_range_from (start : Z) (count : nat) (z : Z) :
  z ∈ range_from start count <-> start <= z < start + Z.of_nat count.
Proof.
  revert start. induction count as [| n IH]; intros start; simpl.
  - rewrite elem_of_nil. lia.
  - rewrite elem_of_cons, IH. lia.
Qed.

Lemma elem_of_range (n z : Z) : z ∈ range n <-> 0 <= z < n.
Proof. unfold range. rewrite elem_of_range_from. lia. Qed.

Lemma range_length (n : Z) : length (range n) = Z.to_nat n.
Proof. apply range_from_length. Qed.

(** ** Python indexing *)

Lemma index_lt (len : nat) (i : Z) (n : nat) :
  index len i = Ok n -> (n < len)%nat.
Proof.
  unfold index. intros H.
  destruct ((0 <=? i) && (i <? Z.of_nat len)) eqn:E1.
  - apply andb_true_iff in E1. destruct E1 as [E1 E2].
    apply Z.leb_le in E1. apply Z.ltb_lt in E2.
    injection H as <-. lia.
  - destruct ((- Z.of_nat len <=? i) && (i <? 0)) eqn:E2; [| discriminate].
    apply andb_true_iff in E2. destruct E2 as [E2 E3].
    apply Z.leb_le in E2. apply Z.ltb_lt in E3.
    injection H as <-. lia.
Qed.

Lemma index_of_nat (len n : nat) :
  (n < len)%nat -> index len (Z.of_nat n) = Ok n.
Proof.
  intros H. unfold index.
  replace ((0 <=? Z.of_nat n) && (Z.of_nat n <? Z.of_nat len)) with true.
  - rewrite Nat2Z.id. reflexivity.
  - symmetry. apply andb_true_iff. split; [apply Z.leb_le | apply Z.ltb_lt]; lia.
Qed.

(** A negative index counts from the end. *)
Lemma index_negative (len : nat) (i : Z) :
  - Z.of_nat len <= i < 0 -> index len i = Ok (Z.to_nat (i + Z.of_nat len)).
Proof.
  intros H. unfold index.
  replace ((0 <=? i) && (i <? Z.of_nat len)) with false.
  - replace ((- Z.of_nat len <=? i) && (i <? 0)) with true; [reflexivity |].
    symmetry. apply andb_true_iff. split; [apply Z.leb_le | apply Z.ltb_lt]; lia.
  - symmetry. apply andb_false_iff. left. apply Z.leb_gt. lia.
Qed.

Lemma getitem_Ok {A} (l : list A) (i : Z) (n : nat) (a : A) :
  index (length l) i = Ok n -> l !! n = Some a -> getitem l i = Ok a.
Proof. intros Hi Hl. unfold getitem. rewrite Hi. simpl. rewrite Hl. reflexivity. Qed.

Lemma getitem_inv {A} (l : list A) (i : Z) (a : A) :
  getitem l i = Ok a -> exists n, index (length l) i = Ok n /\ l !! n = Some a.
Proof.
  unfold getitem. intros H. inv_bind H. exists v. split; [assumption |].
  destruct (l !! v); [congruence | discriminate].
Qed.

Lemma setitem_Ok {A} (l : list A) (i : Z) (n : nat) (a : A) :
  index (length l) i = Ok n -> setitem l i a = Ok (<[n := a]> l).
Proof. intros Hi. unfold setitem. rewrite Hi. reflexivity. Qed.

Lemma setitem_inv {A} (l l' : list A) (i : Z) (a : A) :
  setitem l i a = Ok l' ->
  exists n, index (length l) i = Ok n /\ l' = <[n := a]> l.
Proof.
  unfold setitem. intros H. inv_bind H. exists v. split; [assumption | congruence].
Qed.

(** ** Tables *)

Definition insert2 {A} (p : nat * nat) (a : A) (t : list (list A))
  : list (list A) :=
  alter (fun row => <[p.2 := a]> row) p.1 t.

Definition insert3 {A} (p : nat * nat * nat) (a : A)
    (t : list (list (list A))) : list (list (list A)) :=
  alter (insert2 (p.1.2, p.2) a) p.1.1 t.

Section Tables.
Context {A : Type}.
Implicit Types (t : list (list A)) (T : list (list (list A))).

Lemma rect2_cell m p t a b :
  rect2 m p t -> (a < m)%nat -> (b < p)%nat -> is_Some (cell2 t (a, b)).
Proof.
  intros [Hl Hr] Ha Hb. unfold cell2. simpl.
  destruct (lookup_lt_is_Some_2 t a) as [row Hrow]; [lia |].
  rewrite Hrow. apply lookup_lt_is_Some_2.
  rewrite Forall_forall in Hr. rewrite (Hr row); [assumption |].
  apply list_elem_of_lookup. eauto.
Qed.

Lemma rect2_row m p t a row :
  rect2 m p t -> t !! a = Some row -> length row = p.
Proof.
  intros [_ Hr] Hrow. rewrite Forall_forall in Hr. apply Hr.
  apply list_elem_of_lookup. eauto.
Qed.

Lemma rect3_plane n m p T a plane :
  rect3 n m p T -> T !! a = Some plane -> rect2 m p plane.
Proof.
  intros [_ Hr] Hpl. rewrite Forall_forall in Hr. apply Hr.
  apply list_elem_of_lookup. eauto.
Qed.

Lemma rect3_cell n m p T a b c :
  rect3 n m p T -> (a < n)%nat -> (b < m)%nat -> (c < p)%nat ->
  is_Some (cell3 T (a, b, c)).
Proof.
  intros HT Ha Hb Hc. unfold cell3. simpl.
  destruct (lookup_lt_is_Some_2 T a) as [plane Hpl]; [destruct HT; lia |].
  rewrite Hpl. eapply rect2_cell; eauto using rect3_plane.
Qed.

Lemma cell2_lt m p t a b v :
  rect2 m p t -> cell2 t (a, b) = Some v -> (a < m)%nat /\ (b < p)%nat.
Proof.
  intros Ht. unfold cell2. simpl. destruct (t !! a) as [row |] eqn:Hrow;
    [| discriminate].
  intros Hv. split.
  - destruct Ht as [<- _]. eapply lookup_lt_Some; eauto.
  - rewrite <- (rect2_row m p t a row Ht Hrow). eapply lookup_lt_Some; eauto.
Qed.

Lemma cell3_lt n m p T a b c v :
  rect3 n m p T -> cell3 T (a, b, c) = Some v ->
  (a < n)%nat /\ (b < m)%nat /\ (c < p)%nat.
Proof.
  intros HT. unfold cell3. simpl. destruct (T !! a) as [plane |] eqn:Hpl;
    [| discriminate].
  intros Hv. split.
  - destruct HT as [<- _]. eapply lookup_lt_Some; eauto.
  - eapply cell2_lt; eauto using rect3_plane.
Qed.

Lemma rect2_insert2 m p t q v : rect2 m p t -> rect2 m p (insert2 q v t).
Proof.
  intros [Hl Hr]. unfold insert2. split.
  - rewrite length_alter. assumption.
  - apply Forall_forall. intros row Hin.
    apply list_elem_of_lookup in Hin. destruct Hin as [i Hi].
    rewrite list_lookup_alter in Hi. rewrite Forall_forall in Hr.
    destruct (decide (q.1 = i)) as [-> |].
    + destruct (t !! i) as [row0 |] eqn:E; simpl in Hi; [| discriminate].
      injection Hi as <-. rewrite length_insert. apply Hr.
      apply list_elem_of_lookup. eauto.
    + apply Hr. apply list_elem_of_lookup. eauto.
Qed.

Lemma rect3_insert3 n m p T q v : rect3 n m p T -> rect3 n m p (insert3 q v T).
Proof.
  intros [Hl Hr]. unfold insert3. split.
  - rewrite length_alter. assumption.
  - apply Forall_forall. intros plane Hin.
    apply list_elem_of_lookup in Hin. destruct Hin as [i Hi].
    rewrite list_lookup_alter in Hi. rewrite Forall_forall in Hr.
    destruct (decide (q.1.1 = i)) as [-> |].
    + destruct (T !! i) as [pl0 |] eqn:E; simpl in Hi; [| discriminate].
      injection Hi as <-. apply rect2_insert2. apply Hr.
      apply list_elem_of_lookup. eauto.
    + apply Hr. apply list_elem_of_lookup. eauto.
Qed.

Lemma cell2_insert2 t q q' v :
  is_Some (cell2 t q) ->
  cell2 (insert2 q v t) q' = if decide (q = q') then Some v else cell2 t q'.
Proof.
  destruct q as [a b], q' as [a' b']. unfold cell2, insert2. simpl.
  intros Hsome. rewrite list_lookup_alter.
  destruct (decide (a = a')) as [<- |].
  - destruct (t !! a) as [row |] eqn:Hrow; simpl.
    + destruct (decide (b = b')) as [<- |].
      * rewrite decide_True by reflexivity.
        apply list_lookup_insert_eq. destruct Hsome as [w Hw].
        eapply lookup_lt_Some; eauto.
      * rewrite decide_False by congruence.
        apply list_lookup_insert_ne. assumption.
    + destruct Hsome as [w Hw]. discriminate.
  - rewrite decide_False by congruence. reflexivity.
Qed.

Lemma cell3_insert3 T q q' v :
  is_Some (cell3 T q) ->
  cell3 (insert3 q v T) q' = if decide (q = q') then Some v else cell3 T q'.
Proof.
  destruct q as [[a b] c], q' as [[a' b'] c']. unfold cell3, insert3. simpl.
  intros Hsome. rewrite list_lookup_alter.
  destruct (decide (a = a')) as [<- |].
  - destruct (T !! a) as [plane |] eqn:Hpl; simpl.
    + rewrite cell2_insert2 by assumption.
      destruct (decide ((b, c) = (b', c'))) as [Heq | Hne].
      * injection Heq as <- <-. rewrite decide_True by reflexivity. reflexivity.
      * rewrite decide_False by congruence. reflexivity.
    + destruct Hsome as [w Hw]. discriminate.
  - rewrite decide_False by congruence. reflexivity.
Qed.

(** [get] and [set] on a rectangular table, at indices that [index]
    resolves. *)
Lemma get2_rect m p t i j a b v :
  rect2 m p t -> index m i = Ok a -> index p j = Ok b ->
  cell2 t (a, b) = Some v -> get2 t i j = Ok v.
Proof.
  intros Ht Hi Hj Hv. unfold cell2 in Hv. simpl in Hv.
  destruct (t !! a) as [row |] eqn:Hrow; [| discriminate].
  unfold get2. rewrite (getitem_Ok t i a row); [| destruct Ht as [-> _] |]; trivial.
  simpl. apply (getitem_Ok row j b v); [| assumption].
  rewrite (rect2_row m p t a row Ht Hrow). assumption.
Qed.

Lemma set2_rect m p t i j a b v :
  rect2 m p t -> index m i = Ok a -> index p j = Ok b ->
  set2 t i j v = Ok (insert2 (a, b) v t).
Proof.
  intros Ht Hi Hj.
  destruct (lookup_lt_is_Some_2 t a) as [row Hrow].
  { destruct Ht as [-> _]. eapply index_lt; eauto. }
  unfold set2. rewrite (getitem_Ok t i a row); [| destruct Ht as [-> _] |]; trivial.
  simpl. rewrite (setitem_Ok row j b).
  2: { rewrite (rect2_row m p t a row Ht Hrow). assumption. }
  simpl. rewrite (setitem_Ok t i a); [| destruct Ht as [-> _]; assumption].
  f_equal. unfold insert2. simpl.
  apply list_eq. intros k. rewrite list_lookup_insert, list_lookup_alter.
  destruct (decide (a = k)) as [<- |].
  - rewrite Hrow. simpl.
    destruct (decide (a = a ∧ (a < length t)%nat)) as [_ | Hn]; [reflexivity |].
    exfalso. apply Hn. split; [reflexivity |]. eapply lookup_lt_Some; eauto.
  - destruct (decide (a = k ∧ (a < length t)%nat)) as [[] |]; [contradiction | reflexivity].
Qed.

Lemma get2_inv m p t i j v :
  rect2 m p t -> get2 t i j = Ok v ->
  exists a b, index m i = Ok a /\ index p j = Ok b /\ cell2 t (a, b) = Some v.
Proof.
  intros Ht H. unfold get2 in H. inv_bind H.
  apply getitem_inv in Hv. destruct Hv as (a & Ha & Hrow).
  apply getitem_inv in H. destruct H as (b & Hb & Hcell).
  exists a, b. rewrite (rect2_row m p t a v0 Ht Hrow) in Hb.
  destruct Ht as [<- _]. repeat split; trivial.
  unfold cell2. simpl. rewrite Hrow. assumption.
Qed.

Lemma get3_rect n m p T i j k a b c v :
  rect3 n m p T -> index n i = Ok a -> index m j = Ok b -> index p k = Ok c ->
  cell3 T (a, b, c) = Some v -> get3 T i j k = Ok v.
Proof.
  intros HT Hi Hj Hk Hv. unfold cell3 in Hv. simpl in Hv.
  destruct (T !! a) as [plane |] eqn:Hpl; [| discriminate].
  unfold get3. rewrite (getitem_Ok T i a plane); [| destruct HT as [-> _] |]; trivial.
  simpl. eapply get2_rect; eauto using rect3_plane.
Qed.

Lemma set3_rect n m p T i j k a b c v :
  rect3 n m p T -> index n i = Ok a -> index m j = Ok b -> index p k = Ok c ->
  set3 T i j k v = Ok (insert3 (a, b, c) v T).
Proof.
  intros HT Hi Hj Hk.
  destruct (lookup_lt_is_Some_2 T a) as [plane Hpl].
  { destruct HT as [-> _]. eapply index_lt; eauto. }
  unfold set3. rewrite (getitem_Ok T i a plane); [| destruct HT as [-> _] |]; trivial.
  simpl. rewrite (set2_rect m p plane j k b c); eauto using rect3_plane.
  simpl. rewrite (setitem_Ok T i a); [| destruct HT as [-> _]; assumption].
  f_equal. unfold insert3. simpl.
  apply list_eq. intros l. rewrite list_lookup_insert, list_lookup_alter.
  destruct (decide (a = l)) as [<- |].
  - rewrite Hpl. simpl.
    destruct (decide (a = a ∧ (a < length T)%nat)) as [_ | Hn]; [reflexivity |].
    exfalso. apply Hn. split; [reflexivity |]. eapply lookup_lt_Some; eauto.
  - destruct (decide (a = l ∧ (a < length T)%nat)) as [[] |]; [contradiction | reflexivity].
Qed.

Lemma get3_inv n m p T i j k v :
  rect3 n m p T -> get3 T i j k = Ok v ->
  exists a b c, index n i = Ok a /\ index m j = Ok b /\ index p k = Ok c
                /\ cell3 T (a, b, c) = Some v.
Proof.
  intros HT H. unfold get3 in H. inv_bind H.
  apply getitem_inv in Hv. destruct Hv as (a & Ha & Hpl).
  destruct (get2_inv m p v0 j k v (rect3_plane n m p T a v0 HT Hpl) H)
    as (b & c & Hb & Hc & Hcell).
  exists a, b, c. destruct HT as [<- _]. repeat split; trivial.
  unfold cell3. simpl. rewrite Hpl. assumption.
Qed.

End Tables.

(** ** Counters *)

(** Counter subtraction, read back: the difference when it is positive,
    0 otherwise. *)
Lemma counter_get_sub (a b : Counter) (k : string) :
  counter_get (counter_sub a b) k
  = Z.max 0 (counter_get a k - counter_get b k).
Proof.
  unfold counter_get, counter_sub. rewrite lookup_merge.
  destruct (a !! k) as [x |], (b !! k) as [y |]; simpl;
    repeat match goal with
           | |- context [?u <? ?v] => destruct (Z.ltb_spec u v)
           end; simpl; lia.
Qed.

(** A key whose difference is not positive is not in the result. *)
Lemma counter_sub_dropped (a b : Counter) (k : string) :
  counter_get a k - counter_get b k <= 0 -> counter_sub a b !! k = None.
Proof.
  unfold counter_get, counter_sub. rewrite lookup_merge.
  destruct (a !! k) as [x |], (b !! k) as [y |]; simpl; intros H;
    repeat match goal with
           | |- context [?u <? ?v] => destruct (Z.ltb_spec u v)
           end; simpl; try reflexivity; lia.
Qed.

Lemma counter_get_set (c : Counter) (k k' : string) (v : Z) :
  counter_get (counter_set c k v) k'
  = if decide (k = k') then v else counter_get c k'.
Proof.
  unfold counter_get, counter_set. rewrite lookup_insert.
  destruct (decide (k = k')); reflexivity.
Qed.

Lemma counter_get_iadd (c : Counter) (k k' : string) (v : Z) :
  counter_get (counter_iadd c k v) k'
  = if decide (k = k') then counter_get c k + v else counter_get c k'.
Proof.
  unfold counter_iadd. fold (counter_set c k (counter_get c k + v)).
  apply counter_get_set.
Qed.

Lemma write_ops_lookup (ops : list string) (trace : gmap string Z)
    (c : Counter) (k : string) :
  write_ops ops trace c !! k
  = if decide (k ∈ ops) then Some (col trace k) else c !! k.
Proof.
  unfold write_ops. revert c. induction ops as [| op ops IH]; intros c;
    cbn [foldl].
  - rewrite decide_False by apply not_elem_of_nil. reflexivity.
  - rewrite IH. destruct (decide (k ∈ ops)) as [Hin | Hnin].
    + rewrite decide_True by (apply elem_of_cons; auto). reflexivity.
    + unfold counter_set. rewrite lookup_insert.
      destruct (decide (op = k)) as [-> | Hne].
      * rewrite decide_True by (apply elem_of_cons; auto). reflexivity.
      * rewrite decide_False; [reflexivity |].
        rewrite elem_of_cons. intros [-> | ?]; contradiction.
Qed.

Lemma write_ops_get (ops : list string) (trace : gmap string Z)
    (c : Counter) (k : string) :
  counter_get (write_ops ops trace c) k
  = if decide (k ∈ ops) then col trace k else counter_get c k.
Proof.
  unfold counter_get. rewrite write_ops_lookup.
  destruct (decide (k ∈ ops)); reflexivity.
Qed.

(** Writing a whole trace forgets what was there. *)
Lemma write_ops_overwrite (ops : list string) (trace : gmap string Z)
    (c c' : Counter) :
  dom c ⊆ list_to_set ops ->
  write_ops ops trace c = write_ops ops trace ∅.
Proof.
  intros Hdom. apply map_eq. intros k. rewrite !write_ops_lookup.
  destruct (decide (k ∈ ops)) as [| Hn]; [reflexivity |].
  rewrite lookup_empty. apply not_elem_of_dom. intros Hk.
  apply Hn. apply Hdom in Hk. apply elem_of_list_to_set in Hk. exact Hk.
Qed.

Lemma write_ops_dom (ops : list string) (trace : gmap string Z) (c : Counter) :
  dom c ⊆ list_to_set ops -> dom (write_ops ops trace c) ⊆ list_to_set ops.
Proof.
  intros Hdom k Hk. apply elem_of_dom in Hk. rewrite write_ops_lookup in Hk.
  destruct (decide (k ∈ ops)) as [Hin |].
  - apply elem_of_list_to_set. exact Hin.
  - apply Hdom. apply elem_of_dom. exact Hk.
Qed.

Lemma add_ops_get (ops : list string) (trace : gmap string Z)
    (c : Counter) (k : string) :
  NoDup ops ->
  counter_get (add_ops ops trace c) k
  = if decide (k ∈ ops) then counter_get c k + col trace k
    else counter_get c k.
Proof.
  unfold add_ops. intros Hnd. revert c.
  induction Hnd as [| op ops Hnin Hnd IH]; intros c; cbn [foldl].
  - rewrite decide_False by apply not_elem_of_nil. reflexivity.
  - rewrite IH, counter_get_iadd.
    destruct (decide (op = k)) as [-> | Hne].
    + rewrite decide_False by assumption.
      rewrite decide_True by (apply elem_of_cons; auto). reflexivity.
    + destruct (decide (k ∈ ops)) as [Hin | Hn].
      * rewrite decide_True by (apply elem_of_cons; auto). reflexivity.
      * rewrite decide_False; [reflexivity |].
        rewrite elem_of_cons. intros [-> | ?]; contradiction.
Qed.

Lemma add_total_other (total : string) (ops : list string) (c : Counter)
    (k : string) :
  k <> total -> counter_get (add_total total ops c) k = counter_get c k.
Proof.
  intros Hk. unfold add_total. revert c.
  induction ops as [| op ops IH]; intros c; simpl; [reflexivity |].
  rewrite IH, counter_get_iadd. rewrite decide_False by congruence. reflexivity.
Qed.

Lemma add_total_total (total : string) (ops : list string) (c : Counter) :
  total ∉ ops ->
  counter_get (add_total total ops c) total
  = counter_get c total + sum_over (counter_get c) ops.
Proof.
  unfold add_total. revert c.
  induction ops as [| op ops IH]; intros c Hn; simpl; [lia |].
  apply not_elem_of_cons in Hn. destruct Hn as [Hne Hn].
  rewrite IH by assumption. rewrite counter_get_iadd.
  rewrite decide_True by reflexivity.
  assert (Heq : sum_over (counter_get
             (counter_iadd c total (counter_get c op))) ops
           = sum_over (counter_get c) ops).
  { clear IH. induction ops as [| o ops IHo]; simpl; [reflexivity |].
    apply not_elem_of_cons in Hn. destruct Hn as [Hne' Hn].
    rewrite IHo by assumption. rewrite counter_get_iadd.
    rewrite decide_False by congruence. reflexivity. }
  rewrite Heq. lia.
Qed.

Lemma add_totals_other (self : VanillaStatsParser) (c : Counter) (k : string) :
  k ∉ total_names -> counter_get (add_totals self c) k = counter_get c k.
Proof.
  intros Hk. unfold total_names in Hk.
  rewrite !not_elem_of_cons in Hk. destruct Hk as (H1 & H2 & H3 & _).
  unfold add_totals. rewrite !add_total_other by assumption. reflexivity.
Qed.

Lemma add_totals_instr_total (self : VanillaStatsParser) (c : Counter) :
  "instr_total" ∉ instrs self ->
  counter_get (add_totals self c) "instr_total"
  = counter_get c "instr_total" + sum_over (counter_get c) (instrs self).
Proof.
  intros Hn. unfold add_totals.
  rewrite !add_total_other by discriminate.
  apply add_total_total. assumption.
Qed.

(** ** Bit-level facts *)

Section Bits.

Lemma testbit_small (v n i : Z) :
  0 <= v < 2 ^ n -> 0 <= n -> n <= i -> Z.testbit v i = false.
Proof.
  intros Hv Hn Hi.
  rewrite <- (Z.mod_small v (2 ^ n)) by assumption.
  apply Z.mod_pow2_bits_high. lia.
Qed.

(** Or-ing a field below a multiple of [2^n] is an addition. *)
Lemma lor_mul_pow2_add (hi lo n : Z) :
  0 <= n -> 0 <= lo < 2 ^ n ->
  Z.lor (hi * 2 ^ n) lo = hi * 2 ^ n + lo.
Proof.
  intros Hn Hlo.
  rewrite <- Z.lxor_lor, Z.add_nocarry_lxor; trivial;
    apply Z.bits_inj'; intros i Hi;
    rewrite Z.land_spec, Z.bits_0;
    destruct (Z.lt_ge_cases i n) as [Hlt | Hge].
  - rewrite Z.mul_pow2_bits_low by lia. reflexivity.
  - rewrite (testbit_small lo n i) by lia. apply andb_false_r.
  - rewrite Z.mul_pow2_bits_low by lia. reflexivity.
  - rewrite (testbit_small lo n i) by lia. apply andb_false_r.
Qed.

Lemma pack_sum (k y x g t : Z) :
  0 <= y < 64 -> 0 <= x < 64 -> 0 <= g < 16384 -> 0 <= t < 16 ->
  pack k y x g t
  = k * 2 ^ 30 + y * 2 ^ 24 + x * 2 ^ 18 + g * 2 ^ 4 + t.
Proof.
  intros Hy Hx Hg Ht. unfold pack.
  rewrite !Z.shiftl_mul_pow2 by lia.
  rewrite (lor_mul_pow2_add k (y * 2 ^ 24) 30) by lia.
  replace (k * 2 ^ 30 + y * 2 ^ 24) with ((k * 2 ^ 6 + y) * 2 ^ 24) by lia.
  rewrite (lor_mul_pow2_add _ (x * 2 ^ 18) 24) by lia.
  replace ((k * 2 ^ 6 + y) * 2 ^ 24 + x * 2 ^ 18)
    with ((k * 2 ^ 12 + y * 2 ^ 6 + x) * 2 ^ 18) by lia.
  rewrite (lor_mul_pow2_add _ (g * 2 ^ 4) 18) by lia.
  replace ((k * 2 ^ 12 + y * 2 ^ 6 + x) * 2 ^ 18 + g * 2 ^ 4)
    with ((k * 2 ^ 26 + y * 2 ^ 20 + x * 2 ^ 14 + g) * 2 ^ 4) by lia.
  change (2 ^ 0) with 1. rewrite Z.mul_1_r.
  rewrite (lor_mul_pow2_add _ t 4) by lia.
  lia.
Qed.

(** [(raw >> i) & ((1 << w) - 1)] is a quotient and a remainder. *)
Lemma field_div_mod (raw i w : Z) :
  0 <= i -> 0 <= w ->
  Z.land (Z.shiftr raw i) (Z.shiftl 1 w - 1) = (raw / 2 ^ i) mod 2 ^ w.
Proof.
  intros Hi Hw.
  rewrite Z.shiftr_div_pow2 by assumption.
  rewrite Z.shiftl_mul_pow2, Z.mul_1_l by assumption.
  rewrite <- Z.land_ones by assumption.
  unfold Z.ones. rewrite Z.shiftl_mul_pow2, Z.mul_1_l by assumption.
  rewrite Z.sub_1_r. reflexivity.
Qed.

End Bits.

Lemma tag_range (c : CudaStatTag.t) : 0 <= CudaStatTag.tag c < 16.
Proof.
  unfold CudaStatTag.tag, CudaStatTag._TAG_MASK.
  rewrite field_div_mod by (unfold CudaStatTag._TAG_INDEX, CudaStatTag._TAG_WIDTH; lia).
  apply (Z.mod_pos_bound _ (2 ^ 4)). lia.
Qed.

Lemma tg_id_range (c : CudaStatTag.t) : 0 <= CudaStatTag.tg_id c < 16384.
Proof.
  unfold CudaStatTag.tg_id, CudaStatTag._TG_ID_MASK.
  rewrite field_div_mod
    by (unfold CudaStatTag._TG_ID_INDEX, CudaStatTag._TAG_INDEX,
          CudaStatTag._TAG_WIDTH, CudaStatTag._TG_ID_WIDTH; lia).
  apply (Z.mod_pos_bound _ (2 ^ 14)). lia.
Qed.

Lemma n_tags_eq : Z.of_nat n_tags = 16.
Proof. unfold n_tags. rewrite Z2Nat.id; [reflexivity | discriminate]. Qed.

Lemma n_groups_eq : Z.of_nat n_groups = 16384.
Proof. unfold n_groups. rewrite Z2Nat.id; [reflexivity | discriminate]. Qed.

Lemma index_tag (c : CudaStatTag.t) :
  index n_tags (CudaStatTag.tag c) = Ok (Z.to_nat (CudaStatTag.tag c)).
Proof.
  pose proof (tag_range c) as H. pose proof n_tags_eq as Hn.
  rewrite <- (Z2Nat.id (CudaStatTag.tag c)) at 1 by lia.
  apply index_of_nat. lia.
Qed.

Lemma index_tg_id (c : CudaStatTag.t) :
  index n_groups (CudaStatTag.tg_id c) = Ok (Z.to_nat (CudaStatTag.tg_id c)).
Proof.
  pose proof (tg_id_range c) as H. pose proof n_groups_eq as Hn.
  rewrite <- (Z2Nat.id (CudaStatTag.tg_id c)) at 1 by lia.
  apply index_of_nat. lia.
Qed.

(** ** The tag codec *)

Lemma type_field (raw : Z) :
  Z.land (Z.shiftr raw CudaStatTag._TYPE_INDEX) CudaStatTag._TYPE_MASK
  = Z.land (Z.shiftr raw 30) 3.
Proof. reflexivity. Qed.

Lemma type_field_range (raw : Z) : 0 <= Z.land (Z.shiftr raw 30) 3 <= 3.
Proof.
  change 3 with (Z.shiftl 1 2 - 1) at 1 2.
  rewrite field_div_mod by lia.
  pose proof (Z.mod_pos_bound (raw / 2 ^ 30) (2 ^ 2)). lia.
Qed.

(** C8. Decoding raises [ValueError] (the spec's InvalidTagError) exactly
    when the two bits [(raw >> 30) & 3] are 3; on 0, 1 and 2 it succeeds
    with the stat types STAT, START and END. *)
Theorem decode_fails_exactly_on_type_3 (raw : Z) :
  let k := Z.land (Z.shiftr raw 30) 3 in
  0 <= k <= 3
  /\ (CudaStatTag.init raw = Err ValueError <-> k = 3)
  /\ match k with
     | 0 => exists c, CudaStatTag.init raw = Ok c
                      /\ CudaStatTag.statType c = CudaStatTag.STAT
     | 1 => exists c, CudaStatTag.init raw = Ok c
                      /\ CudaStatTag.statType c = CudaStatTag.START
     | 2 => exists c, CudaStatTag.init raw = Ok c
                      /\ CudaStatTag.statType c = CudaStatTag.END
     | _ => CudaStatTag.init raw = Err ValueError
     end.
Proof.
  intros k. pose proof (type_field_range raw) as Hk. fold k in Hk.
  split; [exact Hk |].
  unfold CudaStatTag.init. rewrite type_field. fold k.
  assert (Hcases : k = 0 \/ k = 1 \/ k = 2 \/ k = 3) by lia.
  destruct Hcases as [-> | [-> | [-> | ->]]]; simpl.
  - split; [split; discriminate | eexists; split; reflexivity].
  - split; [split; discriminate | eexists; split; reflexivity].
  - split; [split; discriminate | eexists; split; reflexivity].
  - split; [split; reflexivity | reflexivity].
Qed.

(** C3. Decoding is a left inverse of packing: the five fields of a packed
    tag are read back exactly. *)
Theorem decode_pack (k y x g t : Z) :
  0 <= k <= 2 -> 0 <= y < 64 -> 0 <= x < 64 -> 0 <= g < 16384 ->
  0 <= t < 16 ->
  exists c,
    CudaStatTag.init (pack k y x g t) = Ok c
    /\ CudaStatTag.StatType_value (CudaStatTag.statType c) = k
    /\ CudaStatTag.y c = y
    /\ CudaStatTag.x c = x
    /\ CudaStatTag.tg_id c = g
    /\ CudaStatTag.tag c = t.
Proof.
  intros Hk Hy Hx Hg Ht.
  assert (Htype : Z.land (Z.shiftr (pack k y x g t) 30) 3 = k).
  { change 3 with (Z.shiftl 1 2 - 1). rewrite field_div_mod by lia.
    rewrite pack_sum by assumption.
    change (2 ^ 30) with 1073741824. change (2 ^ 24) with 16777216.
    change (2 ^ 18) with 262144. change (2 ^ 4) with 16. change (2 ^ 2) with 4.
    Z.div_mod_to_equations. lia. }
  unfold CudaStatTag.init. rewrite type_field, Htype.
  assert (Hty : exists ty, CudaStatTag.StatType_of k = Ok ty
                           /\ CudaStatTag.StatType_value ty = k).
  { assert (Hc : k = 0 \/ k = 1 \/ k = 2) by lia.
    destruct Hc as [-> | [-> | ->]]; eexists; split; reflexivity. }
  destruct Hty as (ty & -> & Hv). simpl.
  eexists. split; [reflexivity |]. split; [exact Hv |].
  unfold CudaStatTag.y, CudaStatTag.x, CudaStatTag.tg_id, CudaStatTag.tag,
    CudaStatTag._Y_MASK, CudaStatTag._X_MASK, CudaStatTag._TG_ID_MASK,
    CudaStatTag._TAG_MASK. simpl CudaStatTag.s.
  change CudaStatTag._Y_INDEX with 24. change CudaStatTag._X_INDEX with 18.
  change CudaStatTag._TG_ID_INDEX with 4. change CudaStatTag._TAG_INDEX with 0.
  change CudaStatTag._Y_WIDTH with 6. change CudaStatTag._X_WIDTH with 6.
  change CudaStatTag._TG_ID_WIDTH with 14. change CudaStatTag._TAG_WIDTH with 4.
  rewrite !field_div_mod by lia. rewrite pack_sum by assumption.
  change (2 ^ 30) with 1073741824. change (2 ^ 24) with 16777216.
  change (2 ^ 18) with 262144. change (2 ^ 14) with 16384.
  change (2 ^ 6) with 64. change (2 ^ 4) with 16. change (2 ^ 0) with 1.
  repeat split; Z.div_mod_to_equations; lia.
Qed.

Lemma decode_pack_witness :
  exists c,
    CudaStatTag.init (pack 2 1 0 5 3) = Ok c
    /\ CudaStatTag.StatType_value (CudaStatTag.statType c) = 2
    /\ CudaStatTag.y c = 1
    /\ CudaStatTag.x c = 0
    /\ CudaStatTag.tg_id c = 5
    /\ CudaStatTag.tag c = 3.
Proof. apply (decode_pack 2 1 0 5 3); lia. Defined.

(** ** The loop over the traces *)

Lemma map_const_replicate {A B} (b : B) (l : list A) :
  map (fun _ => b) l = replicate (length l) b.
Proof. induction l as [| a l IH]; simpl; [reflexivity | rewrite IH; reflexivity]. Qed.

Lemma rect2_replicate {A} (m p : nat) (a : A) :
  rect2 m p (replicate m (replicate p a)).
Proof.
  split; [apply length_replicate |].
  apply Forall_forall. intros row Hrow.
  apply elem_of_replicate in Hrow. destruct Hrow as [-> _].
  apply length_replicate.
Qed.

Lemma rect3_replicate {A} (n m p : nat) (a : A) :
  rect3 n m p (replicate n (replicate m (replicate p a))).
Proof.
  split; [apply length_replicate |].
  apply Forall_forall. intros plane Hpl.
  apply elem_of_replicate in Hpl. destruct Hpl as [-> _].
  apply rect2_replicate.
Qed.

Lemma cell2_replicate {A} (m p : nat) (a : A) (q : nat * nat) (v : A) :
  cell2 (replicate m (replicate p a)) q = Some v -> v = a.
Proof.
  unfold cell2. destruct (replicate m (replicate p a) !! q.1) as [row |] eqn:E;
    [| discriminate].
  apply lookup_replicate in E. destruct E as [-> _].
  intros H. apply lookup_replicate in H. tauto.
Qed.

Lemma cell3_replicate {A} (n m p : nat) (a : A) (q : nat * nat * nat) (v : A) :
  cell3 (replicate n (replicate m (replicate p a))) q = Some v -> v = a.
Proof.
  unfold cell3.
  destruct (replicate n (replicate m (replicate p a)) !! q.1.1) as [pl |] eqn:E;
    [| discriminate].
  apply lookup_replicate in E. destruct E as [-> _].
  apply cell2_replicate.
Qed.

Lemma new_tile_table_replicate {A} (self : VanillaStatsParser) (a : A) :
  new_tile_table self a
  = replicate n_tags (replicate (dim_y self) (replicate (dim_x self) a)).
Proof.
  unfold new_tile_table.
  rewrite (map_const_replicate a).
  rewrite (map_const_replicate (replicate _ a)).
  rewrite (map_const_replicate (replicate _ (replicate _ a))).
  rewrite !range_length. reflexivity.
Qed.

Lemma new_tile_group_table_replicate :
  new_tile_group_table = replicate n_tags (replicate n_groups (∅ : Counter)).
Proof.
  unfold new_tile_group_table.
  rewrite (map_const_replicate (∅ : Counter)).
  rewrite (map_const_replicate (replicate _ (∅ : Counter))).
  rewrite !range_length. reflexivity.
Qed.

Ltac simpl_locals :=
  cbn [num_tags num_tile_groups tile_stat_start tile_stat_end tile_stat
       tile_group_stat_start tile_group_stat_end tile_group_stat
       tag_credits stdout
       with_num_tags with_num_tile_groups with_tile_stat_start
       with_tile_stat_end with_tile_stat with_tile_group_stat_start
       with_tile_group_stat_end with_tile_group_stat with_tag_credits
       print] in *.

Lemma initial_shapes (self : VanillaStatsParser) :
  shapes self (initial_locals self).
Proof.
  unfold initial_locals. split; simpl_locals;
    rewrite ?new_tile_table_replicate, ?new_tile_group_table_replicate;
    try apply rect3_replicate; try apply rect2_replicate.
  rewrite (map_const_replicate 0), length_replicate, range_length. reflexivity.
Qed.

(** The inner loop over the operations, on tables that have the tile and
    the tile group. *)
Lemma record_ops_spec (trace : gmap string Z) (tag ry rx tg : Z)
    (n m p g : nat) (a b c d : nat) (ops : list string) :
  index n tag = Ok a -> index m ry = Ok b -> index p rx = Ok c ->
  index g tg = Ok d ->
  Forall (fun op => is_Some (trace !! op)) ops ->
  forall (T : list (list (list Counter))) (G : list (list Counter))
         (c0 g0 : Counter),
    rect3 n m p T -> rect2 n g G ->
    cell3 T (a, b, c) = Some c0 -> cell2 G (a, d) = Some g0 ->
    exists T' G',
      for_each (record_op trace tag ry rx tg) ops (T, G) = Ok (T', G')
      /\ rect3 n m p T' /\ rect2 n g G'
      /\ (forall q, cell3 T' q
                    = if decide ((a, b, c) = q)
                      then Some (write_ops ops trace c0) else cell3 T q)
      /\ (forall q, cell2 G' q
                    = if decide ((a, d) = q)
                      then Some (add_ops ops trace g0) else cell2 G q).
Proof.
  intros Ha Hb Hc Hd Hops.
  induction Hops as [| op ops Hop Hops IH]; intros T G c0 g0 HT HG Hc0 Hg0.
  - exists T, G. cbn [for_each].
    split; [reflexivity |]. split; [assumption |]. split; [assumption |]. split.
    + intros q. destruct (decide ((a, b, c) = q)) as [<- |]; [assumption | reflexivity].
    + intros q. destruct (decide ((a, d) = q)) as [<- |]; [assumption | reflexivity].
  - destruct Hop as [v Hv].
    assert (Hcol : col trace op = v) by (unfold col; rewrite Hv; reflexivity).
    cbn [for_each]. unfold record_op at 1. unfold dict_get. rewrite Hv.
    cbn [bind].
    rewrite (get3_rect n m p T tag ry rx a b c c0) by assumption. cbn [bind].
    rewrite (set3_rect n m p T tag ry rx a b c) by assumption. cbn [bind].
    rewrite (get2_rect n g G tag tg a d g0) by assumption. cbn [bind].
    rewrite (set2_rect n g G tag tg a d) by assumption. cbn [bind].
    destruct (IH (insert3 (a, b, c) (counter_set c0 op v) T)
                 (insert2 (a, d) (counter_iadd g0 op v) G)
                 (counter_set c0 op v) (counter_iadd g0 op v))
      as (T' & G' & Hrun & HT' & HG' & HcT & HcG).
    + apply rect3_insert3. assumption.
    + apply rect2_insert2. assumption.
    + rewrite cell3_insert3 by (rewrite Hc0; eauto).
      rewrite decide_True by reflexivity. reflexivity.
    + rewrite cell2_insert2 by (rewrite Hg0; eauto).
      rewrite decide_True by reflexivity. reflexivity.
    + exists T', G'. split; [exact Hrun |].
      split; [assumption |]. split; [assumption |]. split.
      * intros q. rewrite HcT. destruct (decide ((a, b, c) = q)) as [Heq | Hne].
        -- unfold write_ops. cbn [foldl]. rewrite Hcol. reflexivity.
        -- rewrite cell3_insert3 by (rewrite Hc0; eauto).
           rewrite decide_False by assumption. reflexivity.
      * intros q. rewrite HcG. destruct (decide ((a, d) = q)) as [Heq | Hne].
        -- unfold add_ops. cbn [foldl]. rewrite Hcol. reflexivity.
        -- rewrite cell2_insert2 by (rewrite Hg0; eauto).
           rewrite decide_False by assumption. reflexivity.
Qed.

(** The loop raises [KeyError] on a trace that lacks an operation. *)
Lemma record_ops_keys (trace : gmap string Z) (tag ry rx tg : Z)
    (ops : list string) tables tables' :
  for_each (record_op trace tag ry rx tg) ops tables = Ok tables' ->
  Forall (fun op => is_Some (trace !! op)) ops.
Proof.
  revert tables. induction ops as [| op ops IH]; intros tables H;
    [constructor |].
  cbn [for_each] in H. inv_bind H. constructor; [| eapply IH; eauto].
  unfold record_op in Hv. destruct tables as [T G]. inv_bind Hv.
  unfold dict_get in Hv0. destruct (trace !! op); [eauto | discriminate].
Qed.

Lemma dict_get_inv (d : gmap string Z) (k : string) (v : Z) :
  dict_get d k = Ok v -> d !! k = Some v.
Proof. unfold dict_get. destruct (d !! k); [congruence | discriminate]. Qed.

Lemma event_eq (self : VanillaStatsParser) (trace : gmap string Z)
    (y x tag : Z) (cst : CudaStatTag.t) (a b : nat) :
  trace !! "y" = Some y -> trace !! "x" = Some x ->
  trace !! "tag" = Some tag -> CudaStatTag.init tag = Ok cst ->
  index (dim_y self) (y - _BSG_ORIGIN_Y) = Ok a ->
  index (dim_x self) (x - _BSG_ORIGIN_X) = Ok b ->
  event self trace
  = Some (CudaStatTag.type cst, (Z.to_nat (CudaStatTag.tag cst), a, b),
          Z.to_nat (CudaStatTag.tg_id cst)).
Proof.
  intros Hy Hx Htag Hcst Ha Hb. unfold event.
  rewrite Hy, Hx, Htag, Hcst, Ha, Hb. reflexivity.
Qed.

Lemma event_type (self : VanillaStatsParser) (trace : gmap string Z)
    (tag : Z) (cst : CudaStatTag.t) k q g :
  trace !! "tag" = Some tag -> CudaStatTag.init tag = Ok cst ->
  event self trace = Some (k, q, g) -> k = CudaStatTag.type cst.
Proof.
  intros Htag Hcst. unfold event. rewrite Htag, Hcst.
  destruct (trace !! "y"); [| discriminate].
  destruct (trace !! "x"); [| discriminate].
  destruct (index _ _); [| discriminate].
  destruct (index _ _); [| discriminate].
  intros H. injection H as <- _ _. reflexivity.
Qed.

Lemma tile_event_eq (self : VanillaStatsParser) (trace : gmap string Z)
    k p g kind q :
  event self trace = Some (k, p, g) ->
  tile_event self kind q trace = bool_decide (k = kind) && bool_decide (p = q).
Proof. intros H. unfold tile_event. rewrite H. reflexivity. Qed.

Lemma group_event_eq (self : VanillaStatsParser) (trace : gmap string Z)
    k p g kind q :
  event self trace = Some (k, p, g) ->
  group_event self kind q trace
  = bool_decide (k = kind) && bool_decide ((p.1.1, g) = q).
Proof. intros H. unfold group_event. rewrite H. reflexivity. Qed.

Lemma tile_event_other_type (self : VanillaStatsParser)
    (trace : gmap string Z) (tag : Z) (cst : CudaStatTag.t) kind q :
  trace !! "tag" = Some tag -> CudaStatTag.init tag = Ok cst ->
  CudaStatTag.type cst <> kind -> tile_event self kind q trace = false.
Proof.
  intros Htag Hcst Hne. unfold tile_event.
  destruct (event self trace) as [[[k p] g] |] eqn:E; [| reflexivity].
  rewrite (event_type self trace tag cst k p g Htag Hcst E).
  rewrite bool_decide_eq_false_2 by assumption. reflexivity.
Qed.

Lemma group_event_other_type (self : VanillaStatsParser)
    (trace : gmap string Z) (tag : Z) (cst : CudaStatTag.t) kind q :
  trace !! "tag" = Some tag -> CudaStatTag.init tag = Ok cst ->
  CudaStatTag.type cst <> kind -> group_event self kind q trace = false.
Proof.
  intros Htag Hcst Hne. unfold group_event.
  destruct (event self trace) as [[[k p] g] |] eqn:E; [| reflexivity].
  rewrite (event_type self trace tag cst k p g Htag Hcst E).
  rewrite bool_decide_eq_false_2 by assumption. reflexivity.
Qed.

(** What [process_trace] leaves, in terms of the cells of the tables. *)
Definition step_post (self : VanillaStatsParser) (st : locals)
    (trace : gmap string Z) (st' : locals) : Prop :=
  shapes self st'
  /\ (forall q, cell3 (tile_stat_start st') q
                = tile_step self CudaStatTag.START trace q
                    <$> cell3 (tile_stat_start st) q)
  /\ (forall q, cell3 (tile_stat_end st') q
                = tile_step self CudaStatTag.END trace q
                    <$> cell3 (tile_stat_end st) q)
  /\ (forall g, cell2 (tile_group_stat_start st') g
                = group_step self CudaStatTag.START trace g
                    <$> cell2 (tile_group_stat_start st) g)
  /\ (forall g, cell2 (tile_group_stat_end st') g
                = group_step self CudaStatTag.END trace g
                    <$> cell2 (tile_group_stat_end st) g)
  /\ (forall q, cell3 (tag_credits st') q
                = credit_step self trace q <$> cell3 (tag_credits st) q)
  /\ num_tags st' = num_tags st
  /\ tile_stat st' = tile_stat st
  /\ tile_group_stat st' = tile_group_stat st
  /\ stdout st' = stdout st ++ step_output self (tag_credits st) trace.

Lemma fmap_id_cell {A} (f : A -> A) (o : option A) :
  (forall a, f a = a) -> f <$> o = o.
Proof. intros H. destruct o; simpl; [rewrite H |]; reflexivity. Qed.

(** A trace that is neither a start nor an end changes nothing. *)
Lemma step_post_stat (self : VanillaStatsParser) (st : locals)
    (trace : gmap string Z) (tag : Z) (cst : CudaStatTag.t) :
  shapes self st ->
  trace !! "tag" = Some tag -> CudaStatTag.init tag = Ok cst ->
  CudaStatTag.type cst = CudaStatTag.STAT ->
  step_post self st trace st.
Proof.
  intros Hsh Htag Hcst Hty.
  assert (Hs : forall q, tile_event self CudaStatTag.START q trace = false).
  { intros q. eapply tile_event_other_type; eauto. rewrite Hty. discriminate. }
  assert (He : forall q, tile_event self CudaStatTag.END q trace = false).
  { intros q. eapply tile_event_other_type; eauto. rewrite Hty. discriminate. }
  assert (Hgs : forall q, group_event self CudaStatTag.START q trace = false).
  { intros q. eapply group_event_other_type; eauto. rewrite Hty. discriminate. }
  assert (Hge : forall q, group_event self CudaStatTag.END q trace = false).
  { intros q. eapply group_event_other_type; eauto. rewrite Hty. discriminate. }
  unfold step_post. split; [assumption |].
  split. { intros q. symmetry. apply fmap_id_cell. intros c.
           unfold tile_step. rewrite Hs. reflexivity. }
  split. { intros q. symmetry. apply fmap_id_cell. intros c.
           unfold tile_step. rewrite He. reflexivity. }
  split. { intros q. symmetry. apply fmap_id_cell. intros c.
           unfold group_step. rewrite Hgs. reflexivity. }
  split. { intros q. symmetry. apply fmap_id_cell. intros c.
           unfold group_step. rewrite Hge. reflexivity. }
  split. { intros q. symmetry. apply fmap_id_cell. intros c.
           unfold credit_step. rewrite Hs, He. reflexivity. }
  split; [reflexivity |]. split; [reflexivity |]. split; [reflexivity |].
  unfold step_output.
  destruct (event self trace) as [[[k p] g] |] eqn:E;
    [| rewrite app_nil_r; reflexivity].
  rewrite (event_type self trace tag cst k p g Htag Hcst E), Hty.
  rewrite bool_decide_eq_false_2 by discriminate.
  rewrite app_nil_r. reflexivity.
Qed.

Lemma isStart_eq (c : CudaStatTag.t) :
  CudaStatTag.isStart c = bool_decide (CudaStatTag.type c = CudaStatTag.START).
Proof. unfold CudaStatTag.isStart. destruct (CudaStatTag.type c); reflexivity. Qed.

Lemma isEnd_eq (c : CudaStatTag.t) :
  CudaStatTag.isEnd c = bool_decide (CudaStatTag.type c = CudaStatTag.END).
Proof. unfold CudaStatTag.isEnd. destruct (CudaStatTag.type c); reflexivity. Qed.

Lemma isStat_eq (c : CudaStatTag.t) :
  CudaStatTag.isStat c = bool_decide (CudaStatTag.type c = CudaStatTag.STAT).
Proof. unfold CudaStatTag.isStat. destruct (CudaStatTag.type c); reflexivity. Qed.

Lemma n_groups_truthy {A} (m : nat) (t : list (list A)) (a : nat)
    (row : list A) :
  rect2 m n_groups t -> t !! a = Some row -> list_truthy row = true.
Proof.
  intros Ht Hrow. unfold list_truthy.
  rewrite (rect2_row m n_groups t a row Ht Hrow).
  pose proof n_groups_eq as Hn.
  destruct n_groups; [discriminate | reflexivity].
Qed.

Lemma valid_trace_intro (self : VanillaStatsParser) (trace : gmap string Z)
    (y x tag : Z) (cst : CudaStatTag.t) (a b : nat) :
  trace !! "y" = Some y -> trace !! "x" = Some x ->
  trace !! "tag" = Some tag -> CudaStatTag.init tag = Ok cst ->
  index (dim_y self) (y - _BSG_ORIGIN_Y) = Ok a ->
  index (dim_x self) (x - _BSG_ORIGIN_X) = Ok b ->
  Forall (fun op => is_Some (trace !! op)) (all_ops self) ->
  valid_trace self trace = true.
Proof.
  intros Hy Hx Htag Hcst Ha Hb Hops. unfold valid_trace.
  rewrite (event_eq self trace y x tag cst a b) by assumption.
  rewrite Hy, Hx, Htag, Hcst.
  destruct (CudaStatTag.isStat cst); [reflexivity |].
  apply forallb_forall. intros op Hin. apply bool_decide_eq_true_2.
  rewrite Forall_forall in Hops. apply Hops. apply list_elem_of_In. exact Hin.
Qed.

(** A start trace. *)
Lemma step_post_start (self : VanillaStatsParser) (st st' : locals)
    (trace : gmap string Z) (y x tag : Z) (cst : CudaStatTag.t) :
  shapes self st ->
  trace !! "y" = Some y -> trace !! "x" = Some x ->
  trace !! "tag" = Some tag -> CudaStatTag.init tag = Ok cst ->
  CudaStatTag.type cst = CudaStatTag.START ->
  process_trace self st trace = Ok st' ->
  step_post self st trace st' /\ valid_trace self trace = true.
Proof.
  intros Hsh Hy Hx Htag Hcst Hty H.
  unfold process_trace, dict_get in H. rewrite Hy, Hx, Htag in H.
  cbn [bind] in H. rewrite Hcst in H. cbn [bind] in H.
  rewrite isStart_eq, Hty in H. rewrite bool_decide_eq_true_2 in H by reflexivity.
  inv_bind H. rename v into credit.
  destruct (get3_inv _ _ _ _ _ _ _ _ (sh_credits _ _ Hsh) Hv)
    as (a0 & a & b & Ha0 & Ha & Hb & Hcredit).
  rewrite index_tag in Ha0. injection Ha0 as <-.
  set (t := Z.to_nat (CudaStatTag.tag cst)) in *.
  set (d := Z.to_nat (CudaStatTag.tg_id cst)).
  pose proof (index_tag cst) as Hit. fold t in Hit.
  pose proof (index_tg_id cst) as Hid. fold d in Hid.
  pose proof (event_eq self trace y x tag cst a b Hy Hx Htag Hcst Ha Hb) as Hev.
  rewrite Hty in Hev. fold t d in Hev.
  rewrite (set3_rect _ _ _ _ _ _ _ t a b _ (sh_credits _ _ Hsh) Hit Ha Hb) in H.
  cbn [bind] in H. simpl_locals.
  inv_bind H. rename v into groups.
  apply getitem_inv in Hv0. destruct Hv0 as (t' & Ht' & Hgroups).
  rewrite (proj1 (sh_group_start _ _ Hsh)), Hit in Ht'. injection Ht' as <-.
  rewrite (n_groups_truthy _ _ _ _ (sh_group_start _ _ Hsh) Hgroups) in H.
  cbn [negb] in H.
  inv_bind H. rename v into group.
  apply getitem_inv in Hv0. destruct Hv0 as (d' & Hd' & Hgroup).
  rewrite (rect2_row _ _ _ _ _ (sh_group_start _ _ Hsh) Hgroups), Hid in Hd'.
  injection Hd' as <-.
  inv_bind H. rename v into st1.
  assert (Hst1 : exists l, st1 = with_num_tile_groups
                    (with_tag_credits st (insert3 (t, a, b) (credit + 1) (tag_credits st))) l
                  /\ length l = n_tags).
  { destruct (negb (counter_truthy group)).
    - inv_bind Hv0. inv_bind Hv0. injection Hv0 as <-. simpl_locals.
      apply setitem_inv in Hv2. destruct Hv2 as (k & _ & ->).
      eexists. split; [reflexivity |]. rewrite length_insert.
      apply (sh_num_tile_groups _ _ Hsh).
    - injection Hv0 as <-. exists (num_tile_groups st). split.
      + destruct st; reflexivity.
      + apply (sh_num_tile_groups _ _ Hsh). }
  destruct Hst1 as (l & -> & Hl). simpl_locals.
  inv_bind H. injection H as <-. rename v into tables.
  pose proof (record_ops_keys _ _ _ _ _ _ _ _ Hv1) as Hkeys.
  assert (Hg0 : cell2 (tile_group_stat_start st) (t, d) = Some group).
  { unfold cell2. cbn [fst snd]. rewrite Hgroups. exact Hgroup. }
  destruct (rect3_cell _ _ _ (tile_stat_start st) t a b (sh_start _ _ Hsh))
    as [c0 Hc0]; eauto using index_lt.
  destruct (record_ops_spec trace _ _ _ _ _ _ _ _ t a b d (all_ops self)
              Hit Ha Hb Hid Hkeys _ _ c0 group
              (sh_start _ _ Hsh) (sh_group_start _ _ Hsh) Hc0 Hg0)
    as (T' & G' & Hrun & HT' & HG' & HcT & HcG).
  rewrite Hrun in Hv1. injection Hv1 as <-. cbn [fst snd].
  split; [| eapply valid_trace_intro; eauto].
  unfold step_post. simpl_locals.
  split.
  { destruct Hsh. split; simpl_locals; trivial. apply rect3_insert3. assumption. }
  split.
  { intros q. rewrite HcT. unfold tile_step.
    rewrite (tile_event_eq _ _ _ _ _ _ _ Hev).
    rewrite bool_decide_eq_true_2 by reflexivity. cbn [andb].
    destruct (decide ((t, a, b) = q)) as [<- | Hne].
    - rewrite bool_decide_eq_true_2 by reflexivity. rewrite Hc0. reflexivity.
    - rewrite bool_decide_eq_false_2 by assumption.
      destruct (cell3 _ q); reflexivity. }
  split.
  { intros q. unfold tile_step. rewrite (tile_event_eq _ _ _ _ _ _ _ Hev).
    rewrite bool_decide_eq_false_2 by discriminate. cbn [andb].
    destruct (cell3 _ q); reflexivity. }
  split.
  { intros g. rewrite HcG. unfold group_step.
    rewrite (group_event_eq _ _ _ _ _ _ _ Hev). cbn [fst].
    rewrite bool_decide_eq_true_2 by reflexivity. cbn [andb].
    destruct (decide ((t, d) = g)) as [<- | Hne].
    - rewrite bool_decide_eq_true_2 by reflexivity. rewrite Hg0. reflexivity.
    - rewrite bool_decide_eq_false_2 by assumption.
      destruct (cell2 _ g); reflexivity. }
  split.
  { intros g. unfold group_step. rewrite (group_event_eq _ _ _ _ _ _ _ Hev).
    rewrite bool_decide_eq_false_2 by discriminate. cbn [andb].
    destruct (cell2 _ g); reflexivity. }
  split.
  { intros q. rewrite cell3_insert3 by (rewrite Hcredit; eauto).
    unfold credit_step. rewrite !(tile_event_eq _ _ _ _ _ _ _ Hev).
    rewrite bool_decide_eq_true_2 by reflexivity. cbn [andb].
    destruct (decide ((t, a, b) = q)) as [<- | Hne].
    - rewrite bool_decide_eq_true_2 by reflexivity. rewrite Hcredit. reflexivity.
    - rewrite bool_decide_eq_false_2 by assumption.
      rewrite bool_decide_eq_false_2 by discriminate. cbn [andb].
      destruct (cell3 _ q); reflexivity. }
  split; [reflexivity |]. split; [reflexivity |]. split; [reflexivity |].
  unfold step_output. rewrite Hev.
  rewrite bool_decide_eq_false_2 by discriminate.
  rewrite app_nil_r. reflexivity.
Qed.

(** An end trace. *)
Lemma step_post_end (self : VanillaStatsParser) (st st' : locals)
    (trace : gmap string Z) (y x tag : Z) (cst : CudaStatTag.t) :
  shapes self st ->
  trace !! "y" = Some y -> trace !! "x" = Some x ->
  trace !! "tag" = Some tag -> CudaStatTag.init tag = Ok cst ->
  CudaStatTag.type cst = CudaStatTag.END ->
  process_trace self st trace = Ok st' ->
  step_post self st trace st' /\ valid_trace self trace = true.
Proof.
  intros Hsh Hy Hx Htag Hcst Hty H.
  unfold process_trace, dict_get in H. rewrite Hy, Hx, Htag in H.
  cbn [bind] in H. rewrite Hcst in H. cbn [bind] in H.
  rewrite isStart_eq, isEnd_eq, Hty in H.
  rewrite bool_decide_eq_false_2 in H by discriminate.
  rewrite bool_decide_eq_true_2 in H by reflexivity.
  inv_bind H. rename v into credit.
  destruct (get3_inv _ _ _ _ _ _ _ _ (sh_credits _ _ Hsh) Hv)
    as (a0 & a & b & Ha0 & Ha & Hb & Hcredit).
  rewrite index_tag in Ha0. injection Ha0 as <-.
  set (t := Z.to_nat (CudaStatTag.tag cst)) in *.
  set (d := Z.to_nat (CudaStatTag.tg_id cst)).
  pose proof (index_tag cst) as Hit. fold t in Hit.
  pose proof (index_tg_id cst) as Hid. fold d in Hid.
  pose proof (event_eq self trace y x tag cst a b Hy Hx Htag Hcst Ha Hb) as Hev.
  rewrite Hty in Hev. fold t d in Hev.
  rewrite (set3_rect _ _ _ _ _ _ _ t a b _ (sh_credits _ _ Hsh) Hit Ha Hb) in H.
  cbn [bind] in H. simpl_locals.
  rewrite (get3_rect n_tags (dim_y self) (dim_x self) _ _ _ _ t a b
             (credit - 1)) in H; trivial.
  2: { apply rect3_insert3. apply (sh_credits _ _ Hsh). }
  2: { rewrite cell3_insert3 by (rewrite Hcredit; eauto).
       rewrite decide_True by reflexivity. reflexivity. }
  cbn [bind] in H.
  set (out := if credit - 1 <? 0
              then [missing_start (CudaStatTag.tag cst) (x - _BSG_ORIGIN_X)
                                  (y - _BSG_ORIGIN_Y)]
              else []).
  assert (Hout : step_output self (tag_credits st) trace = out).
  { unfold step_output. rewrite Hev.
    rewrite bool_decide_eq_true_2 by reflexivity. rewrite Hcredit.
    unfold out, missing_start_line, col. rewrite Hx, Hy. cbn [fst snd default].
    unfold t. rewrite Z2Nat.id by (pose proof (tag_range cst); lia).
    reflexivity. }
  inv_bind H. injection H as <-. rename v into tables.
  pose proof (record_ops_keys _ _ _ _ _ _ _ _ Hv0) as Hkeys.
  destruct (rect2_cell _ _ (tile_group_stat_end st) t d (sh_group_end _ _ Hsh))
    as [g0 Hg0]; eauto using index_lt.
  destruct (rect3_cell _ _ _ (tile_stat_end st) t a b (sh_end _ _ Hsh))
    as [c0 Hc0]; eauto using index_lt.
  destruct (record_ops_spec trace _ _ _ _ _ _ _ _ t a b d (all_ops self)
              Hit Ha Hb Hid Hkeys _ _ c0 g0
              (sh_end _ _ Hsh) (sh_group_end _ _ Hsh) Hc0 Hg0)
    as (T' & G' & Hrun & HT' & HG' & HcT & HcG).
  assert (Htab : tables = (T', G')).
  { destruct (credit - 1 <? 0); simpl_locals; rewrite Hrun in Hv0;
      injection Hv0 as <-; reflexivity. }
  subst tables. cbn [fst snd].
  split; [| eapply valid_trace_intro; eauto].
  unfold step_post.
  assert (Hfields :
    forall s, s = (if credit - 1 <? 0
                   then print (with_tag_credits st
                                 (insert3 (t, a, b) (credit - 1) (tag_credits st)))
                          (missing_start (CudaStatTag.tag cst)
                             (x - _BSG_ORIGIN_X) (y - _BSG_ORIGIN_Y))
                   else with_tag_credits st
                          (insert3 (t, a, b) (credit - 1) (tag_credits st))) ->
      num_tags s = num_tags st /\ num_tile_groups s = num_tile_groups st
      /\ tile_stat_start s = tile_stat_start st /\ tile_stat s = tile_stat st
      /\ tile_group_stat_start s = tile_group_stat_start st
      /\ tile_group_stat s = tile_group_stat st
      /\ tag_credits s = insert3 (t, a, b) (credit - 1) (tag_credits st)
      /\ stdout s = stdout st ++ out).
  { intros s ->. unfold out. destruct (credit - 1 <? 0); simpl_locals;
      rewrite ?app_nil_r; repeat split; reflexivity. }
  match goal with
  | |- context [with_tile_stat_end ?s0 T'] =>
      pose proof (Hfields s0 eq_refl) as HF; clear Hfields;
      set (s1 := s0) in *; clearbody s1;
      destruct HF as (F1 & F2 & F3 & F4 & F5 & F6 & F7 & F8)
  end.
  simpl_locals.
  split.
  { destruct Hsh. split; simpl_locals; rewrite ?F2, ?F3, ?F4, ?F5, ?F6, ?F7;
      trivial. apply rect3_insert3. assumption. }
  split.
  { intros q. rewrite F3. unfold tile_step.
    rewrite (tile_event_eq _ _ _ _ _ _ _ Hev).
    rewrite bool_decide_eq_false_2 by discriminate. cbn [andb].
    destruct (cell3 _ q); reflexivity. }
  split.
  { intros q. rewrite HcT. unfold tile_step.
    rewrite (tile_event_eq _ _ _ _ _ _ _ Hev).
    rewrite bool_decide_eq_true_2 by reflexivity. cbn [andb].
    destruct (decide ((t, a, b) = q)) as [<- | Hne].
    - rewrite bool_decide_eq_true_2 by reflexivity. rewrite Hc0. reflexivity.
    - rewrite bool_decide_eq_false_2 by assumption.
      destruct (cell3 _ q); reflexivity. }
  split.
  { intros g. rewrite F5. unfold group_step.
    rewrite (group_event_eq _ _ _ _ _ _ _ Hev).
    rewrite bool_decide_eq_false_2 by discriminate. cbn [andb].
    destruct (cell2 _ g); reflexivity. }
  split.
  { intros g. rewrite HcG. unfold group_step.
    rewrite (group_event_eq _ _ _ _ _ _ _ Hev). cbn [fst].
    rewrite bool_decide_eq_true_2 by reflexivity. cbn [andb].
    destruct (decide ((t, d) = g)) as [<- | Hne].
    - rewrite bool_decide_eq_true_2 by reflexivity. rewrite Hg0. reflexivity.
    - rewrite bool_decide_eq_false_2 by assumption.
      destruct (cell2 _ g); reflexivity. }
  split.
  { intros q. rewrite F7. rewrite cell3_insert3 by (rewrite Hcredit; eauto).
    unfold credit_step. rewrite !(tile_event_eq _ _ _ _ _ _ _ Hev).
    rewrite bool_decide_eq_false_2 by discriminate. cbn [andb].
    rewrite (bool_decide_eq_true_2 (CudaStatTag.END = CudaStatTag.END))
      by reflexivity. cbn [andb].
    destruct (decide ((t, a, b) = q)) as [<- | Hne].
    - rewrite bool_decide_eq_true_2 by reflexivity. rewrite Hcredit. reflexivity.
    - rewrite bool_decide_eq_false_2 by assumption.
      destruct (cell3 _ q); reflexivity. }
  split; [assumption |]. split; [assumption |]. split; [assumption |].
  rewrite F8, Hout. reflexivity.
Qed.

(** Every trace that [process_trace] accepts, and what it leaves. *)
Lemma process_trace_spec (self : VanillaStatsParser) (st st' : locals)
    (trace : gmap string Z) :
  shapes self st -> process_trace self st trace = Ok st' ->
  step_post self st trace st' /\ valid_trace self trace = true.
Proof.
  intros Hsh H. pose proof H as H0.
  unfold process_trace in H0.
  inv_bind H0. apply dict_get_inv in Hv. rename v into y.
  inv_bind H0. apply dict_get_inv in Hv0. rename v into x.
  inv_bind H0. apply dict_get_inv in Hv1. rename v into tag.
  inv_bind H0. rename v into cst.
  destruct (CudaStatTag.type cst) eqn:Hty.
  - rewrite isStart_eq, isEnd_eq, Hty in H0.
    rewrite !bool_decide_eq_false_2 in H0 by discriminate.
    injection H0 as <-. split.
    + eapply step_post_stat; eauto.
    + unfold valid_trace. rewrite Hv, Hv0, Hv1, Hv2, isStat_eq, Hty.
      reflexivity.
  - eapply step_post_start; eauto.
  - eapply step_post_end; eauto.
Qed.

Lemma warn_fold_done (self : VanillaStatsParser)
    (done : list (gmap string Z)) (acc : list (gmap string Z) * list line) :
  (foldl (warn_step self) acc done).1 = acc.1 ++ done.
Proof.
  revert acc. induction done as [| t done IH]; intros acc; cbn [foldl].
  - rewrite app_nil_r. reflexivity.
  - rewrite IH. unfold warn_step. cbn [fst]. rewrite <- app_assoc. reflexivity.
Qed.

Lemma warnings_snoc (self : VanillaStatsParser)
    (done : list (gmap string Z)) (trace : gmap string Z) :
  warnings self (done ++ [trace])
  = warnings self done ++ step_warning self done trace.
Proof.
  unfold warnings. rewrite foldl_app. cbn [foldl]. unfold warn_step at 1.
  cbn [snd]. rewrite warn_fold_done. reflexivity.
Qed.

Lemma initial_cell3 {A} (self : VanillaStatsParser) (a : A)
    (q : nat * nat * nat) :
  (q.1.1 < n_tags)%nat -> (q.1.2 < dim_y self)%nat -> (q.2 < dim_x self)%nat ->
  cell3 (new_tile_table self a) q = Some a.
Proof.
  intros H1 H2 H3. destruct q as [[t y] x]. cbn [fst snd] in *.
  rewrite new_tile_table_replicate.
  destruct (rect3_cell n_tags (dim_y self) (dim_x self) _ t y x
              (rect3_replicate _ _ _ a) H1 H2 H3) as [v Hv].
  rewrite Hv. f_equal. eapply cell3_replicate; eauto.
Qed.

Lemma initial_cell2 (g : nat * nat) :
  (g.1 < n_tags)%nat -> (g.2 < n_groups)%nat ->
  cell2 new_tile_group_table g = Some ∅.
Proof.
  intros H1 H2. destruct g as [t d]. cbn [fst snd] in *.
  rewrite new_tile_group_table_replicate.
  destruct (rect2_cell n_tags n_groups _ t d
              (rect2_replicate _ _ (∅ : Counter)) H1 H2) as [v Hv].
  rewrite Hv. f_equal. eapply cell2_replicate; eauto.
Qed.

(** The position of an event is a tile of the grid. *)
Lemma event_in_grid (self : VanillaStatsParser) (trace : gmap string Z)
    k q g :
  event self trace = Some (k, q, g) ->
  (q.1.1 < n_tags)%nat /\ (q.1.2 < dim_y self)%nat /\ (q.2 < dim_x self)%nat
  /\ (g < n_groups)%nat.
Proof.
  unfold event.
  destruct (trace !! "y") as [y |]; [| discriminate].
  destruct (trace !! "x") as [x |]; [| discriminate].
  destruct (trace !! "tag") as [tag |]; [| discriminate].
  destruct (CudaStatTag.init tag) as [cst |]; [| discriminate].
  destruct (index (dim_y self) _) as [a |] eqn:Ha; [| discriminate].
  destruct (index (dim_x self) _) as [b |] eqn:Hb; [| discriminate].
  intros H. injection H as <- <- <-. cbn [fst snd].
  pose proof (index_lt _ _ _ (index_tag cst)).
  pose proof (index_lt _ _ _ (index_tg_id cst)).
  pose proof (index_lt _ _ _ Ha). pose proof (index_lt _ _ _ Hb).
  tauto.
Qed.

Lemma snapshot_snoc (self : VanillaStatsParser) kind q done trace c :
  snapshot self kind q (done ++ [trace]) c
  = tile_step self kind trace q (snapshot self kind q done c).
Proof. unfold snapshot. rewrite foldl_app. reflexivity. Qed.

Lemma accumulated_snoc (self : VanillaStatsParser) kind g done trace c :
  accumulated self kind g (done ++ [trace]) c
  = group_step self kind trace g (accumulated self kind g done c).
Proof. unfold accumulated. rewrite foldl_app. reflexivity. Qed.

Lemma credits_snoc (self : VanillaStatsParser) q done trace z :
  credits self q (done ++ [trace]) z
  = credit_step self trace q (credits self q done z).
Proof. unfold credits. rewrite foldl_app. reflexivity. Qed.

(** The state that the loop over the traces leaves. *)
Definition read_post (self : VanillaStatsParser)
    (traces : list (gmap string Z)) (st : locals) : Prop :=
  shapes self st
  /\ (forall q, cell3 (tile_stat_start st) q
                = snapshot self CudaStatTag.START q traces
                    <$> cell3 (new_tile_table self ∅) q)
  /\ (forall q, cell3 (tile_stat_end st) q
                = snapshot self CudaStatTag.END q traces
                    <$> cell3 (new_tile_table self ∅) q)
  /\ (forall g, cell2 (tile_group_stat_start st) g
                = accumulated self CudaStatTag.START g traces
                    <$> cell2 new_tile_group_table g)
  /\ (forall g, cell2 (tile_group_stat_end st) g
                = accumulated self CudaStatTag.END g traces
                    <$> cell2 new_tile_group_table g)
  /\ (forall q, cell3 (tag_credits st) q
                = credits self q traces <$> cell3 (new_tile_table self 0) q)
  /\ num_tags st = 0
  /\ tile_stat st = new_tile_table self ∅
  /\ tile_group_stat st = new_tile_group_table
  /\ stdout st = warnings self traces
  /\ forallb (valid_trace self) traces = true.

Lemma read_traces_spec (self : VanillaStatsParser)
    (traces : list (gmap string Z)) (st : locals) :
  read_traces self traces = Ok st -> read_post self traces st.
Proof.
  unfold read_traces. intros H.
  apply (for_each_invariant_Ok (read_post self) _ _ _ _ H).
  - unfold read_post, initial_locals. simpl_locals.
    split; [apply initial_shapes |].
    repeat split; try reflexivity; intros q;
      match goal with |- _ = _ <$> ?o => destruct o; reflexivity end.
  - clear H st. intros done trace todo s1 s2 _ HP Hstep.
    destruct HP as (Hsh & P1 & P2 & P3 & P4 & P5 & P6 & P7 & P8 & P9 & P10).
    destruct (process_trace_spec self s1 s2 trace Hsh Hstep)
      as ((Q0 & Q1 & Q2 & Q3 & Q4 & Q5 & Q6 & Q7 & Q8 & Q9) & Hvalid).
    unfold read_post. split; [assumption |].
    split. { intros q. rewrite Q1, P1. destruct (cell3 _ q); cbn [fmap option_fmap option_map];
             rewrite ?snapshot_snoc; reflexivity. }
    split. { intros q. rewrite Q2, P2. destruct (cell3 _ q); cbn [fmap option_fmap option_map];
             rewrite ?snapshot_snoc; reflexivity. }
    split. { intros q. rewrite Q3, P3. destruct (cell2 _ q); cbn [fmap option_fmap option_map];
             rewrite ?accumulated_snoc; reflexivity. }
    split. { intros q. rewrite Q4, P4. destruct (cell2 _ q); cbn [fmap option_fmap option_map];
             rewrite ?accumulated_snoc; reflexivity. }
    split. { intros q. rewrite Q5, P5. destruct (cell3 _ q); cbn [fmap option_fmap option_map];
             rewrite ?credits_snoc; reflexivity. }
    split; [congruence |]. split; [congruence |]. split; [congruence |].
    split.
    + rewrite Q9, P9, warnings_snoc. f_equal.
      unfold step_output, step_warning.
      destruct (event self trace) as [[[k q] g] |] eqn:Hev; [| reflexivity].
      destruct (bool_decide (k = CudaStatTag.END)); [| reflexivity].
      rewrite P5.
      destruct (event_in_grid self trace k q g Hev) as (E1 & E2 & E3 & _).
      rewrite initial_cell3 by assumption. reflexivity.
    + rewrite forallb_app, P10. cbn [forallb]. rewrite Hvalid. reflexivity.
Qed.

(** ** The loops that close the method *)

Lemma NoDup_range_from (start : Z) (count : nat) :
  NoDup (range_from start count).
Proof.
  revert start. induction count as [| n IH]; intros start; cbn [range_from].
  - constructor.
  - constructor; [| apply IH]. rewrite elem_of_range_from. lia.
Qed.

Lemma NoDup_range (n : Z) : NoDup (range n).
Proof. apply NoDup_range_from. Qed.

Lemma NoDup_triples (la lb lc : list Z) :
  NoDup la -> NoDup lb -> NoDup lc -> NoDup (triples la lb lc).
Proof.
  intros Ha Hb Hc. unfold triples. apply NoDup_bind; [| | assumption].
  - intros a1 a2 t _ _ H1 H2.
    apply list_elem_of_bind in H1. destruct H1 as (b1 & H1 & _).
    apply list_elem_of_bind in H1. destruct H1 as (c1 & H1 & _).
    apply list_elem_of_bind in H2. destruct H2 as (b2 & H2 & _).
    apply list_elem_of_bind in H2. destruct H2 as (c2 & H2 & _).
    apply list_elem_of_singleton in H1, H2. congruence.
  - intros a _. apply NoDup_bind; [| | assumption].
    + intros b1 b2 t _ _ H1 H2.
      apply list_elem_of_bind in H1. destruct H1 as (c1 & H1 & _).
      apply list_elem_of_bind in H2. destruct H2 as (c2 & H2 & _).
      apply list_elem_of_singleton in H1, H2. congruence.
    + intros b _. apply NoDup_bind; [| | assumption].
      * intros c1 c2 t _ _ H1 H2.
        apply list_elem_of_singleton in H1, H2. congruence.
      * intros c _. apply NoDup_singleton.
Qed.

(** The position that a triple of indices of a loop denotes. *)
Definition pos3 (t : Z * Z * Z) : nat * nat * nat :=
  (Z.to_nat t.1.1, Z.to_nat t.1.2, Z.to_nat t.2).

Lemma NoDup_positions (n m p : Z) :
  NoDup (pos3 <$> triples (range n) (range m) (range p)).
Proof.
  apply NoDup_fmap_2_strong; [| apply NoDup_triples; apply NoDup_range].
  intros [[a b] c] [[a' b'] c'] H1 H2 Heq.
  apply elem_of_triples in H1, H2. rewrite !elem_of_range in H1, H2.
  unfold pos3 in Heq. cbn [fst snd] in Heq. injection Heq as E1 E2 E3.
  f_equal; [f_equal |]; lia.
Qed.

Lemma elem_of_positions (n m p : Z) (q : nat * nat * nat) :
  q ∈ pos3 <$> triples (range n) (range m) (range p)
  <-> (q.1.1 < Z.to_nat n)%nat /\ (q.1.2 < Z.to_nat m)%nat
      /\ (q.2 < Z.to_nat p)%nat.
Proof.
  rewrite list_elem_of_fmap. split.
  - intros ([[a b] c] & -> & Hin). apply elem_of_triples in Hin.
    rewrite !elem_of_range in Hin. unfold pos3. cbn [fst snd]. lia.
  - intros (H1 & H2 & H3). destruct q as [[a b] c]. cbn [fst snd] in *.
    exists (Z.of_nat a, Z.of_nat b, Z.of_nat c). split.
    + unfold pos3. cbn [fst snd]. rewrite !Nat2Z.id. reflexivity.
    + apply elem_of_triples. rewrite !elem_of_range. lia.
Qed.

Lemma index_range (len : nat) (i : Z) :
  0 <= i < Z.of_nat len -> index len i = Ok (Z.to_nat i).
Proof.
  intros H. rewrite <- (Z2Nat.id i) at 1 by lia. apply index_of_nat. lia.
Qed.

Lemma index_nonneg_inv (len : nat) (i : Z) (n : nat) :
  0 <= i -> index len i = Ok n -> n = Z.to_nat i /\ i < Z.of_nat len.
Proof.
  intros Hi H. unfold index in H.
  destruct ((0 <=? i) && (i <? Z.of_nat len)) eqn:E.
  - injection H as <-. apply andb_true_iff in E. destruct E as [_ E].
    apply Z.ltb_lt in E. auto.
  - destruct ((- Z.of_nat len <=? i) && (i <? 0)) eqn:E2; [| discriminate].
    apply andb_true_iff in E2. destruct E2 as [_ E2]. apply Z.ltb_lt in E2. lia.
Qed.

(** Three nested loops over the whole of a table, whose body changes the
    cell of its indices by [f] and keeps a side condition [I]: every
    cell is changed once. *)
Lemma tile_loop {A S} (tbl : S -> list (list (list A))) (I : S -> Prop)
    (f : nat * nat * nat -> A -> A) (body : S -> Z -> Z -> Z -> result S)
    (n m p : Z) (s0 s' : S) :
  (forall s1 s2 i j k,
     I s1 -> rect3 (Z.to_nat n) (Z.to_nat m) (Z.to_nat p) (tbl s1) ->
     0 <= i < n -> 0 <= j < m -> 0 <= k < p ->
     body s1 i j k = Ok s2 ->
     I s2 /\ rect3 (Z.to_nat n) (Z.to_nat m) (Z.to_nat p) (tbl s2)
     /\ forall q, cell3 (tbl s2) q
                  = if decide (pos3 (i, j, k) = q)
                    then f q <$> cell3 (tbl s1) q else cell3 (tbl s1) q) ->
  I s0 -> rect3 (Z.to_nat n) (Z.to_nat m) (Z.to_nat p) (tbl s0) ->
  for_each3 body (range n) (range m) (range p) s0 = Ok s' ->
  I s' /\ rect3 (Z.to_nat n) (Z.to_nat m) (Z.to_nat p) (tbl s')
  /\ forall q, (q.1.1 < Z.to_nat n)%nat -> (q.1.2 < Z.to_nat m)%nat ->
               (q.2 < Z.to_nat p)%nat ->
               cell3 (tbl s') q = f q <$> cell3 (tbl s0) q.
Proof.
  intros Hbody HI Hrect Hrun. rewrite for_each3_triples in Hrun.
  set (l := triples (range n) (range m) (range p)) in *.
  pose (P := fun (done : list (Z * Z * Z)) (s : S) =>
    I s /\ rect3 (Z.to_nat n) (Z.to_nat m) (Z.to_nat p) (tbl s)
    /\ forall q, cell3 (tbl s) q
                 = if decide (q ∈ pos3 <$> done)
                   then f q <$> cell3 (tbl s0) q else cell3 (tbl s0) q).
  assert (HP : P l s').
  { apply (for_each_invariant_Ok P _ _ _ _ Hrun).
    - split; [assumption |]. split; [assumption |]. intros q.
      rewrite decide_False; [reflexivity |]. cbn. apply not_elem_of_nil.
    - intros done [[i j] k] todo s1 s2 Hl (HI1 & Hr1 & Hc1) Hb.
      cbn [fst snd] in Hb.
      assert (Hin : (i, j, k) ∈ l).
      { rewrite Hl. apply elem_of_app. right. apply elem_of_cons. auto. }
      unfold l in Hin. apply elem_of_triples in Hin.
      rewrite !elem_of_range in Hin. destruct Hin as (Hi & Hj & Hk).
      destruct (Hbody s1 s2 i j k HI1 Hr1 Hi Hj Hk Hb) as (HI2 & Hr2 & Hc2).
      split; [assumption |]. split; [assumption |].
      assert (Hfresh : pos3 (i, j, k) ∉ pos3 <$> done).
      { pose proof (NoDup_positions n m p) as Hnd. fold l in Hnd.
        rewrite Hl, fmap_app in Hnd. apply NoDup_app in Hnd.
        destruct Hnd as (_ & Hnd & _). intros Hin. apply (Hnd _ Hin).
        rewrite fmap_cons. apply elem_of_cons. auto. }
      intros q. rewrite Hc2, Hc1, fmap_app. cbn [fmap list_fmap].
      destruct (decide (pos3 (i, j, k) = q)) as [<- | Hne].
      + rewrite decide_False by assumption.
        rewrite decide_True; [reflexivity |].
        apply elem_of_app. right. apply list_elem_of_singleton. reflexivity.
      + destruct (decide (q ∈ pos3 <$> done)) as [Hd | Hd].
        * rewrite decide_True; [reflexivity |]. apply elem_of_app. auto.
        * rewrite decide_False; [reflexivity |].
          rewrite elem_of_app, list_elem_of_singleton. intros [? | ?]; auto. }
  destruct HP as (HI' & Hr' & Hc'). split; [assumption |].
  split; [assumption |]. intros q H1 H2 H3. rewrite Hc'.
  rewrite decide_True; [reflexivity |]. apply elem_of_positions. auto.
Qed.

Lemma index_range_Z (n i : Z) :
  0 <= i < n -> index (Z.to_nat n) i = Ok (Z.to_nat i).
Proof. intros H. apply index_range. lia. Qed.

(** The locals that the closing loops only read. *)
Definition pending_eq (s0 s : locals) : Prop :=
  num_tags s = num_tags s0
  /\ num_tile_groups s = num_tile_groups s0
  /\ tile_stat_start s = tile_stat_start s0
  /\ tile_stat_end s = tile_stat_end s0
  /\ tile_group_stat_start s = tile_group_stat_start s0
  /\ tile_group_stat_end s = tile_group_stat_end s0
  /\ tag_credits s = tag_credits s0
  /\ exists out, stdout s = stdout s0 ++ out.

Lemma pending_eq_refl (s : locals) : pending_eq s s.
Proof.
  unfold pending_eq. repeat split; try reflexivity.
  exists []. rewrite app_nil_r. reflexivity.
Qed.

Lemma pending_eq_trans (s0 s1 s2 : locals) :
  pending_eq s0 s1 -> pending_eq s1 s2 -> pending_eq s0 s2.
Proof.
  intros (A1 & A2 & A3 & A4 & A5 & A6 & A7 & o1 & A8)
         (B1 & B2 & B3 & B4 & B5 & B6 & B7 & o2 & B8).
  unfold pending_eq. repeat split; try congruence.
  exists (o1 ++ o2). rewrite B8, A8, app_assoc. reflexivity.
Qed.

Lemma pending_eq_shapes (self : VanillaStatsParser) (s0 s : locals) :
  shapes self s0 -> pending_eq s0 s ->
  rect3 n_tags (dim_y self) (dim_x self) (tile_stat s) ->
  rect2 n_tags n_groups (tile_group_stat s) ->
  shapes self s.
Proof.
  intros Hsh (A1 & A2 & A3 & A4 & A5 & A6 & A7 & _) H1 H2. destruct Hsh.
  split; rewrite ?A2, ?A3, ?A4, ?A5, ?A6, ?A7; assumption.
Qed.

(** The snapshot of a tile, the empty Counter outside the table. *)
Definition read3 (t : list (list (list Counter))) (q : nat * nat * nat)
  : Counter :=
  default ∅ (cell3 t q).

Definition read2 (t : list (list Counter)) (g : nat * nat) : Counter :=
  default ∅ (cell2 t g).

Lemma subtract_tile_spec (self : VanillaStatsParser) (s1 s2 : locals)
    (i j k : Z) :
  shapes self s1 ->
  0 <= i < max_tags -> 0 <= j < manycore_dim_y self ->
  0 <= k < manycore_dim_x self ->
  subtract_tile s1 i j k = Ok s2 ->
  pending_eq s1 s2
  /\ tile_group_stat s2 = tile_group_stat s1
  /\ rect3 n_tags (dim_y self) (dim_x self) (tile_stat s2)
  /\ forall q, cell3 (tile_stat s2) q
               = if decide (pos3 (i, j, k) = q)
                 then (fun _ => counter_sub (read3 (tile_stat_end s1) q)
                                            (read3 (tile_stat_start s1) q))
                        <$> cell3 (tile_stat s1) q
                 else cell3 (tile_stat s1) q.
Proof.
  intros Hsh Hi Hj Hk H.
  pose proof (index_range_Z max_tags i Hi) as Ii. fold n_tags in Ii.
  pose proof (index_range_Z _ j Hj) as Ij. fold (dim_y self) in Ij.
  pose proof (index_range_Z _ k Hk) as Ik. fold (dim_x self) in Ik.
  set (a := Z.to_nat i) in *. set (b := Z.to_nat j) in *.
  set (c := Z.to_nat k) in *.
  assert (Hq : pos3 (i, j, k) = (a, b, c)) by reflexivity. rewrite Hq.
  destruct (rect3_cell _ _ _ (tag_credits s1) a b c (sh_credits _ _ Hsh))
    as [credit Hcredit]; eauto using index_lt.
  destruct (rect3_cell _ _ _ (tile_stat_end s1) a b c (sh_end _ _ Hsh))
    as [e He]; eauto using index_lt.
  destruct (rect3_cell _ _ _ (tile_stat_start s1) a b c (sh_start _ _ Hsh))
    as [s Hs]; eauto using index_lt.
  destruct (rect3_cell _ _ _ (tile_stat s1) a b c (sh_stat _ _ Hsh))
    as [t Ht]; eauto using index_lt.
  unfold subtract_tile in H.
  rewrite (get3_rect _ _ _ _ _ _ _ a b c credit (sh_credits _ _ Hsh))
    in H by assumption.
  cbn [bind] in H.
  set (s1' := if 0 <? credit then print s1 (missing_end credit i k j) else s1).
  assert (Hmid : (if 0 <? credit
                  then Ok (print s1 (missing_end credit i k j))
                  else Ok s1) = Ok s1').
  { unfold s1'. destruct (0 <? credit); reflexivity. }
  rewrite Hmid in H. cbn [bind] in H.
  assert (Hp : pending_eq s1 s1' /\ tile_stat s1' = tile_stat s1
               /\ tile_group_stat s1' = tile_group_stat s1).
  { unfold s1'. destruct (0 <? credit).
    - split; [| split; reflexivity]. unfold pending_eq. simpl_locals.
      repeat split; try reflexivity. eexists. reflexivity.
    - split; [apply pending_eq_refl | split; reflexivity]. }
  clearbody s1'. clear Hmid.
  destruct Hp as (Hp & Hts & Htg).
  pose proof Hp as (A1 & A2 & A3 & A4 & A5 & A6 & A7 & A8).
  rewrite A4, A3, Hts in H.
  rewrite (get3_rect _ _ _ _ _ _ _ a b c e (sh_end _ _ Hsh)) in H by assumption.
  cbn [bind] in H.
  rewrite (get3_rect _ _ _ _ _ _ _ a b c s (sh_start _ _ Hsh)) in H by assumption.
  cbn [bind] in H.
  rewrite (set3_rect _ _ _ _ _ _ _ a b c _ (sh_stat _ _ Hsh)) in H by assumption.
  cbn [bind] in H. injection H as <-. simpl_locals.
  split.
  { destruct s1'. unfold pending_eq in *. simpl_locals. assumption. }
  split; [assumption |].
  split; [apply rect3_insert3; apply (sh_stat _ _ Hsh) |].
  intros q. rewrite cell3_insert3 by (rewrite Ht; eauto).
  destruct (decide ((a, b, c) = q)) as [<- | Hne]; [| reflexivity].
  unfold read3. rewrite He, Hs, Ht. reflexivity.
Qed.

Lemma subtract_tiles_spec (self : VanillaStatsParser) (s0 s' : locals) :
  shapes self s0 -> subtract_tiles self s0 = Ok s' ->
  shapes self s' /\ pending_eq s0 s'
  /\ tile_group_stat s' = tile_group_stat s0
  /\ forall q, (q.1.1 < n_tags)%nat -> (q.1.2 < dim_y self)%nat ->
               (q.2 < dim_x self)%nat ->
               cell3 (tile_stat s') q
               = Some (counter_sub (read3 (tile_stat_end s0) q)
                                   (read3 (tile_stat_start s0) q)).
Proof.
  intros Hsh H. unfold subtract_tiles in H.
  destruct (tile_loop tile_stat
              (fun s => shapes self s /\ pending_eq s0 s
                        /\ tile_group_stat s = tile_group_stat s0)
              (fun q _ => counter_sub (read3 (tile_stat_end s0) q)
                                      (read3 (tile_stat_start s0) q))
              subtract_tile max_tags (manycore_dim_y self)
              (manycore_dim_x self) s0 s')
    as ((Hsh' & Hp' & Hg') & _ & Hcells); trivial.
  - intros s1 s2 i j k (Hsh1 & Hp1 & Hg1) _ Hi Hj Hk Hb.
    destruct (subtract_tile_spec self s1 s2 i j k Hsh1 Hi Hj Hk Hb)
      as (Hp2 & Hg2 & Hr2 & Hc2).
    assert (Hp02 : pending_eq s0 s2) by (eapply pending_eq_trans; eauto).
    assert (Hsh2 : shapes self s2).
    { apply (pending_eq_shapes self s0); trivial.
      rewrite Hg2. apply (sh_group_stat _ _ Hsh1). }
    split; [split; [assumption | split; [assumption | congruence]] |].
    split; [exact Hr2 |].
    intros q. rewrite Hc2.
    destruct Hp1 as (_ & _ & E3 & E4 & _). rewrite E3, E4. reflexivity.
  - split; [assumption | split; [apply pending_eq_refl | reflexivity]].
  - apply (sh_stat _ _ Hsh).
  - split; [assumption |]. split; [assumption |]. split; [assumption |].
    intros q H1 H2 H3. rewrite (Hcells q H1 H2 H3).
    destruct (rect3_cell _ _ _ (tile_stat s0) q.1.1 q.1.2 q.2 (sh_stat _ _ Hsh))
      as [t Ht]; trivial.
    destruct q as [[a b] c]. cbn [fst snd] in Ht. rewrite Ht. reflexivity.
Qed.

(** The loop that adds the operations of a category into a total. *)
Lemma add_to_total3_loop (total : string) (i j k : Z) (n m p : nat)
    (a b c : nat) (ops : list string) :
  index n i = Ok a -> index m j = Ok b -> index p k = Ok c ->
  forall (T : list (list (list Counter))) (c0 : Counter),
    rect3 n m p T -> cell3 T (a, b, c) = Some c0 ->
    exists T',
      for_each (add_to_total3 total i j k) ops T = Ok T'
      /\ rect3 n m p T'
      /\ forall q, cell3 T' q
                   = if decide ((a, b, c) = q)
                     then Some (add_total total ops c0) else cell3 T q.
Proof.
  intros Ha Hb Hc. induction ops as [| op ops IH]; intros T c0 HT Hc0.
  - exists T. cbn [for_each]. split; [reflexivity |]. split; [assumption |].
    intros q. destruct (decide ((a, b, c) = q)) as [<- |];
      [assumption | reflexivity].
  - cbn [for_each]. unfold add_to_total3 at 1.
    rewrite (get3_rect n m p T i j k a b c c0) by assumption. cbn [bind].
    rewrite (set3_rect n m p T i j k a b c) by assumption. cbn [bind].
    destruct (IH (insert3 (a, b, c)
                    (counter_iadd c0 total (counter_get c0 op)) T)
                 (counter_iadd c0 total (counter_get c0 op)))
      as (T' & Hrun & HT' & Hc').
    + apply rect3_insert3. assumption.
    + rewrite cell3_insert3 by (rewrite Hc0; eauto).
      rewrite decide_True by reflexivity. reflexivity.
    + exists T'. split; [exact Hrun |]. split; [assumption |].
      intros q. rewrite Hc'. destruct (decide ((a, b, c) = q)) as [Heq | Hne].
      * reflexivity.
      * rewrite cell3_insert3 by (rewrite Hc0; eauto).
        rewrite decide_False by assumption. reflexivity.
Qed.

Lemma total_tile_spec (self : VanillaStatsParser)
    (T1 T2 : list (list (list Counter))) (i j k : Z) :
  rect3 n_tags (dim_y self) (dim_x self) T1 ->
  0 <= i < max_tags -> 0 <= j < manycore_dim_y self ->
  0 <= k < manycore_dim_x self ->
  total_tile self T1 i j k = Ok T2 ->
  rect3 n_tags (dim_y self) (dim_x self) T2
  /\ forall q, cell3 T2 q
               = if decide (pos3 (i, j, k) = q)
                 then add_totals self <$> cell3 T1 q else cell3 T1 q.
Proof.
  intros HT Hi Hj Hk H.
  pose proof (index_range_Z max_tags i Hi) as Ii. fold n_tags in Ii.
  pose proof (index_range_Z _ j Hj) as Ij. fold (dim_y self) in Ij.
  pose proof (index_range_Z _ k Hk) as Ik. fold (dim_x self) in Ik.
  set (a := Z.to_nat i) in *. set (b := Z.to_nat j) in *.
  set (c := Z.to_nat k) in *.
  assert (Hq : pos3 (i, j, k) = (a, b, c)) by reflexivity. rewrite Hq.
  destruct (rect3_cell _ _ _ T1 a b c HT) as [c0 Hc0]; eauto using index_lt.
  unfold total_tile in H.
  destruct (add_to_total3_loop "instr_total" i j k _ _ _ a b c (instrs self)
              Ii Ij Ik T1 c0 HT Hc0) as (Ta & Ra & HTa & Hca).
  rewrite Ra in H. cbn [bind] in H.
  destruct (add_to_total3_loop "stall_total" i j k _ _ _ a b c (stalls self)
              Ii Ij Ik Ta (add_total "instr_total" (instrs self) c0) HTa)
    as (Tb & Rb & HTb & Hcb).
  { rewrite Hca, decide_True by reflexivity. reflexivity. }
  rewrite Rb in H. cbn [bind] in H.
  destruct (add_to_total3_loop "miss_total" i j k _ _ _ a b c (misses self)
              Ii Ij Ik Tb
              (add_total "stall_total" (stalls self)
                 (add_total "instr_total" (instrs self) c0)) HTb)
    as (Tc & Rc & HTc & Hcc).
  { rewrite Hcb, decide_True by reflexivity. reflexivity. }
  rewrite Rc in H. injection H as <-.
  split; [assumption |]. intros q. rewrite Hcc.
  destruct (decide ((a, b, c) = q)) as [<- | Hne].
  - rewrite Hc0. reflexivity.
  - rewrite Hcb, decide_False by assumption.
    rewrite Hca, decide_False by assumption. reflexivity.
Qed.

Lemma total_tiles_spec (self : VanillaStatsParser) (s0 s' : locals) :
  shapes self s0 -> total_tiles self s0 = Ok s' ->
  shapes self s' /\ pending_eq s0 s'
  /\ tile_group_stat s' = tile_group_stat s0
  /\ forall q, (q.1.1 < n_tags)%nat -> (q.1.2 < dim_y self)%nat ->
               (q.2 < dim_x self)%nat ->
               cell3 (tile_stat s') q
               = add_totals self <$> cell3 (tile_stat s0) q.
Proof.
  intros Hsh H. unfold total_tiles in H. inv_bind H. injection H as <-.
  destruct (tile_loop (fun T => T) (fun _ => True)
              (fun _ => add_totals self) (total_tile self)
              max_tags (manycore_dim_y self) (manycore_dim_x self)
              (tile_stat s0) v)
    as (_ & Hr & Hcells); trivial.
  - intros T1 T2 i j k _ HT Hi Hj Hk Hb.
    destruct (total_tile_spec self T1 T2 i j k HT Hi Hj Hk Hb) as (HT2 & Hc2).
    split; [exact I | split; assumption].
  - apply (sh_stat _ _ Hsh).
  - simpl_locals.
    assert (Hp : pending_eq s0 (with_tile_stat s0 v)).
    { unfold pending_eq. simpl_locals. repeat split; try reflexivity.
      exists []. rewrite app_nil_r. reflexivity. }
    split.
    { apply (pending_eq_shapes self s0); trivial. apply (sh_group_stat _ _ Hsh). }
    split; [assumption |]. split; [reflexivity |]. exact Hcells.
Qed.

(** Has the loop over the tile groups reached this group?  It runs over
    [range(num_tile_groups[tag])]. *)
Definition group_done (ntg : list Z) (g : nat * nat) : bool :=
  match ntg !! g.1 with
  | Some n => Z.of_nat g.2 <? n
  | None => false
  end.

Section GroupLoop.
Context {A S : Type}.
Variable tbl : S -> list (list A).
Variable I : S -> Prop.
Variable f : nat * nat -> A -> A.
Variable body : Z -> S -> Z -> result S.
Hypothesis body_spec :
  forall s1 s2 tag tg,
    I s1 -> rect2 n_tags n_groups (tbl s1) -> 0 <= tag < max_tags -> 0 <= tg ->
    body tag s1 tg = Ok s2 ->
    I s2 /\ rect2 n_tags n_groups (tbl s2)
    /\ forall g, cell2 (tbl s2) g
                 = if decide ((Z.to_nat tag, Z.to_nat tg) = g)
                   then f g <$> cell2 (tbl s1) g else cell2 (tbl s1) g.

Lemma group_loop_inner (tag n : Z) (s1 s2 : S) :
  0 <= tag < max_tags ->
  I s1 -> rect2 n_tags n_groups (tbl s1) ->
  for_each (body tag) (range n) s1 = Ok s2 ->
  I s2 /\ rect2 n_tags n_groups (tbl s2)
  /\ forall g, cell2 (tbl s2) g
               = if bool_decide (g.1 = Z.to_nat tag) && (Z.of_nat g.2 <? n)
                 then f g <$> cell2 (tbl s1) g else cell2 (tbl s1) g.
Proof.
  intros Htag HI Hr Hrun.
  pose (at_tag := fun tg : Z => (Z.to_nat tag, Z.to_nat tg)).
  pose (P := fun (done : list Z) (s : S) =>
    I s /\ rect2 n_tags n_groups (tbl s)
    /\ forall g, cell2 (tbl s) g
                 = if decide (g ∈ at_tag <$> done)
                   then f g <$> cell2 (tbl s1) g else cell2 (tbl s1) g).
  assert (HP : P (range n) s2).
  { apply (for_each_invariant_Ok P _ _ _ _ Hrun).
    - split; [assumption |]. split; [assumption |]. intros g.
      rewrite decide_False; [reflexivity |]. cbn. apply not_elem_of_nil.
    - intros done tg todo sa sb Hl (HIa & Hra & Hca) Hb.
      assert (Hin : tg ∈ range n).
      { rewrite Hl. apply elem_of_app. right. apply elem_of_cons. auto. }
      apply elem_of_range in Hin.
      destruct (body_spec sa sb tag tg HIa Hra Htag (proj1 Hin) Hb)
        as (HIb & Hrb & Hcb).
      split; [assumption |]. split; [assumption |].
      assert (Hfresh : at_tag tg ∉ at_tag <$> done).
      { intros Hd. apply list_elem_of_fmap in Hd.
        destruct Hd as (tg' & Heq & Hd).
        pose proof (NoDup_range n) as Hnd. rewrite Hl in Hnd.
        apply NoDup_app in Hnd. destruct Hnd as (_ & Hnd & _).
        assert (Hin' : tg' ∈ range n).
        { rewrite Hl. apply elem_of_app. auto. }
        apply elem_of_range in Hin'.
        unfold at_tag in Heq. injection Heq as Heq.
        assert (tg' = tg) by lia. subst tg'.
        apply (Hnd tg Hd). apply elem_of_cons. auto. }
      intros g. rewrite Hcb, Hca, fmap_app. cbn [fmap list_fmap].
      fold (at_tag tg).
      destruct (decide (at_tag tg = g)) as [<- | Hne].
      + rewrite decide_False by assumption.
        rewrite decide_True; [reflexivity |].
        apply elem_of_app. right. apply list_elem_of_singleton. reflexivity.
      + destruct (decide (g ∈ at_tag <$> done)) as [Hd | Hd].
        * rewrite decide_True; [reflexivity |]. apply elem_of_app. auto.
        * rewrite decide_False; [reflexivity |].
          rewrite elem_of_app, list_elem_of_singleton. intros [? | ?]; auto. }
  destruct HP as (HI2 & Hr2 & Hc2). split; [assumption |].
  split; [assumption |]. intros g. rewrite Hc2.
  destruct (decide (g ∈ at_tag <$> range n)) as [Hd | Hd].
  - apply list_elem_of_fmap in Hd. destruct Hd as (tg & -> & Hin).
    apply elem_of_range in Hin. unfold at_tag. cbn [fst snd].
    rewrite bool_decide_eq_true_2 by reflexivity.
    replace (Z.of_nat (Z.to_nat tg) <? n) with true; [reflexivity |].
    symmetry. apply Z.ltb_lt. lia.
  - destruct (bool_decide (g.1 = Z.to_nat tag) && (Z.of_nat g.2 <? n)) eqn:E;
      [| reflexivity].
    exfalso. apply Hd. apply andb_true_iff in E. destruct E as [E1 E2].
    apply bool_decide_eq_true_1 in E1. apply Z.ltb_lt in E2.
    apply list_elem_of_fmap. exists (Z.of_nat g.2). split.
    + unfold at_tag. rewrite Nat2Z.id, <- E1. destruct g; reflexivity.
    + apply elem_of_range. lia.
Qed.

Lemma group_loop (getn : S -> Z -> result Z) (ntg : list Z) (s0 s' : S) :
  length ntg = n_tags ->
  (forall s tag, I s -> getn s tag = getitem ntg tag) ->
  I s0 -> rect2 n_tags n_groups (tbl s0) ->
  for_each (fun s tag => try n <- getn s tag in
                         for_each (body tag) (range n) s)
           (range max_tags) s0 = Ok s' ->
  I s' /\ rect2 n_tags n_groups (tbl s')
  /\ forall g, cell2 (tbl s') g
               = if group_done ntg g
                 then f g <$> cell2 (tbl s0) g else cell2 (tbl s0) g.
Proof.
  intros Hlen Hgetn HI Hr Hrun.
  pose (P := fun (done : list Z) (s : S) =>
    I s /\ rect2 n_tags n_groups (tbl s)
    /\ forall g, cell2 (tbl s) g
                 = if bool_decide (Z.of_nat g.1 ∈ done) && group_done ntg g
                   then f g <$> cell2 (tbl s0) g else cell2 (tbl s0) g).
  assert (HP : P (range max_tags) s').
  { apply (for_each_invariant_Ok P _ _ _ _ Hrun).
    - split; [assumption |]. split; [assumption |]. intros g.
      rewrite bool_decide_eq_false_2 by apply not_elem_of_nil. reflexivity.
    - intros done tag todo sa sb Hl (HIa & Hra & Hca) Hb.
      assert (Hin : tag ∈ range max_tags).
      { rewrite Hl. apply elem_of_app. right. apply elem_of_cons. auto. }
      apply elem_of_range in Hin.
      rewrite (Hgetn sa tag HIa) in Hb. inv_bind Hb. rename v into n.
      apply getitem_inv in Hv. destruct Hv as (t & Ht & Hn).
      rewrite Hlen in Ht.
      pose proof (index_range_Z max_tags tag Hin) as Ht'. fold n_tags in Ht'.
      rewrite Ht' in Ht. injection Ht as <-.
      destruct (group_loop_inner tag n sa sb Hin HIa Hra Hb)
        as (HIb & Hrb & Hcb).
      split; [assumption |]. split; [assumption |].
      assert (Hfresh : tag ∉ done).
      { pose proof (NoDup_range max_tags) as Hnd. rewrite Hl in Hnd.
        apply NoDup_app in Hnd. destruct Hnd as (_ & Hnd & _).
        intros Hd. apply (Hnd tag Hd). apply elem_of_cons. auto. }
      intros g. rewrite Hcb, Hca.
      destruct (decide (g.1 = Z.to_nat tag)) as [Heq | Hne].
      + rewrite (bool_decide_eq_true_2 _ Heq). cbn [andb].
        assert (Hg : Z.of_nat g.1 = tag) by lia.
        rewrite (bool_decide_eq_false_2 (Z.of_nat g.1 ∈ done))
          by (rewrite Hg; assumption).
        rewrite bool_decide_eq_true_2
          by (rewrite Hg; apply elem_of_app; right;
              apply list_elem_of_singleton; reflexivity).
        cbn [andb]. unfold group_done. rewrite Heq, Hn. reflexivity.
      + rewrite (bool_decide_eq_false_2 _ Hne). cbn [andb].
        assert (Hiff : bool_decide (Z.of_nat g.1 ∈ done ++ [tag])
                       = bool_decide (Z.of_nat g.1 ∈ done)).
        { apply bool_decide_ext. rewrite elem_of_app, list_elem_of_singleton.
          split; [intros [? | ?]; [assumption | lia] | auto]. }
        rewrite Hiff. reflexivity. }
  destruct HP as (HI' & Hr' & Hc'). split; [assumption |].
  split; [assumption |]. intros g. rewrite Hc'.
  destruct (group_done ntg g) eqn:E; [| rewrite andb_false_r; reflexivity].
  rewrite bool_decide_eq_true_2; [reflexivity |].
  apply elem_of_range. unfold group_done in E.
  destruct (ntg !! g.1) as [n |] eqn:En; [| discriminate].
  apply lookup_lt_Some in En. rewrite Hlen in En.
  pose proof n_tags_eq. unfold max_tags. change (Z.shiftl 1 CudaStatTag._TAG_WIDTH) with 16. lia.
Qed.

End GroupLoop.

Lemma subtract_group_spec (self : VanillaStatsParser) (s1 s2 : locals)
    (tag tg : Z) :
  shapes self s1 -> 0 <= tag < max_tags -> 0 <= tg ->
  subtract_group tag s1 tg = Ok s2 ->
  pending_eq s1 s2 /\ tile_stat s2 = tile_stat s1 /\ stdout s2 = stdout s1
  /\ rect2 n_tags n_groups (tile_group_stat s2)
  /\ forall g, cell2 (tile_group_stat s2) g
               = if decide ((Z.to_nat tag, Z.to_nat tg) = g)
                 then (fun _ => counter_sub
                                  (read2 (tile_group_stat_end s1) g)
                                  (read2 (tile_group_stat_start s1) g))
                        <$> cell2 (tile_group_stat s1) g
                 else cell2 (tile_group_stat s1) g.
Proof.
  intros Hsh Htag Htg H. unfold subtract_group in H.
  inv_bind H. rename v into e.
  destruct (get2_inv _ _ _ _ _ _ (sh_group_end _ _ Hsh) Hv)
    as (a & d & Ha & Hd & He).
  pose proof (index_range_Z max_tags tag Htag) as Ha'. fold n_tags in Ha'.
  rewrite Ha' in Ha. injection Ha as <-.
  destruct (index_nonneg_inv _ _ _ Htg Hd) as [-> Hlt].
  set (a := Z.to_nat tag) in *. set (d := Z.to_nat tg) in *.
  pose proof (index_lt _ _ _ Ha') as La. pose proof (index_lt _ _ _ Hd) as Ld.
  destruct (rect2_cell _ _ (tile_group_stat_start s1) a d
              (sh_group_start _ _ Hsh) La Ld) as [s Hs].
  destruct (rect2_cell _ _ (tile_group_stat s1) a d
              (sh_group_stat _ _ Hsh) La Ld) as [t Ht].
  rewrite (get2_rect _ _ _ _ _ a d s (sh_group_start _ _ Hsh)) in H
    by assumption.
  cbn [bind] in H.
  rewrite (set2_rect _ _ _ _ _ a d _ (sh_group_stat _ _ Hsh)) in H
    by assumption.
  cbn [bind] in H. injection H as <-. simpl_locals.
  split.
  { unfold pending_eq. simpl_locals. repeat split; try reflexivity.
    exists []. rewrite app_nil_r. reflexivity. }
  split; [reflexivity |]. split; [reflexivity |].
  split; [apply rect2_insert2; apply (sh_group_stat _ _ Hsh) |].
  intros g. rewrite cell2_insert2 by (rewrite Ht; eauto).
  destruct (decide ((a, d) = g)) as [<- | Hne]; [| reflexivity].
  unfold read2. rewrite He, Hs, Ht. reflexivity.
Qed.

Lemma subtract_groups_spec (self : VanillaStatsParser) (s0 s' : locals) :
  shapes self s0 -> subtract_groups s0 = Ok s' ->
  shapes self s' /\ pending_eq s0 s' /\ tile_stat s' = tile_stat s0
  /\ stdout s' = stdout s0
  /\ forall g, cell2 (tile_group_stat s') g
               = if group_done (num_tile_groups s0) g
                 then (fun _ => counter_sub
                                  (read2 (tile_group_stat_end s0) g)
                                  (read2 (tile_group_stat_start s0) g))
                        <$> cell2 (tile_group_stat s0) g
                 else cell2 (tile_group_stat s0) g.
Proof.
  intros Hsh H. unfold subtract_groups in H.
  destruct (group_loop tile_group_stat
              (fun s => shapes self s /\ pending_eq s0 s
                        /\ tile_stat s = tile_stat s0
                        /\ stdout s = stdout s0)
              (fun g _ => counter_sub (read2 (tile_group_stat_end s0) g)
                                      (read2 (tile_group_stat_start s0) g))
              subtract_group) with
    (getn := fun s tag => getitem (num_tile_groups s) tag)
    (ntg := num_tile_groups s0) (s0 := s0) (s' := s')
    as ((Hsh' & Hp' & Ht' & Ho') & _ & Hcells); trivial.
  - intros s1 s2 tag tg (Hsh1 & Hp1 & Ht1 & Ho1) _ Htag Htg Hb.
    destruct (subtract_group_spec self s1 s2 tag tg Hsh1 Htag Htg Hb)
      as (Hp2 & Ht2 & Ho2 & Hr2 & Hc2).
    assert (Hp02 : pending_eq s0 s2) by (eapply pending_eq_trans; eauto).
    assert (Hsh2 : shapes self s2).
    { apply (pending_eq_shapes self s0); trivial.
      rewrite Ht2. apply (sh_stat _ _ Hsh1). }
    split; [split; [assumption | split; [assumption | split; congruence]] |].
    split; [exact Hr2 |].
    intros g. rewrite Hc2.
    destruct Hp1 as (_ & _ & _ & _ & E5 & E6 & _). rewrite E5, E6. reflexivity.
  - apply (sh_num_tile_groups _ _ Hsh).
  - intros s tag (_ & Hp & _). destruct Hp as (_ & -> & _). reflexivity.
  - split; [assumption |]. split; [apply pending_eq_refl |].
    split; reflexivity.
  - apply (sh_group_stat _ _ Hsh).
  - repeat (split; [assumption |]). exact Hcells.
Qed.

Lemma get2_column_error {A} (m p : nat) (t : list (list A)) (i j : Z) e :
  rect2 m p t -> index p j = Err e -> get2 t i j = Err e \/ exists e', get2 t i j = Err e'.
Proof.
  intros Ht Hj. unfold get2.
  destruct (getitem t i) as [row | e0] eqn:E; cbn [bind]; [| eauto].
  apply getitem_inv in E. destruct E as (a & _ & Hrow).
  unfold getitem. rewrite (rect2_row m p t a row Ht Hrow), Hj. cbn [bind]. auto.
Qed.

(** The loop that adds the operations of a category into the total of a
    tile group. *)
Lemma add_to_total2_loop (total : string) (i j : Z) (n m : nat)
    (a b : nat) (ops : list string) :
  index n i = Ok a -> index m j = Ok b ->
  forall (T : list (list Counter)) (c0 : Counter),
    rect2 n m T -> cell2 T (a, b) = Some c0 ->
    exists T',
      for_each (add_to_total2 total i j) ops T = Ok T'
      /\ rect2 n m T'
      /\ forall q, cell2 T' q
                   = if decide ((a, b) = q)
                     then Some (add_total total ops c0) else cell2 T q.
Proof.
  intros Ha Hb. induction ops as [| op ops IH]; intros T c0 HT Hc0.
  - exists T. cbn [for_each]. split; [reflexivity |]. split; [assumption |].
    intros q. destruct (decide ((a, b) = q)) as [<- |];
      [assumption | reflexivity].
  - cbn [for_each]. unfold add_to_total2 at 1.
    rewrite (get2_rect n m T i j a b c0) by assumption. cbn [bind].
    rewrite (set2_rect n m T i j a b) by assumption. cbn [bind].
    destruct (IH (insert2 (a, b)
                    (counter_iadd c0 total (counter_get c0 op)) T)
                 (counter_iadd c0 total (counter_get c0 op)))
      as (T' & Hrun & HT' & Hc').
    + apply rect2_insert2. assumption.
    + rewrite cell2_insert2 by (rewrite Hc0; eauto).
      rewrite decide_True by reflexivity. reflexivity.
    + exists T'. split; [exact Hrun |]. split; [assumption |].
      intros q. rewrite Hc'. destruct (decide ((a, b) = q)) as [Heq | Hne].
      * reflexivity.
      * rewrite cell2_insert2 by (rewrite Hc0; eauto).
        rewrite decide_False by assumption. reflexivity.
Qed.

(** Outside the table the loop can only be empty. *)
Lemma add_to_total2_loop_outside (total : string) (i j : Z) (n m : nat)
    (ops : list string) (T T' : list (list Counter)) e :
  rect2 n m T -> index m j = Err e ->
  for_each (add_to_total2 total i j) ops T = Ok T' -> T' = T.
Proof.
  intros HT Hj H. destruct ops as [| op ops]; cbn [for_each] in H.
  - congruence.
  - unfold add_to_total2 at 1 in H.
    destruct (get2_column_error n m T i j e HT Hj) as [E | [e' E]];
      rewrite E in H; discriminate.
Qed.

Lemma total_group_spec (self : VanillaStatsParser)
    (T1 T2 : list (list Counter)) (tag tg : Z) :
  rect2 n_tags n_groups T1 -> 0 <= tag < max_tags -> 0 <= tg ->
  total_group self tag T1 tg = Ok T2 ->
  rect2 n_tags n_groups T2
  /\ forall g, cell2 T2 g
               = if decide ((Z.to_nat tag, Z.to_nat tg) = g)
                 then add_totals self <$> cell2 T1 g else cell2 T1 g.
Proof.
  intros HT Htag Htg H.
  pose proof (index_range_Z max_tags tag Htag) as Ia. fold n_tags in Ia.
  set (a := Z.to_nat tag) in *. unfold total_group in H.
  destruct (index n_groups tg) as [d | e] eqn:Id.
  - destruct (index_nonneg_inv _ _ _ Htg Id) as [-> Hlt].
    set (d := Z.to_nat tg) in *.
    destruct (rect2_cell _ _ T1 a d HT (index_lt _ _ _ Ia) (index_lt _ _ _ Id))
      as [c0 Hc0].
    destruct (add_to_total2_loop "instr_total" tag tg _ _ a d (instrs self)
                Ia Id T1 c0 HT Hc0) as (Ta & Ra & HTa & Hca).
    rewrite Ra in H. cbn [bind] in H.
    destruct (add_to_total2_loop "stall_total" tag tg _ _ a d (stalls self)
                Ia Id Ta (add_total "instr_total" (instrs self) c0) HTa)
      as (Tb & Rb & HTb & Hcb).
    { rewrite Hca, decide_True by reflexivity. reflexivity. }
    rewrite Rb in H. cbn [bind] in H.
    destruct (add_to_total2_loop "miss_total" tag tg _ _ a d (misses self)
                Ia Id Tb
                (add_total "stall_total" (stalls self)
                   (add_total "instr_total" (instrs self) c0)) HTb)
      as (Tc & Rc & HTc & Hcc).
    { rewrite Hcb, decide_True by reflexivity. reflexivity. }
    rewrite Rc in H. injection H as <-.
    split; [assumption |]. intros q. rewrite Hcc.
    destruct (decide ((a, d) = q)) as [<- | Hne].
    + rewrite Hc0. reflexivity.
    + rewrite Hcb, decide_False by assumption.
      rewrite Hca, decide_False by assumption. reflexivity.
  - inv_bind H. rename v into Ta.
    apply (add_to_total2_loop_outside _ _ _ _ _ _ _ _ e HT Id) in Hv. subst Ta.
    inv_bind H. rename v into Tb.
    apply (add_to_total2_loop_outside _ _ _ _ _ _ _ _ e HT Id) in Hv. subst Tb.
    apply (add_to_total2_loop_outside _ _ _ _ _ _ _ _ e HT Id) in H. subst T2.
    split; [assumption |]. intros g.
    destruct (decide ((a, Z.to_nat tg) = g)) as [<- | Hne]; [| reflexivity].
    assert (Hnone : cell2 T1 (a, Z.to_nat tg) = None).
    { destruct (cell2 T1 (a, Z.to_nat tg)) as [c |] eqn:E; [| reflexivity].
      exfalso. destruct (cell2_lt _ _ _ _ _ _ HT E) as [_ Hlt].
      rewrite index_range in Id by lia. discriminate. }
    rewrite Hnone. reflexivity.
Qed.

Lemma total_groups_spec (self : VanillaStatsParser) (s0 s' : locals) :
  shapes self s0 -> total_groups self s0 = Ok s' ->
  shapes self s' /\ pending_eq s0 s' /\ tile_stat s' = tile_stat s0
  /\ stdout s' = stdout s0
  /\ forall g, cell2 (tile_group_stat s') g
               = if group_done (num_tile_groups s0) g
                 then add_totals self <$> cell2 (tile_group_stat s0) g
                 else cell2 (tile_group_stat s0) g.
Proof.
  intros Hsh H. unfold total_groups in H. inv_bind H. injection H as <-.
  destruct (group_loop (fun T : list (list Counter) => T) (fun _ => True)
              (fun _ => add_totals self) (total_group self)) with
    (getn := fun (_ : list (list Counter)) tag =>
               getitem (num_tile_groups s0) tag)
    (ntg := num_tile_groups s0) (s0 := tile_group_stat s0) (s' := v)
    as (_ & Hr & Hcells); trivial.
  - intros T1 T2 tag tg _ HT Htag Htg Hb.
    destruct (total_group_spec self T1 T2 tag tg HT Htag Htg Hb) as (HT2 & Hc2).
    split; [exact I | split; assumption].
  - apply (sh_num_tile_groups _ _ Hsh).
  - apply (sh_group_stat _ _ Hsh).
  - simpl_locals.
    assert (Hp : pending_eq s0 (with_tile_group_stat s0 v)).
    { unfold pending_eq. simpl_locals. repeat split; try reflexivity.
      exists []. rewrite app_nil_r. reflexivity. }
    split.
    { apply (pending_eq_shapes self s0); trivial. apply (sh_stat _ _ Hsh). }
    split; [assumption |]. split; [reflexivity |]. split; [reflexivity |].
    exact Hcells.
Qed.

(** ** What the method returns *)

(** The tables that [__generate_tile_stats] leaves, cell by cell. *)
Definition stats_post (self : VanillaStatsParser)
    (traces : list (gmap string Z)) (st : locals) : Prop :=
  shapes self st
  /\ forallb (valid_trace self) traces = true
  /\ num_tags st = 0
  /\ (forall q, (q.1.1 < n_tags)%nat -> (q.1.2 < dim_y self)%nat ->
                (q.2 < dim_x self)%nat ->
        cell3 (tile_stat_start st) q
        = Some (snapshot self CudaStatTag.START q traces ∅)
        /\ cell3 (tile_stat_end st) q
           = Some (snapshot self CudaStatTag.END q traces ∅)
        /\ cell3 (tag_credits st) q = Some (credits self q traces 0)
        /\ cell3 (tile_stat st) q
           = Some (add_totals self
                     (counter_sub (snapshot self CudaStatTag.END q traces ∅)
                                  (snapshot self CudaStatTag.START q traces ∅))))
  /\ (forall g, (g.1 < n_tags)%nat -> (g.2 < n_groups)%nat ->
        cell2 (tile_group_stat_start st) g
        = Some (accumulated self CudaStatTag.START g traces ∅)
        /\ cell2 (tile_group_stat_end st) g
           = Some (accumulated self CudaStatTag.END g traces ∅)
        /\ cell2 (tile_group_stat st) g
           = Some (if group_done (num_tile_groups st) g
                   then add_totals self
                          (counter_sub
                             (accumulated self CudaStatTag.END g traces ∅)
                             (accumulated self CudaStatTag.START g traces ∅))
                   else ∅))
  /\ exists out, stdout st = warnings self traces ++ out.

Lemma generate_tile_stats_spec (self self' : VanillaStatsParser)
    (traces : list (gmap string Z)) (st : locals) :
  __generate_tile_stats self traces = Ok (self', st) ->
  self' = with_totals self /\ stats_post self traces st.
Proof.
  intros H. unfold __generate_tile_stats in H.
  inv_bind H. rename v into st1, Hv into H1.
  inv_bind H. rename v into st2, Hv into H2.
  inv_bind H. rename v into st3, Hv into H3.
  inv_bind H. rename v into st4, Hv into H4.
  inv_bind H. rename v into st5, Hv into H5.
  injection H as <- <-. split; [reflexivity |].
  destruct (read_traces_spec self traces st1 H1)
    as (S1 & R1 & R2 & R3 & R4 & R5 & R6 & R7 & R8 & R9 & R10).
  destruct (subtract_tiles_spec self st1 st2 S1 H2) as (S2 & P2 & G2 & C2).
  destruct (subtract_groups_spec self st2 st3 S2 H3)
    as (S3 & P3 & T3 & O3 & C3).
  destruct (total_tiles_spec self st3 st4 S3 H4) as (S4 & P4 & G4 & C4).
  destruct (total_groups_spec self st4 st5 S4 H5)
    as (S5 & P5 & T5 & O5 & C5).
  pose proof (pending_eq_trans _ _ _ P2 P3) as P13.
  pose proof (pending_eq_trans _ _ _ P13 P4) as P14.
  pose proof (pending_eq_trans _ _ _ P14 P5) as P15.
  destruct P15 as (E1 & E2 & E3 & E4 & E5 & E6 & E7 & out & E8).
  split; [assumption |]. split; [assumption |].
  split; [congruence |].
  split.
  { intros q Q1 Q2 Q3.
    assert (Hs : cell3 (tile_stat_start st1) q
                 = Some (snapshot self CudaStatTag.START q traces ∅)).
    { rewrite R1, initial_cell3 by assumption. reflexivity. }
    assert (He : cell3 (tile_stat_end st1) q
                 = Some (snapshot self CudaStatTag.END q traces ∅)).
    { rewrite R2, initial_cell3 by assumption. reflexivity. }
    rewrite E3, E4, E7. split; [assumption |]. split; [assumption |].
    split. { rewrite R5, initial_cell3 by assumption. reflexivity. }
    rewrite T5, (C4 q Q1 Q2 Q3), T3, (C2 q Q1 Q2 Q3).
    unfold read3. rewrite Hs, He. reflexivity. }
  split.
  { intros g Q1 Q2.
    assert (Hs : cell2 (tile_group_stat_start st1) g
                 = Some (accumulated self CudaStatTag.START g traces ∅)).
    { rewrite R3, initial_cell2 by assumption. reflexivity. }
    assert (He : cell2 (tile_group_stat_end st1) g
                 = Some (accumulated self CudaStatTag.END g traces ∅)).
    { rewrite R4, initial_cell2 by assumption. reflexivity. }
    rewrite E5, E6. split; [assumption |]. split; [assumption |].
    assert (N4 : num_tile_groups st4 = num_tile_groups st5).
    { destruct P5 as (_ & -> & _). reflexivity. }
    assert (N2 : num_tile_groups st2 = num_tile_groups st5).
    { rewrite <- N4. destruct P4 as (_ & -> & _).
      destruct P3 as (_ & -> & _). reflexivity. }
    rewrite C5, G4, C3, G2, R8, N4, N2.
    destruct P2 as (_ & _ & _ & _ & F5 & F6 & _). unfold read2.
    rewrite F5, F6, Hs, He, initial_cell2 by assumption.
    destruct (group_done (num_tile_groups st5) g); reflexivity. }
  exists out. rewrite E8, R9. reflexivity.
Qed.

(** ** Traces that [process_trace] accepts *)

Lemma valid_trace_inv (self : VanillaStatsParser) (trace : gmap string Z) :
  valid_trace self trace = true ->
  exists y x tag cst,
    trace !! "y" = Some y /\ trace !! "x" = Some x
    /\ trace !! "tag" = Some tag /\ CudaStatTag.init tag = Ok cst
    /\ (CudaStatTag.type cst = CudaStatTag.STAT
        \/ (CudaStatTag.type cst <> CudaStatTag.STAT
            /\ exists a b,
                index (dim_y self) (y - _BSG_ORIGIN_Y) = Ok a
                /\ index (dim_x self) (x - _BSG_ORIGIN_X) = Ok b
                /\ Forall (fun op => is_Some (trace !! op)) (all_ops self))).
Proof.
  unfold valid_trace. intros H.
  destruct (trace !! "y") as [y |] eqn:Hy; [| discriminate].
  destruct (trace !! "x") as [x |] eqn:Hx; [| discriminate].
  destruct (trace !! "tag") as [tag |] eqn:Htag; [| discriminate].
  destruct (CudaStatTag.init tag) as [cst |] eqn:Hcst; [| discriminate].
  exists y, x, tag, cst. do 4 (split; [reflexivity || assumption |]).
  rewrite isStat_eq in H.
  destruct (decide (CudaStatTag.type cst = CudaStatTag.STAT)) as [Hty | Hty];
    [left; assumption | right].
  split; [assumption |].
  rewrite bool_decide_eq_false_2 in H by assumption.
  unfold event in H. rewrite Hy, Hx, Htag, Hcst in H.
  destruct (index (dim_y self) _) as [a |] eqn:Ha; [| discriminate].
  destruct (index (dim_x self) _) as [b |] eqn:Hb; [| discriminate].
  exists a, b. do 2 (split; [reflexivity |]).
  apply Forall_forall. intros op Hin.
  rewrite forallb_forall in H. apply list_elem_of_In in Hin.
  apply (bool_decide_eq_true_1 _ (H op Hin)).
Qed.

(** A valid trace is processed without an exception. *)
Lemma process_trace_total (self : VanillaStatsParser) (st : locals)
    (trace : gmap string Z) :
  shapes self st -> valid_trace self trace = true ->
  exists st', process_trace self st trace = Ok st'.
Proof.
  intros Hsh Hvalid.
  destruct (valid_trace_inv self trace Hvalid)
    as (y & x & tag & cst & Hy & Hx & Htag & Hcst & Hcase).
  unfold process_trace, dict_get. rewrite Hy, Hx, Htag. cbn [bind].
  rewrite Hcst. cbn [bind]. rewrite isStart_eq, isEnd_eq.
  destruct Hcase as [Hty | (Hty & a & b & Ha & Hb & Hkeys)].
  { rewrite Hty. rewrite !bool_decide_eq_false_2 by discriminate. eauto. }
  set (t := Z.to_nat (CudaStatTag.tag cst)).
  set (d := Z.to_nat (CudaStatTag.tg_id cst)).
  pose proof (index_tag cst) as Hit. fold t in Hit.
  pose proof (index_tg_id cst) as Hid. fold d in Hid.
  pose proof (index_lt _ _ _ Hit) as Lt. pose proof (index_lt _ _ _ Hid) as Ld.
  pose proof (index_lt _ _ _ Ha) as La. pose proof (index_lt _ _ _ Hb) as Lb.
  destruct (rect3_cell _ _ _ (tag_credits st) t a b (sh_credits _ _ Hsh)
              Lt La Lb) as [credit Hcredit].
  rewrite (get3_rect _ _ _ _ _ _ _ t a b credit (sh_credits _ _ Hsh))
    by assumption.
  cbn [bind].
  destruct (CudaStatTag.type cst) eqn:Ety; [congruence | |].
  - rewrite bool_decide_eq_true_2 by reflexivity.
    rewrite (set3_rect _ _ _ _ _ _ _ t a b _ (sh_credits _ _ Hsh) Hit Ha Hb).
    cbn [bind]. simpl_locals.
    destruct (lookup_lt_is_Some_2 (tile_group_stat_start st) t)
      as [groups Hgroups].
    { rewrite (proj1 (sh_group_start _ _ Hsh)). exact Lt. }
    rewrite (getitem_Ok _ _ t groups)
      by (rewrite ?(proj1 (sh_group_start _ _ Hsh)); assumption).
    cbn [bind].
    rewrite (n_groups_truthy _ _ _ _ (sh_group_start _ _ Hsh) Hgroups).
    cbn [negb].
    destruct (lookup_lt_is_Some_2 groups d) as [group Hgroup].
    { rewrite (rect2_row _ _ _ _ _ (sh_group_start _ _ Hsh) Hgroups). exact Ld. }
    rewrite (getitem_Ok _ _ d group)
      by (rewrite ?(rect2_row _ _ _ _ _ (sh_group_start _ _ Hsh) Hgroups);
          assumption).
    cbn [bind].
    assert (Hg0 : cell2 (tile_group_stat_start st) (t, d) = Some group).
    { unfold cell2. cbn [fst snd]. rewrite Hgroups. exact Hgroup. }
    destruct (rect3_cell _ _ _ (tile_stat_start st) t a b (sh_start _ _ Hsh)
                Lt La Lb) as [c0 Hc0].
    destruct (record_ops_spec trace _ _ _ _ _ _ _ _ t a b d (all_ops self)
                Hit Ha Hb Hid Hkeys _ _ c0 group
                (sh_start _ _ Hsh) (sh_group_start _ _ Hsh) Hc0 Hg0)
      as (T' & G' & Hrun & _).
    destruct (negb (counter_truthy group)); simpl_locals.
    + destruct (lookup_lt_is_Some_2 (num_tile_groups st) t) as [n Hn].
      { rewrite (sh_num_tile_groups _ _ Hsh). exact Lt. }
      rewrite (getitem_Ok _ _ t n)
        by (rewrite ?(sh_num_tile_groups _ _ Hsh); assumption).
      cbn [bind].
      rewrite (setitem_Ok _ _ t)
        by (rewrite ?(sh_num_tile_groups _ _ Hsh); assumption).
      cbn [bind]. simpl_locals. rewrite Hrun. cbn [bind]. eauto.
    + cbn [bind]. simpl_locals. rewrite Hrun. cbn [bind]. eauto.
  - rewrite bool_decide_eq_false_2 by discriminate.
    rewrite bool_decide_eq_true_2 by reflexivity.
    rewrite (set3_rect _ _ _ _ _ _ _ t a b _ (sh_credits _ _ Hsh) Hit Ha Hb).
    cbn [bind]. simpl_locals.
    rewrite (get3_rect n_tags (dim_y self) (dim_x self) _ _ _ _ t a b
               (credit - 1)); trivial.
    2: { apply rect3_insert3. apply (sh_credits _ _ Hsh). }
    2: { rewrite cell3_insert3 by (rewrite Hcredit; eauto).
         rewrite decide_True by reflexivity. reflexivity. }
    cbn [bind].
    destruct (rect2_cell _ _ (tile_group_stat_end st) t d
                (sh_group_end _ _ Hsh) Lt Ld) as [g0 Hg0].
    destruct (rect3_cell _ _ _ (tile_stat_end st) t a b (sh_end _ _ Hsh)
                Lt La Lb) as [c0 Hc0].
    destruct (record_ops_spec trace _ _ _ _ _ _ _ _ t a b d (all_ops self)
                Hit Ha Hb Hid Hkeys _ _ c0 g0
                (sh_end _ _ Hsh) (sh_group_end _ _ Hsh) Hc0 Hg0)
      as (T' & G' & Hrun & _).
    destruct (credit - 1 <? 0); simpl_locals; rewrite Hrun; cbn [bind]; eauto.
Qed.

(** The loop over the traces returns exactly on the valid traces. *)
Lemma read_traces_total (self : VanillaStatsParser)
    (traces : list (gmap string Z)) :
  forallb (valid_trace self) traces = true ->
  exists st, read_traces self traces = Ok st.
Proof.
  intros Hvalid. unfold read_traces.
  destruct (for_each_invariant (fun _ st => shapes self st)
              (process_trace self) traces (initial_locals self))
    as (st & Hst & _).
  - apply initial_shapes.
  - intros done trace todo s Hl Hsh.
    assert (Hv : valid_trace self trace = true).
    { rewrite forallb_forall in Hvalid. apply Hvalid. rewrite Hl.
      apply in_or_app. right. left. reflexivity. }
    destruct (process_trace_total self s trace Hsh Hv) as [s' Hs'].
    exists s'. split; [assumption |].
    apply (process_trace_spec self s s' trace Hsh Hs').
  - eauto.
Qed.

(** ** The claims about the statistics *)

(** A parser for a grid of one tile and a file with five columns, and a
    trace of such a file. *)
Definition sample_parser : VanillaStatsParser :=
  new_parser 1 1 ["x"; "y"; "tag"; "cycle"; "instr_add"].

Definition sample_trace (y x tag cycle instr_add : Z) : gmap string Z :=
  <["x" := x]> (<["y" := y]> (<["tag" := tag]>
    (<["cycle" := cycle]> (<["instr_add" := instr_add]> ∅)))).

Definition is_Ok {A} (r : result A) : bool :=
  match r with Ok _ => true | Err _ => false end.

Lemma is_Ok_inv {A} (r : result A) : is_Ok r = true -> exists a, r = Ok a.
Proof. destruct r as [a | e]; [eauto | discriminate]. Qed.

(** C9. The [num_tags] that the method returns is 0 whatever the traces
    are: the test [not tile_group_stat_start[cst.tag]] is on a list of
    [max_tile_groups] Counters, which is never empty. *)
Theorem num_tags_always_zero (self self' : VanillaStatsParser)
    (traces : list (gmap string Z)) (st : locals) :
  __generate_tile_stats self traces = Ok (self', st) -> num_tags st = 0.
Proof.
  intros H. apply generate_tile_stats_spec in H.
  destruct H as (_ & _ & _ & Hn & _). exact Hn.
Qed.

(** Two tags, 0 and 3, each with a start and an end trace. *)
Lemma num_tags_always_zero_witness :
  exists self' st,
    __generate_tile_stats sample_parser
      [sample_trace 1 0 (pack 1 1 0 0 0) 10 5;
       sample_trace 1 0 (pack 1 1 0 0 3) 12 6;
       sample_trace 1 0 (pack 2 1 0 0 3) 20 9;
       sample_trace 1 0 (pack 2 1 0 0 0) 30 15] = Ok (self', st)
    /\ num_tags st = 0.
Proof.
  destruct (is_Ok_inv
              (__generate_tile_stats sample_parser
                 [sample_trace 1 0 (pack 1 1 0 0 0) 10 5;
                  sample_trace 1 0 (pack 1 1 0 0 3) 12 6;
                  sample_trace 1 0 (pack 2 1 0 0 3) 20 9;
                  sample_trace 1 0 (pack 2 1 0 0 0) 30 15]))
    as [[self' st] H].
  - vm_compute. reflexivity.
  - exists self', st. split; [exact H |].
    exact (num_tags_always_zero _ _ _ _ H).
Defined.

(** A trace has one stat type. *)
Lemma tile_event_one_kind (self : VanillaStatsParser)
    (trace : gmap string Z) k k' q q' :
  tile_event self k q trace = true -> k <> k' ->
  tile_event self k' q' trace = false.
Proof.
  unfold tile_event. destruct (event self trace) as [[[k0 p] g] |];
    [| discriminate].
  intros H Hne. apply andb_true_iff in H. destruct H as [H _].
  apply bool_decide_eq_true_1 in H. subst k0.
  rewrite bool_decide_eq_false_2 by assumption. reflexivity.
Qed.

(** A valid start or end trace has every operation of the schema. *)
Lemma tile_event_keys (self : VanillaStatsParser) (trace : gmap string Z)
    k q :
  valid_trace self trace = true -> tile_event self k q trace = true ->
  k <> CudaStatTag.STAT ->
  Forall (fun op => is_Some (trace !! op)) (all_ops self).
Proof.
  intros Hvalid Hev Hk.
  destruct (valid_trace_inv self trace Hvalid)
    as (y & x & tag & cst & Hy & Hx & Htag & Hcst & Hcase).
  destruct Hcase as [Hty | (_ & a & b & _ & _ & Hkeys)]; [| exact Hkeys].
  exfalso. unfold tile_event in Hev.
  destruct (event self trace) as [[[k0 p] g] |] eqn:E; [| discriminate].
  rewrite (event_type self trace tag cst k0 p g Htag Hcst E) in Hev.
  apply andb_true_iff in Hev. destruct Hev as [Hev _].
  apply bool_decide_eq_true_1 in Hev. congruence.
Qed.

Lemma snapshot_dom (self : VanillaStatsParser) kind q traces (c : Counter) :
  dom c ⊆ list_to_set (all_ops self) ->
  dom (snapshot self kind q traces c) ⊆ list_to_set (all_ops self).
Proof.
  revert c. induction traces as [| trace traces IH]; intros c Hc;
    [exact Hc |].
  unfold snapshot. cbn [foldl]. apply IH. unfold tile_step.
  destruct (tile_event self kind q trace); [| exact Hc].
  apply write_ops_dom. exact Hc.
Qed.

(** The snapshot after a trace of the tile is the trace, on the
    operations of the schema. *)
Lemma snapshot_last (self : VanillaStatsParser) kind q done trace op :
  tile_event self kind q trace = true ->
  snapshot self kind q (done ++ [trace]) ∅ !! op
  = if decide (op ∈ all_ops self) then Some (col trace op) else None.
Proof.
  intros Hev. rewrite snapshot_snoc. unfold tile_step. rewrite Hev.
  rewrite write_ops_lookup. destruct (decide (op ∈ all_ops self));
    [reflexivity |].
  apply not_elem_of_dom. intros Hin.
  apply (snapshot_dom self kind q done ∅) in Hin.
  - apply elem_of_list_to_set in Hin. contradiction.
  - rewrite dom_empty_L. apply empty_subseteq.
Qed.

(** C7. A tile has one pending start snapshot: after a second start trace
    of the tile, with no end trace of the tile since the first, the
    snapshot is the second trace (on the operations of the schema), and
    nothing of the first is left. *)
Theorem second_start_overwrites (self : VanillaStatsParser)
    (done between : list (gmap string Z)) (first second : gmap string Z)
    (q : nat * nat * nat) (st : locals) :
  tile_event self CudaStatTag.START q first = true ->
  Forall (fun trace => tile_event self CudaStatTag.END q trace = false)
         between ->
  tile_event self CudaStatTag.START q second = true ->
  read_traces self (done ++ first :: between ++ [second]) = Ok st ->
  exists snap,
    cell3 (tile_stat_start st) q = Some snap
    /\ forall op, snap !! op
                  = if decide (op ∈ all_ops self) then second !! op else None.
Proof.
  intros _ _ Hsecond H.
  apply read_traces_spec in H.
  destruct H as (_ & R1 & _ & _ & _ & _ & _ & _ & _ & _ & Hvalid).
  unfold tile_event in Hsecond.
  destruct (event self second) as [[[k p] g] |] eqn:Hev; [| discriminate].
  apply andb_true_iff in Hsecond. destruct Hsecond as [Hk Hp].
  apply bool_decide_eq_true_1 in Hk, Hp. subst k p.
  destruct (event_in_grid self second _ _ _ Hev) as (Q1 & Q2 & Q3 & _).
  eexists. split.
  { rewrite R1, initial_cell3 by assumption. reflexivity. }
  intros op.
  replace (done ++ first :: between ++ [second])
    with ((done ++ first :: between) ++ [second])
    by (rewrite <- app_assoc; reflexivity).
  rewrite snapshot_last
    by (unfold tile_event; rewrite Hev, !bool_decide_eq_true_2 by reflexivity;
        reflexivity).
  destruct (decide (op ∈ all_ops self)) as [Hin |]; [| reflexivity].
  assert (Hv2 : valid_trace self second = true).
  { rewrite forallb_forall in Hvalid. apply Hvalid.
    apply in_or_app. right. right. apply in_or_app. right. left. reflexivity. }
  assert (Hkeys : Forall (fun op => is_Some (second !! op)) (all_ops self)).
  { apply (tile_event_keys self second CudaStatTag.START q Hv2);
      [| discriminate].
    unfold tile_event. rewrite Hev, !bool_decide_eq_true_2 by reflexivity.
    reflexivity. }
  rewrite Forall_forall in Hkeys. destruct (Hkeys op Hin) as [v Hv].
  unfold col. rewrite Hv. reflexivity.
Qed.

(** Two start traces of the tile, then the snapshot has the cycle and the
    instr_add of the second. *)
Lemma second_start_overwrites_witness :
  exists st snap,
    read_traces sample_parser
      ([] ++ sample_trace 1 0 (pack 1 1 0 0 0) 10 5
          :: [] ++ [sample_trace 1 0 (pack 1 1 0 0 0) 17 8]) = Ok st
    /\ cell3 (tile_stat_start st) (0, 0, 0)%nat = Some snap
    /\ (forall op,
          snap !! op
          = if decide (op ∈ all_ops sample_parser)
            then sample_trace 1 0 (pack 1 1 0 0 0) 17 8 !! op else None)
    /\ snap !! "cycle" = Some 17.
Proof.
  destruct (is_Ok_inv
              (read_traces sample_parser
                 ([] ++ sample_trace 1 0 (pack 1 1 0 0 0) 10 5
                     :: [] ++ [sample_trace 1 0 (pack 1 1 0 0 0) 17 8])))
    as [st H].
  - vm_compute. reflexivity.
  - destruct (second_start_overwrites sample_parser [] []
                (sample_trace 1 0 (pack 1 1 0 0 0) 10 5)
                (sample_trace 1 0 (pack 1 1 0 0 0) 17 8)
                (0, 0, 0)%nat st) as (snap & Hcell & Hsnap).
    + vm_compute. reflexivity.
    + constructor.
    + vm_compute. reflexivity.
    + exact H.
    + exists st, snap. split; [exact H |]. split; [exact Hcell |].
      split; [exact Hsnap |]. rewrite Hsnap. vm_compute. reflexivity.
Defined.

(** C10. A start or end trace whose row is below the origin ([y = 0]
    with the origin row 1, so [relative_y = -1]) raises nothing: Python's
    negative index makes it a trace of the last row of the grid, whose
    credits and pending snapshot it changes. *)
Theorem row_below_origin_wraps (self : VanillaStatsParser) (st : locals)
    (trace : gmap string Z) (x tag : Z) (cst : CudaStatTag.t) :
  shapes self st ->
  1 <= manycore_dim_y self -> 0 <= x < manycore_dim_x self ->
  trace !! "y" = Some 0 -> trace !! "x" = Some x ->
  trace !! "tag" = Some tag -> CudaStatTag.init tag = Ok cst ->
  CudaStatTag.type cst <> CudaStatTag.STAT ->
  Forall (fun op => is_Some (trace !! op)) (all_ops self) ->
  let q := (Z.to_nat (CudaStatTag.tag cst), (dim_y self - 1)%nat, Z.to_nat x) in
  exists st',
    process_trace self st trace = Ok st'
    /\ cell3 (tag_credits st') q
       = (fun z => match CudaStatTag.type cst with
                   | CudaStatTag.START => z + 1
                   | _ => z - 1
                   end) <$> cell3 (tag_credits st) q
    /\ cell3 (match CudaStatTag.type cst with
              | CudaStatTag.START => tile_stat_start st'
              | _ => tile_stat_end st'
              end) q
       = write_ops (all_ops self) trace
           <$> cell3 (match CudaStatTag.type cst with
                      | CudaStatTag.START => tile_stat_start st
                      | _ => tile_stat_end st
                      end) q.
Proof.
  intros Hsh Hdy Hx Hy Hxx Htag Hcst Hty Hkeys q.
  assert (Ha : index (dim_y self) (0 - _BSG_ORIGIN_Y)
               = Ok (dim_y self - 1)%nat).
  { unfold _BSG_ORIGIN_Y. rewrite index_negative by (unfold dim_y; lia).
    f_equal. unfold dim_y. lia. }
  assert (Hb : index (dim_x self) (x - _BSG_ORIGIN_X) = Ok (Z.to_nat x)).
  { unfold _BSG_ORIGIN_X. rewrite Z.sub_0_r. apply index_range_Z. exact Hx. }
  pose proof (event_eq self trace 0 x tag cst _ _ Hy Hxx Htag Hcst Ha Hb)
    as Hev. fold q in Hev.
  pose proof (valid_trace_intro self trace 0 x tag cst _ _
                Hy Hxx Htag Hcst Ha Hb Hkeys) as Hvalid.
  destruct (process_trace_total self st trace Hsh Hvalid) as [st' Hst'].
  exists st'. split; [exact Hst' |].
  destruct (process_trace_spec self st st' trace Hsh Hst')
    as ((_ & Q1 & Q2 & _ & _ & Q5 & _) & _).
  split.
  - rewrite Q5. unfold credit_step.
    rewrite !(tile_event_eq _ _ _ _ _ _ _ Hev).
    rewrite (bool_decide_eq_true_2 (q = q)) by reflexivity.
    destruct (CudaStatTag.type cst); [congruence | |];
      destruct (cell3 (tag_credits st) q); reflexivity.
  - destruct (CudaStatTag.type cst) eqn:E; [congruence | |].
    + rewrite Q1. unfold tile_step. rewrite (tile_event_eq _ _ _ _ _ _ _ Hev).
      rewrite !bool_decide_eq_true_2 by reflexivity. reflexivity.
    + rewrite Q2. unfold tile_step. rewrite (tile_event_eq _ _ _ _ _ _ _ Hev).
      rewrite !bool_decide_eq_true_2 by reflexivity. reflexivity.
Qed.

(** A grid of two rows: a start trace with [y = 0] is counted on row 1. *)
Lemma row_below_origin_wraps_witness :
  exists st',
    process_trace (new_parser 2 1 ["x"; "y"; "tag"; "cycle"; "instr_add"])
      (initial_locals (new_parser 2 1 ["x"; "y"; "tag"; "cycle"; "instr_add"]))
      (sample_trace 0 0 (pack 1 0 0 0 0) 10 5) = Ok st'
    /\ cell3 (tag_credits st') (0, 1, 0)%nat = Some 1
    /\ ((fun c => counter_get c "cycle")
          <$> cell3 (tile_stat_start st') (0, 1, 0)%nat) = Some 10.
Proof.
  destruct (row_below_origin_wraps
              (new_parser 2 1 ["x"; "y"; "tag"; "cycle"; "instr_add"])
              (initial_locals
                 (new_parser 2 1 ["x"; "y"; "tag"; "cycle"; "instr_add"]))
              (sample_trace 0 0 (pack 1 0 0 0 0) 10 5) 0 (pack 1 0 0 0 0)
              {| CudaStatTag.s := pack 1 0 0 0 0;
                 CudaStatTag.type := CudaStatTag.START |})
    as (st' & Hrun & Hcredit & Hsnap).
  - apply initial_shapes.
  - simpl. lia.
  - simpl. lia.
  - reflexivity.
  - reflexivity.
  - reflexivity.
  - reflexivity.
  - discriminate.
  - repeat constructor; eexists; vm_compute; reflexivity.
  - exists st'. split; [exact Hrun |]. split.
    + etransitivity; [exact Hcredit |]. vm_compute. reflexivity.
    + etransitivity;
        [exact (f_equal (fmap (fun c => counter_get c "cycle")) Hsnap) |].
      vm_compute. reflexivity.
Defined.

Lemma warnings_prefix (self : VanillaStatsParser)
    (l l' : list (gmap string Z)) :
  exists rest, warnings self (l ++ l') = warnings self l ++ rest.
Proof.
  induction l' as [| x l' IH] using rev_ind.
  - exists []. rewrite !app_nil_r. reflexivity.
  - destruct IH as [rest IH]. rewrite app_assoc, warnings_snoc, IH.
    eexists. rewrite <- app_assoc. reflexivity.
Qed.

(** An end trace that finds no credit on its tile is reported, and the
    method goes on to its end. *)
Lemma missing_start_is_warned (self self' : VanillaStatsParser)
    (before after : list (gmap string Z)) (trace : gmap string Z)
    (q : nat * nat * nat) (st : locals) :
  __generate_tile_stats self (before ++ trace :: after) = Ok (self', st) ->
  tile_event self CudaStatTag.END q trace = true ->
  credits self q before 0 <= 0 ->
  missing_start_line trace q ∈ stdout st.
Proof.
  intros H Hev Hcredit. apply generate_tile_stats_spec in H.
  destruct H as (_ & _ & _ & _ & _ & _ & out & Hout).
  rewrite Hout. apply elem_of_app. left.
  replace (before ++ trace :: after) with ((before ++ [trace]) ++ after)
    by (rewrite <- app_assoc; reflexivity).
  destruct (warnings_prefix self (before ++ [trace]) after) as [rest ->].
  apply elem_of_app. left. rewrite warnings_snoc. apply elem_of_app. right.
  unfold step_warning. unfold tile_event in Hev.
  destruct (event self trace) as [[[k p] g] |]; [| discriminate].
  apply andb_true_iff in Hev. destruct Hev as [Hk Hp].
  apply bool_decide_eq_true_1 in Hp. subst p. rewrite Hk.
  replace (credits self q before 0 - 1 <? 0) with true
    by (symmetry; apply Z.ltb_lt; lia).
  apply list_elem_of_singleton. reflexivity.
Qed.

Lemma not_total_name (op : string) :
  op <> "instr_total" -> op <> "stall_total" -> op <> "miss_total" ->
  op ∉ total_names.
Proof.
  intros H1 H2 H3. unfold total_names. rewrite !not_elem_of_cons.
  repeat split; trivial. apply not_elem_of_nil.
Qed.

(** C6. The only trace is an end trace, with cycle 10: the missing start
    is reported, the method returns all the same, the pending start
    snapshot of the tile is the empty Counter (it reads 0 everywhere) and
    the tile's cycle is 10. *)
Theorem end_without_start (self self' : VanillaStatsParser)
    (trace : gmap string Z) (q : nat * nat * nat) (st : locals) :
  __generate_tile_stats self [trace] = Ok (self', st) ->
  tile_event self CudaStatTag.END q trace = true ->
  "cycle" ∈ all_ops self -> trace !! "cycle" = Some 10 ->
  missing_start_line trace q ∈ stdout st
  /\ cell3 (tile_stat_start st) q = Some ∅
  /\ exists tile, cell3 (tile_stat st) q = Some tile
                  /\ counter_get tile "cycle" = 10.
Proof.
  intros H Hev Hop Hcycle. split.
  { apply (missing_start_is_warned self self' [] [] trace q st H Hev).
    reflexivity. }
  apply generate_tile_stats_spec in H.
  destruct H as (_ & _ & _ & _ & Htiles & _).
  assert (Hgrid : (q.1.1 < n_tags)%nat /\ (q.1.2 < dim_y self)%nat
                  /\ (q.2 < dim_x self)%nat).
  { unfold tile_event in Hev.
    destruct (event self trace) as [[[k p] g] |] eqn:E; [| discriminate].
    apply andb_true_iff in Hev. destruct Hev as [_ Hp].
    apply bool_decide_eq_true_1 in Hp. subst p.
    destruct (event_in_grid self trace k q g E) as (? & ? & ? & _). auto. }
  destruct Hgrid as (Q1 & Q2 & Q3).
  destruct (Htiles q Q1 Q2 Q3) as (Hs & _ & _ & Ht).
  assert (Hstart : snapshot self CudaStatTag.START q [trace] ∅ = ∅).
  { unfold snapshot. cbn [foldl]. unfold tile_step.
    rewrite (tile_event_one_kind self trace CudaStatTag.END
               CudaStatTag.START q q Hev) by discriminate.
    reflexivity. }
  rewrite Hstart in Hs, Ht. split; [exact Hs |].
  eexists. split; [exact Ht |].
  rewrite add_totals_other by (apply not_total_name; discriminate).
  rewrite counter_get_sub.
  unfold snapshot. cbn [foldl]. unfold tile_step. rewrite Hev.
  rewrite write_ops_get, decide_True by assumption.
  unfold col. rewrite Hcycle. reflexivity.
Qed.

(** The scenario of the spec: a grid of one tile and one end trace, of
    the tile at row 1 (the origin row) and column 0, with cycle 10. *)
Lemma end_without_start_witness :
  exists self' st tile,
    __generate_tile_stats sample_parser
      [sample_trace 1 0 (pack 2 1 0 0 0) 10 0] = Ok (self', st)
    /\ missing_start 0 0 0 ∈ stdout st
    /\ cell3 (tile_stat_start st) (0, 0, 0)%nat = Some ∅
    /\ cell3 (tile_stat st) (0, 0, 0)%nat = Some tile
    /\ counter_get tile "cycle" = 10.
Proof.
  destruct (is_Ok_inv
              (__generate_tile_stats sample_parser
                 [sample_trace 1 0 (pack 2 1 0 0 0) 10 0]))
    as [[self' st] H].
  - vm_compute. reflexivity.
  - destruct (end_without_start sample_parser self'
                (sample_trace 1 0 (pack 2 1 0 0 0) 10 0) (0, 0, 0)%nat st H)
      as (Hwarn & Hstart & tile & Htile & Hcycle).
    + vm_compute. reflexivity.
    + vm_compute. repeat constructor.
    + vm_compute. reflexivity.
    + exists self', st, tile. split; [exact H |]. split; [exact Hwarn |].
      split; [exact Hstart |]. split; [exact Htile | exact Hcycle].
Defined.

(** *** The schema that [parse_header] gives *)

Definition schema_ok (acc : list string * list string * list string * list string)
  : Prop :=
  let '(stats, instrs, misses, stalls) := acc in
  ("instr_total" ∉ (stats ++ instrs ++ misses ++ stalls))
  /\ Forall (fun op => op ∉ total_names) instrs.

Lemma parse_header_loop_ok (header : list string) acc :
  schema_ok acc -> schema_ok (parse_header_loop header acc).
Proof.
  revert acc. induction header as [| item rest IH]; intros acc Hacc;
    [exact Hacc |].
  destruct acc as [[[stats instrs] misses] stalls].
  cbn [parse_header_loop]. apply IH. destruct Hacc as [Hno Hin].
  rewrite !elem_of_app in Hno.
  destruct (String.prefix "instr_" item) eqn:Ei.
  - destruct (String.eqb item "instr_total") eqn:Et; cbn [negb].
    + split; [rewrite !elem_of_app; exact Hno | exact Hin].
    + apply String.eqb_neq in Et. split.
      * rewrite !elem_of_app, list_elem_of_singleton. intuition congruence.
      * apply Forall_app. split; [exact Hin |]. constructor; [| constructor].
        apply not_total_name; intros Heq; subst item;
          [congruence | discriminate Ei | discriminate Ei].
  - destruct (String.prefix "miss_" item) eqn:Em.
    + split; [| exact Hin].
      rewrite !elem_of_app, list_elem_of_singleton.
      intros [? | [? | [[? | Heq] | ?]]]; try tauto. subst item. discriminate Em.
    + destruct (String.prefix "stall_" item) eqn:Es.
      * split; [| exact Hin].
        rewrite !elem_of_app, list_elem_of_singleton.
        intros [? | [? | [? | [? | Heq]]]]; try tauto. subst item. discriminate Es.
      * split; [| exact Hin].
        rewrite !elem_of_app, list_elem_of_singleton.
        intros [[? | Heq] | [? | [? | ?]]]; try tauto. subst item. discriminate Ei.
Qed.

(** A parser built from a header has no instr_total among its
    operations, and none of the three totals among its instructions. *)
Lemma new_parser_schema (manycore_dim_y manycore_dim_x : Z)
    (header : list string) :
  ("instr_total" ∉ all_ops (new_parser manycore_dim_y manycore_dim_x header))
  /\ Forall (fun op => op ∉ total_names)
            (instrs (new_parser manycore_dim_y manycore_dim_x header)).
Proof.
  unfold new_parser, parse_header.
  pose proof (parse_header_loop_ok header ([], [], [], [])) as H.
  destruct (parse_header_loop header ([], [], [], []))
    as [[[l1 l2] l3] l4].
  cbn [all_ops instrs]. apply H.
  split; [apply not_elem_of_nil | constructor].
Qed.

(** *** A tile with one start and one end trace *)

Lemma snapshot_filter (self : VanillaStatsParser) kind q traces c :
  snapshot self kind q traces c
  = snapshot self kind q (List.filter (tile_event self kind q) traces) c.
Proof.
  revert c. induction traces as [| trace traces IH]; intros c;
    [reflexivity |].
  cbn [List.filter]. unfold snapshot in *. cbn [foldl]. rewrite IH.
  unfold tile_step at 2.
  destruct (tile_event self kind q trace) eqn:E; [| reflexivity].
  cbn [foldl]. unfold tile_step at 3. rewrite E. reflexivity.
Qed.

Lemma filter_filter_left {A} (p r : A -> bool) (l : list A) :
  List.filter p (List.filter (fun a => p a || r a) l) = List.filter p l.
Proof.
  induction l as [| a l IH]; [reflexivity |]. cbn [List.filter].
  destruct (p a) eqn:Ep; cbn [orb].
  - cbn [List.filter]. rewrite Ep, IH. reflexivity.
  - destruct (r a); [cbn [List.filter]; rewrite Ep |]; exact IH.
Qed.

Lemma filter_filter_right {A} (p r : A -> bool) (l : list A) :
  List.filter r (List.filter (fun a => p a || r a) l) = List.filter r l.
Proof.
  induction l as [| a l IH]; [reflexivity |]. cbn [List.filter].
  destruct (r a) eqn:Er; rewrite ?orb_true_r, ?orb_false_r.
  - cbn [List.filter]. rewrite Er, IH. reflexivity.
  - destruct (p a); [cbn [List.filter]; rewrite Er |]; exact IH.
Qed.

(** The start and end traces of a tile, in the order of the file. *)
Definition traces_of_tile (self : VanillaStatsParser) (q : nat * nat * nat)
    (traces : list (gmap string Z)) : list (gmap string Z) :=
  List.filter (fun trace => tile_event self CudaStatTag.START q trace
                            || tile_event self CudaStatTag.END q trace)
              traces.

Lemma one_pair_snapshots (self : VanillaStatsParser) q traces first last :
  traces_of_tile self q traces = [first; last] ->
  tile_event self CudaStatTag.START q first = true ->
  tile_event self CudaStatTag.END q last = true ->
  snapshot self CudaStatTag.START q traces ∅
  = write_ops (all_ops self) first ∅
  /\ snapshot self CudaStatTag.END q traces ∅
     = write_ops (all_ops self) last ∅.
Proof.
  intros Hpair Hfirst Hlast. unfold traces_of_tile in Hpair.
  pose proof (tile_event_one_kind self first _ CudaStatTag.END q q Hfirst)
    as Hf. pose proof (tile_event_one_kind self last _ CudaStatTag.START q q
                         Hlast) as Hl.
  split.
  - rewrite snapshot_filter, <- filter_filter_left with
      (r := tile_event self CudaStatTag.END q), Hpair.
    cbn [List.filter]. rewrite Hfirst, Hl by discriminate.
    unfold snapshot. cbn [foldl]. unfold tile_step. rewrite Hfirst.
    reflexivity.
  - rewrite snapshot_filter, <- filter_filter_right with
      (p := tile_event self CudaStatTag.START q), Hpair.
    cbn [List.filter]. rewrite Hlast, Hf by discriminate.
    unfold snapshot. cbn [foldl]. unfold tile_step. rewrite Hlast.
    reflexivity.
Qed.

Lemma tile_event_in_grid (self : VanillaStatsParser) kind q trace :
  tile_event self kind q trace = true ->
  (q.1.1 < n_tags)%nat /\ (q.1.2 < dim_y self)%nat /\ (q.2 < dim_x self)%nat.
Proof.
  unfold tile_event. intros Hev.
  destruct (event self trace) as [[[k p] g] |] eqn:E; [| discriminate].
  apply andb_true_iff in Hev. destruct Hev as [_ Hp].
  apply bool_decide_eq_true_1 in Hp. subst p.
  destruct (event_in_grid self trace k q g E) as (? & ? & ? & _). auto.
Qed.

(** What the method returns for a trace stream, read at a tile and an
    operation: [tile_stat[tag][y][x][op]]. *)
Definition returned_tile_value (r : result (VanillaStatsParser * locals))
    (q : nat * nat * nat) (op : string) : option Z :=
  match r with
  | Ok (_, st) => (fun c => counter_get c op) <$> cell3 (tile_stat st) q
  | Err _ => None
  end.

Definition returned_tile_lookup (r : result (VanillaStatsParser * locals))
    (q : nat * nat * nat) (op : string) : option (option Z) :=
  match r with
  | Ok (_, st) => (fun c : Counter => c !! op) <$> cell3 (tile_stat st) q
  | Err _ => None
  end.

(** C1, as the code has it. With one start trace and then one end trace
    of a tile, the tile's value of an operation of the schema (the three
    totals apart) is the end value minus the start value when that is
    positive and 0 otherwise, and its instr_total is the sum of its
    values of the instructions. *)
Theorem one_pair_delta (self self' : VanillaStatsParser)
    (traces : list (gmap string Z)) (first last : gmap string Z)
    (q : nat * nat * nat) (st : locals) :
  __generate_tile_stats self traces = Ok (self', st) ->
  traces_of_tile self q traces = [first; last] ->
  tile_event self CudaStatTag.START q first = true ->
  tile_event self CudaStatTag.END q last = true ->
  "instr_total" ∉ all_ops self ->
  Forall (fun op => op ∉ total_names) (instrs self) ->
  exists tile,
    cell3 (tile_stat st) q = Some tile
    /\ (forall op, op ∈ all_ops self -> op ∉ total_names ->
          counter_get tile op = Z.max 0 (col last op - col first op))
    /\ counter_get tile "instr_total"
       = sum_over (counter_get tile) (instrs self).
Proof.
  intros H Hpair Hfirst Hlast Hno Hinstrs.
  apply generate_tile_stats_spec in H.
  destruct H as (_ & _ & _ & _ & Htiles & _).
  destruct (tile_event_in_grid self _ q first Hfirst) as (Q1 & Q2 & Q3).
  destruct (Htiles q Q1 Q2 Q3) as (_ & _ & _ & Ht).
  destruct (one_pair_snapshots self q traces first last Hpair Hfirst Hlast)
    as [Hs He].
  rewrite Hs, He in Ht. eexists. split; [exact Ht |].
  set (delta := counter_sub (write_ops (all_ops self) last ∅)
                            (write_ops (all_ops self) first ∅)).
  split.
  - intros op Hop Hnt. rewrite add_totals_other by assumption.
    unfold delta. rewrite counter_get_sub, !write_ops_get.
    rewrite !decide_True by assumption. reflexivity.
  - rewrite add_totals_instr_total.
    + assert (Hzero : counter_get delta "instr_total" = 0).
      { unfold delta. rewrite counter_get_sub, !write_ops_get.
        rewrite !decide_False by assumption. reflexivity. }
      rewrite Hzero, Z.add_0_l.
      clear -Hinstrs. induction Hinstrs as [| op ops Hop _ IH];
        [reflexivity |].
      cbn [sum_over foldr]. fold (sum_over (counter_get delta) ops).
      fold (sum_over (counter_get (add_totals self delta)) ops).
      rewrite IH, add_totals_other by assumption. reflexivity.
    + rewrite Forall_forall in Hinstrs. intros Hin.
      apply (Hinstrs _ Hin). unfold total_names. apply elem_of_cons. auto.
Qed.

(** The traces of a tile among given traces, by evaluation of the
    tests. *)
Ltac eval_tile_events :=
  repeat match goal with
         | |- context [tile_event ?s ?k ?q ?t] =>
             let b := eval vm_compute in (tile_event s k q t) in
             replace (tile_event s k q t) with b by (vm_compute; reflexivity)
         end.

Ltac solve_traces_of_tile :=
  unfold traces_of_tile; cbn [List.filter]; eval_tile_events; reflexivity.

(** A start trace with cycle 10 and instr_add 5, an end trace with cycle
    25 and instr_add 15. *)
Lemma one_pair_delta_witness :
  exists self' st tile,
    __generate_tile_stats sample_parser
      [sample_trace 1 0 (pack 1 1 0 0 0) 10 5;
       sample_trace 1 0 (pack 2 1 0 0 0) 25 15] = Ok (self', st)
    /\ cell3 (tile_stat st) (0, 0, 0)%nat = Some tile
    /\ counter_get tile "cycle" = 15
    /\ counter_get tile "instr_add" = 10
    /\ counter_get tile "instr_total" = 10.
Proof.
  destruct (is_Ok_inv
              (__generate_tile_stats sample_parser
                 [sample_trace 1 0 (pack 1 1 0 0 0) 10 5;
                  sample_trace 1 0 (pack 2 1 0 0 0) 25 15]))
    as [[self' st] H].
  - vm_compute. reflexivity.
  - destruct (one_pair_delta sample_parser self' _
                (sample_trace 1 0 (pack 1 1 0 0 0) 10 5)
                (sample_trace 1 0 (pack 2 1 0 0 0) 25 15) (0, 0, 0)%nat st H)
      as (tile & Htile & Hops & Htotal).
    + solve_traces_of_tile.
    + vm_compute. reflexivity.
    + vm_compute. reflexivity.
    + apply new_parser_schema.
    + apply new_parser_schema.
    + exists self', st, tile. split; [exact H |]. split; [exact Htile |].
      assert (Hadd : counter_get tile "instr_add" = 10).
      { rewrite Hops; [vm_compute; reflexivity | vm_compute; repeat constructor
                      | apply not_total_name; discriminate]. }
      split.
      { rewrite Hops; [vm_compute; reflexivity | vm_compute; repeat constructor
                      | apply not_total_name; discriminate]. }
      split; [exact Hadd |].
      rewrite Htotal. change (instrs sample_parser) with ["instr_add"].
      cbn [sum_over foldr]. rewrite Hadd. reflexivity.
Defined.

(** C1 as the spec has it fails: one start trace with cycle 10, then one
    end trace with cycle 5, of the same tile; the end minus the start is
    -5 and the tile's cycle is 0. *)
Lemma one_pair_delta_is_not_the_difference :
  traces_of_tile sample_parser (0, 0, 0)%nat
    [sample_trace 1 0 (pack 1 1 0 0 0) 10 5;
     sample_trace 1 0 (pack 2 1 0 0 0) 5 15]
  = [sample_trace 1 0 (pack 1 1 0 0 0) 10 5;
     sample_trace 1 0 (pack 2 1 0 0 0) 5 15]
  /\ tile_event sample_parser CudaStatTag.START (0, 0, 0)%nat
       (sample_trace 1 0 (pack 1 1 0 0 0) 10 5) = true
  /\ tile_event sample_parser CudaStatTag.END (0, 0, 0)%nat
       (sample_trace 1 0 (pack 2 1 0 0 0) 5 15) = true
  /\ col (sample_trace 1 0 (pack 2 1 0 0 0) 5 15) "cycle"
     - col (sample_trace 1 0 (pack 1 1 0 0 0) 10 5) "cycle" = -5
  /\ returned_tile_value
       (__generate_tile_stats sample_parser
          [sample_trace 1 0 (pack 1 1 0 0 0) 10 5;
           sample_trace 1 0 (pack 2 1 0 0 0) 5 15])
       (0, 0, 0)%nat "cycle" = Some 0.
Proof.
  split; [solve_traces_of_tile |]. vm_compute. repeat split; reflexivity.
Qed.

(** *** Differences that are not positive *)

Lemma add_total_lookup_other (total : string) (ops : list string)
    (c : Counter) (k : string) :
  k <> total -> add_total total ops c !! k = c !! k.
Proof.
  intros Hk. unfold add_total. revert c.
  induction ops as [| op ops IH]; intros c; cbn [foldl]; [reflexivity |].
  rewrite IH. unfold counter_iadd. apply lookup_insert_ne. congruence.
Qed.

Lemma add_totals_lookup_other (self : VanillaStatsParser) (c : Counter)
    (k : string) :
  k ∉ total_names -> add_totals self c !! k = c !! k.
Proof.
  intros Hk. unfold total_names in Hk.
  rewrite !not_elem_of_cons in Hk. destruct Hk as (H1 & H2 & H3 & _).
  unfold add_totals. rewrite !add_total_lookup_other by assumption.
  reflexivity.
Qed.

(** C2, as the code has it. The tile's value of an operation (the three
    totals apart) is the pending end value minus the pending start value
    when that is positive, and 0 otherwise; an operation whose end value
    is less than its start value is not in the tile's Counter at all, and
    reads 0. *)
Theorem negative_difference_is_dropped (self self' : VanillaStatsParser)
    (traces : list (gmap string Z)) (st : locals) (q : nat * nat * nat)
    (pending_start pending_end : Counter) (op : string) :
  __generate_tile_stats self traces = Ok (self', st) ->
  cell3 (tile_stat_start st) q = Some pending_start ->
  cell3 (tile_stat_end st) q = Some pending_end ->
  op ∉ total_names ->
  exists tile,
    cell3 (tile_stat st) q = Some tile
    /\ counter_get tile op
       = Z.max 0 (counter_get pending_end op - counter_get pending_start op)
    /\ (counter_get pending_end op < counter_get pending_start op ->
        counter_get tile op = 0 /\ tile !! op = None).
Proof.
  intros H Hs He Hop. apply generate_tile_stats_spec in H.
  destruct H as (_ & Hsh & _ & _ & Htiles & _).
  destruct q as [[t a] b].
  destruct (cell3_lt _ _ _ _ _ _ _ _ (sh_start _ _ Hsh) Hs) as (Q1 & Q2 & Q3).
  destruct (Htiles (t, a, b) Q1 Q2 Q3) as (Hs' & He' & _ & Ht).
  rewrite Hs in Hs'. rewrite He in He'.
  injection Hs' as Hs'. injection He' as He'. subst pending_start pending_end.
  eexists. split; [exact Ht |]. split.
  - rewrite add_totals_other by assumption. apply counter_get_sub.
  - intros Hlt. split.
    + rewrite add_totals_other by assumption. rewrite counter_get_sub. lia.
    + rewrite add_totals_lookup_other by assumption.
      apply counter_sub_dropped. lia.
Qed.

(** The pending snapshots that the method leaves, read at a tile and an
    operation: start and end. *)
Definition returned_pending_values (r : result (VanillaStatsParser * locals))
    (q : nat * nat * nat) (op : string) : option (Z * Z) :=
  match r with
  | Ok (_, st) =>
      match cell3 (tile_stat_start st) q, cell3 (tile_stat_end st) q with
      | Some s, Some e => Some (counter_get s op, counter_get e op)
      | _, _ => None
      end
  | Err _ => None
  end.

(** C2 as the spec has it fails: the pending start has cycle 10, the
    pending end cycle 5; the tile's Counter has no cycle, which reads 0
    and not -5. *)
Lemma negative_difference_is_not_passed_through :
  returned_pending_values
    (__generate_tile_stats sample_parser
       [sample_trace 1 0 (pack 1 1 0 0 0) 10 5;
        sample_trace 1 0 (pack 2 1 0 0 0) 5 15])
    (0, 0, 0)%nat "cycle" = Some (10, 5)
  /\ returned_tile_lookup
       (__generate_tile_stats sample_parser
          [sample_trace 1 0 (pack 1 1 0 0 0) 10 5;
           sample_trace 1 0 (pack 2 1 0 0 0) 5 15])
       (0, 0, 0)%nat "cycle" = Some None
  /\ returned_tile_value
       (__generate_tile_stats sample_parser
          [sample_trace 1 0 (pack 1 1 0 0 0) 10 5;
           sample_trace 1 0 (pack 2 1 0 0 0) 5 15])
       (0, 0, 0)%nat "cycle" = Some 0.
Proof. vm_compute. repeat split; reflexivity. Qed.

Lemma negative_difference_is_dropped_witness :
  exists self' st tile,
    __generate_tile_stats sample_parser
      [sample_trace 1 0 (pack 1 1 0 0 0) 10 5;
       sample_trace 1 0 (pack 2 1 0 0 0) 5 15] = Ok (self', st)
    /\ cell3 (tile_stat st) (0, 0, 0)%nat = Some tile
    /\ counter_get tile "cycle" = 0
    /\ tile !! "cycle" = None.
Proof.
  destruct (is_Ok_inv
              (__generate_tile_stats sample_parser
                 [sample_trace 1 0 (pack 1 1 0 0 0) 10 5;
                  sample_trace 1 0 (pack 2 1 0 0 0) 5 15]))
    as [[self' st] H].
  - vm_compute. reflexivity.
  - destruct (generate_tile_stats_spec _ _ _ _ H)
      as (_ & _ & _ & _ & Htiles & _).
    destruct (Htiles (0, 0, 0)%nat) as (Hs & He & _); [vm_compute; lia ..|].
    destruct (negative_difference_is_dropped sample_parser self' _ st
                (0, 0, 0)%nat _ _ "cycle" H Hs He)
      as (tile & Htile & _ & Hdrop).
    + apply not_total_name; discriminate.
    + destruct Hdrop as [Hzero Hnone]; [vm_compute; reflexivity |].
      exists self', st, tile. auto.
Defined.

(** *** Tile groups *)

Lemma sum_over_cons {A} (f : A -> Z) (a : A) (l : list A) :
  sum_over f (a :: l) = f a + sum_over f l.
Proof. reflexivity. Qed.

Lemma sum_over_app {A} (f : A -> Z) (l l' : list A) :
  sum_over f (l ++ l') = sum_over f l + sum_over f l'.
Proof.
  induction l as [| a l IH]; [reflexivity |].
  cbn [app]. rewrite !sum_over_cons, IH. lia.
Qed.

Lemma accumulated_get (self : VanillaStatsParser) kind g traces
    (c : Counter) (op : string) :
  NoDup (all_ops self) -> op ∈ all_ops self ->
  counter_get (accumulated self kind g traces c) op
  = counter_get c op + column_sum self kind g op traces.
Proof.
  intros Hnd Hop. revert c.
  induction traces as [| trace traces IH]; intros c.
  - unfold accumulated, column_sum. cbn [foldl sum_over foldr]. lia.
  - unfold accumulated, column_sum in *. cbn [foldl].
    rewrite IH, sum_over_cons. unfold group_step.
    destruct (group_event self kind g trace).
    + rewrite add_ops_get, decide_True by assumption. lia.
    + lia.
Qed.

(** What the method returns for a trace stream, read at a tile group and
    an operation: [tile_group_stat[tag][tg_id][op]]. *)
Definition returned_group_value (r : result (VanillaStatsParser * locals))
    (g : nat * nat) (op : string) : option Z :=
  match r with
  | Ok (_, st) => (fun c => counter_get c op) <$> cell2 (tile_group_stat st) g
  | Err _ => None
  end.

Definition returned_num_tile_groups
    (r : result (VanillaStatsParser * locals)) : list Z :=
  match r with
  | Ok (_, st) => num_tile_groups st
  | Err _ => []
  end.

(** C5, as the code has it. For a schema of distinct names, the value of
    an operation (the three totals apart) of the tile group [tg_id] of a
    tag is the sum of the end values minus the sum of the start values of
    the traces of the group when that is positive, and 0 otherwise, as
    long as [tg_id < num_tile_groups[tag]], the number that the method
    returns; the groups from [num_tile_groups[tag]] on are left empty. *)
Theorem group_delta (self self' : VanillaStatsParser)
    (traces : list (gmap string Z)) (st : locals) (g : nat * nat)
    (op : string) :
  __generate_tile_stats self traces = Ok (self', st) ->
  NoDup (all_ops self) ->
  (g.1 < n_tags)%nat -> (g.2 < n_groups)%nat ->
  op ∈ all_ops self -> op ∉ total_names ->
  exists group,
    cell2 (tile_group_stat st) g = Some group
    /\ counter_get group op
       = if group_done (num_tile_groups st) g
         then Z.max 0 (column_sum self CudaStatTag.END g op traces
                       - column_sum self CudaStatTag.START g op traces)
         else 0.
Proof.
  intros H Hnd G1 G2 Hop Hnt. apply generate_tile_stats_spec in H.
  destruct H as (_ & _ & _ & _ & _ & Hgroups & _).
  destruct (Hgroups g G1 G2) as (_ & _ & Hg).
  eexists. split; [exact Hg |].
  destruct (group_done (num_tile_groups st) g); [| reflexivity].
  rewrite add_totals_other by assumption.
  rewrite counter_get_sub, !accumulated_get by assumption.
  unfold counter_get. rewrite lookup_empty. cbn [default]. reflexivity.
Qed.

(** Two tile groups, 0 and 1, each with a start and an end trace: both
    are below [num_tile_groups[0] = 2]. *)
Lemma group_delta_witness :
  exists self' st group,
    __generate_tile_stats sample_parser
      [sample_trace 1 0 (pack 1 1 0 0 0) 10 5;
       sample_trace 1 0 (pack 1 1 0 1 0) 12 6;
       sample_trace 1 0 (pack 2 1 0 1 0) 20 9;
       sample_trace 1 0 (pack 2 1 0 0 0) 30 15] = Ok (self', st)
    /\ cell2 (tile_group_stat st) (0, 1)%nat = Some group
    /\ group_done (num_tile_groups st) (0, 1)%nat = true
    /\ counter_get group "cycle" = 8.
Proof.
  destruct (is_Ok_inv
              (__generate_tile_stats sample_parser
                 [sample_trace 1 0 (pack 1 1 0 0 0) 10 5;
                  sample_trace 1 0 (pack 1 1 0 1 0) 12 6;
                  sample_trace 1 0 (pack 2 1 0 1 0) 20 9;
                  sample_trace 1 0 (pack 2 1 0 0 0) 30 15]))
    as [[self' st] H].
  - vm_compute. reflexivity.
  - destruct (group_delta sample_parser self' _ st (0, 1)%nat "cycle" H)
      as (group & Hgroup & Hvalue).
    + apply (bool_decide_eq_true_1 (NoDup _)). vm_compute. reflexivity.
    + vm_compute. lia.
    + pose proof n_groups_eq. cbn [snd]. lia.
    + vm_compute. repeat constructor.
    + apply not_total_name; discriminate.
    + assert (Hdone : group_done (num_tile_groups st) (0, 1)%nat = true).
      { change (num_tile_groups st)
          with (returned_num_tile_groups (Ok (self', st))).
        rewrite <- H. vm_compute. reflexivity. }
      exists self', st, group. split; [exact H |]. split; [exact Hgroup |].
      split; [exact Hdone |].
      rewrite Hvalue, Hdone. vm_compute. reflexivity.
Defined.

(** C5 as the spec has it fails: the only tile group that the traces
    show is group 1 of tag 0, with a start trace (cycle 10) and an end
    trace (cycle 20).  The method counts one group, so it fills group 0
    only, and group 1 reads 0 instead of 10. *)
Lemma observed_group_is_left_empty :
  group_event sample_parser CudaStatTag.START (0, 1)%nat
    (sample_trace 1 0 (pack 1 1 0 1 0) 10 5) = true
  /\ column_sum sample_parser CudaStatTag.END (0, 1)%nat "cycle"
       [sample_trace 1 0 (pack 1 1 0 1 0) 10 5;
        sample_trace 1 0 (pack 2 1 0 1 0) 20 15]
     - column_sum sample_parser CudaStatTag.START (0, 1)%nat "cycle"
         [sample_trace 1 0 (pack 1 1 0 1 0) 10 5;
          sample_trace 1 0 (pack 2 1 0 1 0) 20 15] = 10
  /\ returned_num_tile_groups
       (__generate_tile_stats sample_parser
          [sample_trace 1 0 (pack 1 1 0 1 0) 10 5;
           sample_trace 1 0 (pack 2 1 0 1 0) 20 15])
     = [1; 0; 0; 0; 0; 0; 0; 0; 0; 0; 0; 0; 0; 0; 0; 0]
  /\ returned_group_value
       (__generate_tile_stats sample_parser
          [sample_trace 1 0 (pack 1 1 0 1 0) 10 5;
           sample_trace 1 0 (pack 2 1 0 1 0) 20 15])
       (0, 1)%nat "cycle" = Some 0.
Proof. vm_compute. repeat split; reflexivity. Qed.

(** * Further properties of the code *)

(** ** CudaStatTag: what the getters can return *)

(** X1. Whatever integer the object holds (a negative one too), the four
    fields stay within their widths: [tag] below [max_tags], [tg_id]
    below [max_tile_groups], [x] and [y] below 64.  So [cst.tag] and
    [cst.tg_id] are always valid indices of the parser's tables. *)
Theorem fields_within_widths (c : CudaStatTag.t) :
  0 <= CudaStatTag.tag c < max_tags
  /\ 0 <= CudaStatTag.tg_id c < max_tile_groups
  /\ 0 <= CudaStatTag.x c < 64
  /\ 0 <= CudaStatTag.y c < 64.
Proof.
  split; [apply tag_range |]. split; [apply tg_id_range |].
  unfold CudaStatTag.x, CudaStatTag.y, CudaStatTag._X_MASK,
    CudaStatTag._Y_MASK.
  rewrite !field_div_mod by (vm_compute; discriminate).
  split; apply (Z.mod_pos_bound _ (2 ^ 6)); lia.
Qed.

(** A field of [raw] is a field of [raw + k * 2^32] when it ends at or
    below bit 32. *)
Lemma field_periodic (raw k i w : Z) :
  0 <= i -> 0 <= w -> i + w <= 32 ->
  Z.land (Z.shiftr (raw + k * 2 ^ 32) i) (Z.shiftl 1 w - 1)
  = Z.land (Z.shiftr raw i) (Z.shiftl 1 w - 1).
Proof.
  intros Hi Hw Hle. rewrite !field_div_mod by assumption.
  replace (k * 2 ^ 32) with (k * 2 ^ (32 - i - w) * 2 ^ w * 2 ^ i).
  - rewrite Z.div_add by (apply Z.pow_nonzero; lia).
    rewrite Z.mod_add by (apply Z.pow_nonzero; lia). reflexivity.
  - rewrite <- !Z.mul_assoc, <- !Z.pow_add_r by lia. f_equal. f_equal. lia.
Qed.

(** X2. Only the 32 low bits of the integer count: adding a multiple of
    [2^32] changes neither the outcome of the constructor (the same stat
    type, or [ValueError] on both) nor any of the four fields. *)
Theorem decode_ignores_high_bits (raw k : Z) :
  match CudaStatTag.init raw, CudaStatTag.init (raw + k * 2 ^ 32) with
  | Ok c, Ok c' =>
      CudaStatTag.statType c' = CudaStatTag.statType c
      /\ CudaStatTag.tag c' = CudaStatTag.tag c
      /\ CudaStatTag.tg_id c' = CudaStatTag.tg_id c
      /\ CudaStatTag.x c' = CudaStatTag.x c
      /\ CudaStatTag.y c' = CudaStatTag.y c
  | Err e, Err e' => e' = e
  | _, _ => False
  end.
Proof.
  unfold CudaStatTag.init, CudaStatTag._TYPE_MASK.
  rewrite field_periodic by (vm_compute; discriminate).
  destruct (CudaStatTag.StatType_of _) as [ty | e]; cbn [bind];
    [| reflexivity].
  unfold CudaStatTag.statType, CudaStatTag.tag, CudaStatTag.tg_id,
    CudaStatTag.x, CudaStatTag.y, CudaStatTag._TAG_MASK,
    CudaStatTag._TG_ID_MASK, CudaStatTag._X_MASK, CudaStatTag._Y_MASK.
  cbn [CudaStatTag.s CudaStatTag.type].
  rewrite !field_periodic by (vm_compute; discriminate).
  repeat split.
Qed.

(** ** parse_header: the four lists *)

(** The three prefixes exclude one another. *)
Lemma prefix_instr_not_miss (item : string) :
  String.prefix "instr_" item = true -> String.prefix "miss_" item = false.
Proof.
  destruct item as [| a item]; [discriminate |]. cbn [String.prefix].
  destruct (Ascii.ascii_dec _ a) as [<- | _]; [| discriminate].
  intros _. reflexivity.
Qed.

Lemma prefix_instr_not_stall (item : string) :
  String.prefix "instr_" item = true -> String.prefix "stall_" item = false.
Proof.
  destruct item as [| a item]; [discriminate |]. cbn [String.prefix].
  destruct (Ascii.ascii_dec _ a) as [<- | _]; [| discriminate].
  intros _. reflexivity.
Qed.

Lemma prefix_miss_not_stall (item : string) :
  String.prefix "miss_" item = true -> String.prefix "stall_" item = false.
Proof.
  destruct item as [| a item]; [discriminate |]. cbn [String.prefix].
  destruct (Ascii.ascii_dec _ a) as [<- | _]; [| discriminate].
  intros _. reflexivity.
Qed.

Lemma parse_header_loop_filters (header : list string)
    (stats instrs misses stalls : list string) :
  parse_header_loop header (stats, instrs, misses, stalls)
  = (stats ++ List.filter
                (fun item => negb (String.prefix "instr_" item)
                             && negb (String.prefix "miss_" item)
                             && negb (String.prefix "stall_" item)) header,
     instrs ++ List.filter
                 (fun item => String.prefix "instr_" item
                              && negb (String.eqb item "instr_total")) header,
     misses ++ List.filter (String.prefix "miss_") header,
     stalls ++ List.filter (String.prefix "stall_") header).
Proof.
  revert stats instrs misses stalls.
  induction header as [| item rest IH]; intros stats instrs misses stalls.
  - cbn [parse_header_loop List.filter]. rewrite !app_nil_r. reflexivity.
  - cbn [parse_header_loop List.filter].
    destruct (String.prefix "instr_" item) eqn:Ei.
    + rewrite (prefix_instr_not_miss item Ei), (prefix_instr_not_stall item Ei).
      destruct (String.eqb item "instr_total"); cbn [negb andb];
        rewrite IH, <- ?app_assoc; reflexivity.
    + destruct (String.prefix "miss_" item) eqn:Em.
      * rewrite (prefix_miss_not_stall item Em). cbn [negb andb].
        rewrite IH, <- ?app_assoc. reflexivity.
      * destruct (String.prefix "stall_" item) eqn:Es; cbn [negb andb];
          rewrite IH, <- ?app_assoc; reflexivity.
Qed.

(** X3. Each of the four lists that [parse_header] returns is the header
    filtered by prefix, in the header's order: [instrs] the columns
    that start with instr_ other than instr_total, [misses] the ones that
    start with miss_, [stalls] the ones that start with stall_, [stats]
    the rest.  instr_total is the only column dropped; a column stall_total
    or miss_total stays in its list. *)
Theorem parse_header_filters (header : list string) :
  parse_header header
  = (List.filter
       (fun item => negb (String.prefix "instr_" item)
                    && negb (String.prefix "miss_" item)
                    && negb (String.prefix "stall_" item)) header,
     List.filter
       (fun item => String.prefix "instr_" item
                    && negb (String.eqb item "instr_total")) header,
     List.filter (String.prefix "miss_") header,
     List.filter (String.prefix "stall_") header).
Proof. unfold parse_header. rewrite parse_header_loop_filters. reflexivity. Qed.

Lemma permutation_into (a : string) (l1 l2 l3 l4 r : list string) :
  l1 ++ l2 ++ l3 ++ l4 ≡ₚ r ->
  ((a :: l1) ++ l2 ++ l3 ++ l4 ≡ₚ a :: r)
  /\ (l1 ++ (a :: l2) ++ l3 ++ l4 ≡ₚ a :: r)
  /\ (l1 ++ l2 ++ (a :: l3) ++ l4 ≡ₚ a :: r)
  /\ (l1 ++ l2 ++ l3 ++ a :: l4 ≡ₚ a :: r).
Proof.
  intros <-. split; [reflexivity |]. split; [| split].
  - cbn [app]. symmetry. apply Permutation_middle.
  - cbn [app]. rewrite (app_assoc l1 l2). symmetry.
    rewrite (app_assoc l1 l2). apply Permutation_middle.
  - rewrite !(app_assoc _ _ (a :: l4)), !(app_assoc _ _ l4). symmetry.
    apply Permutation_middle.
Qed.

(** The operations of a new parser are the columns of the header other
    than instr_total, each as often as the header has it. *)
Lemma all_ops_permutation (dy dx : Z) (header : list string) :
  all_ops (new_parser dy dx header)
  ≡ₚ List.filter (fun item => negb (String.eqb item "instr_total")) header.
Proof.
  unfold new_parser, parse_header. rewrite parse_header_loop_filters.
  cbn [app all_ops].
  induction header as [| item rest IH]; [reflexivity |].
  cbn [List.filter].
  destruct (String.prefix "instr_" item) eqn:Ei.
  - rewrite (prefix_instr_not_miss item Ei), (prefix_instr_not_stall item Ei).
    cbn [negb andb].
    destruct (String.eqb item "instr_total"); cbn [negb]; [exact IH |].
    apply (permutation_into item _ _ _ _ _ IH).
  - assert (Hne : String.eqb item "instr_total" = false).
    { apply String.eqb_neq. intros ->. discriminate Ei. }
    rewrite Hne. cbn [negb andb].
    destruct (String.prefix "miss_" item) eqn:Em.
    + rewrite (prefix_miss_not_stall item Em). cbn [negb andb].
      apply (permutation_into item _ _ _ _ _ IH).
    + destruct (String.prefix "stall_" item) eqn:Es; cbn [negb andb];
        apply (permutation_into item _ _ _ _ _ IH).
Qed.

(** X4. When the columns of the header are distinct and none of them is
    named stall_total or miss_total, the names in [all_ops] are distinct,
    and they still are after [__generate_tile_stats] has added the three
    totals. *)
Theorem distinct_header_distinct_ops (dy dx : Z) (header : list string) :
  NoDup header ->
  "stall_total" ∉ header -> "miss_total" ∉ header ->
  NoDup (all_ops (new_parser dy dx header))
  /\ NoDup (all_ops (with_totals (new_parser dy dx header))).
Proof.
  intros Hnd Hs Hm.
  assert (Hin : forall op, op ∈ all_ops (new_parser dy dx header) ->
                           op ∈ header /\ op <> "instr_total").
  { intros op Hop. rewrite all_ops_permutation in Hop.
    apply list_elem_of_In, filter_In in Hop. destruct Hop as [Hop Hne].
    split; [apply list_elem_of_In; exact Hop |].
    intros ->. discriminate Hne. }
  assert (Hnd' : NoDup (all_ops (new_parser dy dx header))).
  { rewrite all_ops_permutation. apply NoDup_ListNoDup, List.NoDup_filter,
      NoDup_ListNoDup. exact Hnd. }
  split; [exact Hnd' |].
  cbn [with_totals all_ops]. apply NoDup_app. split; [exact Hnd' |]. split.
  - intros op Hop Hin'. destruct (Hin op Hop) as [Hh Hne].
    rewrite !elem_of_cons in Hin'.
    destruct Hin' as [-> | [-> | [-> | Hnil]]];
      [congruence | tauto | tauto | inversion Hnil].
  - apply (bool_decide_eq_true_1 (NoDup _)). vm_compute. reflexivity.
Qed.

Lemma distinct_header_distinct_ops_witness :
  NoDup (all_ops (new_parser 1 1 ["x"; "y"; "tag"; "cycle"; "instr_add"]))
  /\ NoDup (all_ops (with_totals
              (new_parser 1 1 ["x"; "y"; "tag"; "cycle"; "instr_add"]))).
Proof.
  apply distinct_header_distinct_ops.
  - apply (bool_decide_eq_true_1 (NoDup _)). vm_compute. reflexivity.
  - apply (bool_decide_eq_true_1 (_ ∉ _)). vm_compute. reflexivity.
  - apply (bool_decide_eq_true_1 (_ ∉ _)). vm_compute. reflexivity.
Defined.

(** ** __generate_manycore_stats_all: the roll-up over the grid *)

Lemma add_ops_get_count (ops : list string) (trace : gmap string Z)
    (c : Counter) (k : string) :
  counter_get (add_ops ops trace c) k
  = counter_get c k + occurrences k ops * col trace k.
Proof.
  unfold add_ops, occurrences. revert c.
  induction ops as [| op ops IH]; intros c; cbn [foldl sum_over foldr];
    [lia |].
  fold (sum_over (fun o => if decide (o = k) then 1 else 0) ops).
  rewrite IH, counter_get_iadd.
  destruct (decide (op = k)) as [-> | Hne]; lia.
Qed.

(** The loop over the operations that adds a tile into the Counter of
    its tag. *)
Lemma add_tile_ops_loop (T : list (list (list Counter))) (tag y x : Z)
    (n m p : nat) (t a b : nat) (c : Counter) (ops : list string) :
  rect3 n m p T ->
  index n tag = Ok t -> index m y = Ok a -> index p x = Ok b ->
  cell3 T (t, a, b) = Some c ->
  forall (M : list Counter) (m0 : Counter),
    length M = n -> M !! t = Some m0 ->
    exists M',
      for_each (add_tile_op T tag y x) ops M = Ok M'
      /\ length M' = n
      /\ forall t', M' !! t'
                    = if decide (t = t') then Some (add_ops ops c m0)
                      else M !! t'.
Proof.
  intros HT Ht Ha Hb Hc.
  induction ops as [| op ops IH]; intros M m0 HM Hm0.
  - exists M. cbn [for_each]. split; [reflexivity |]. split; [assumption |].
    intros t'. destruct (decide (t = t')) as [<- |];
      [assumption | reflexivity].
  - cbn [for_each]. unfold add_tile_op at 1.
    rewrite (getitem_Ok M tag t m0) by (rewrite ?HM; assumption).
    cbn [bind].
    rewrite (get3_rect n m p T tag y x t a b c) by assumption. cbn [bind].
    rewrite (setitem_Ok M tag t) by (rewrite ?HM; assumption). cbn [bind].
    destruct (IH (<[t := counter_iadd m0 op (counter_get c op)]> M)
                 (counter_iadd m0 op (counter_get c op)))
      as (M' & Hrun & HM' & Hc').
    + rewrite length_insert. assumption.
    + apply list_lookup_insert_eq. rewrite HM. eapply index_lt; eauto.
    + exists M'. split; [exact Hrun |]. split; [assumption |].
      intros t'. rewrite Hc'. destruct (decide (t = t')) as [Heq | Hne].
      * reflexivity.
      * apply list_lookup_insert_ne. assumption.
Qed.

Lemma sum_over_bind {A B} (f : B -> Z) (g : A -> list B) (l : list A) :
  sum_over f (l ≫= g) = sum_over (fun a => sum_over f (g a)) l.
Proof.
  induction l as [| a l IH]; [reflexivity |].
  rewrite bind_cons, sum_over_app, sum_over_cons, IH. reflexivity.
Qed.

Lemma sum_over_ext {A} (f g : A -> Z) (l : list A) :
  (forall a, a ∈ l -> f a = g a) -> sum_over f l = sum_over g l.
Proof.
  induction l as [| a l IH]; intros H; [reflexivity |].
  rewrite !sum_over_cons, IH, (H a).
  - reflexivity.
  - apply elem_of_cons. auto.
  - intros a' Ha'. apply H. apply elem_of_cons. auto.
Qed.

Lemma sum_over_zero {A} (l : list A) : sum_over (fun _ => 0) l = 0.
Proof.
  induction l as [| a l IH]; [reflexivity |].
  rewrite sum_over_cons, IH. reflexivity.
Qed.

(** The part of a sum over [range] that one index selects. *)
Lemma sum_over_range_from_select (G : Z -> Z) (t : Z) (start : Z)
    (count : nat) :
  sum_over (fun a => if decide (a = t) then G a else 0)
           (range_from start count)
  = if decide (start <= t < start + Z.of_nat count) then G t else 0.
Proof.
  revert start. induction count as [| n IH]; intros start.
  - cbn [range_from sum_over foldr]. rewrite decide_False by lia. reflexivity.
  - cbn [range_from]. rewrite sum_over_cons, IH.
    destruct (decide (start = t)) as [-> | Hne].
    + rewrite decide_False by lia. rewrite decide_True by lia. lia.
    + destruct (decide (start + 1 <= t < start + 1 + Z.of_nat n)).
      * rewrite decide_True by lia. lia.
      * rewrite decide_False by lia. lia.
Qed.

Lemma sum_over_range_select (G : Z -> Z) (t n : Z) :
  0 <= t < n ->
  sum_over (fun a => if decide (a = t) then G a else 0) (range n) = G t.
Proof.
  intros Ht. unfold range. rewrite sum_over_range_from_select.
  rewrite decide_True by lia. reflexivity.
Qed.

Lemma sum_over_triples_select (F : Z -> Z -> Z -> Z) (t n m p : Z) :
  0 <= t < n ->
  sum_over (fun tr => if decide (tr.1.1 = t) then F tr.1.1 tr.1.2 tr.2 else 0)
           (triples (range n) (range m) (range p))
  = sum_over (fun y => sum_over (fun x => F t y x) (range p)) (range m).
Proof.
  intros Ht. unfold triples. rewrite sum_over_bind.
  rewrite (sum_over_ext _
             (fun a => if decide (a = t)
                       then sum_over (fun y => sum_over (fun x => F a y x)
                                                        (range p)) (range m)
                       else 0)).
  - apply (sum_over_range_select
             (fun a => sum_over (fun y => sum_over (fun x => F a y x)
                                                   (range p)) (range m))).
    exact Ht.
  - intros a _. rewrite sum_over_bind.
    destruct (decide (a = t)) as [-> | Hne].
    + apply sum_over_ext. intros y _. rewrite sum_over_bind.
      apply sum_over_ext. intros x _. cbn [sum_over foldr fst snd].
      rewrite decide_True by reflexivity. lia.
    + rewrite (sum_over_ext _ (fun _ => 0)); [apply sum_over_zero |].
      intros y _. rewrite sum_over_bind.
      rewrite (sum_over_ext _ (fun _ => 0)); [apply sum_over_zero |].
      intros x _. cbn [sum_over foldr fst snd].
      rewrite decide_False by assumption. reflexivity.
Qed.

(** The roll-up on a table of the right shape. *)
Lemma rollup_spec (self : VanillaStatsParser)
    (T : list (list (list Counter))) :
  rect3 n_tags (dim_y self) (dim_x self) T ->
  exists M,
    __generate_manycore_stats_all self T = Ok M
    /\ length M = n_tags
    /\ forall tag op,
         0 <= tag < max_tags ->
         exists m,
           getitem M tag = Ok m
           /\ counter_get m op
              = occurrences op (all_ops self)
                * sum_over
                    (fun y => sum_over (fun x => tile_value T tag y x op)
                                       (range (manycore_dim_x self)))
                    (range (manycore_dim_y self)).
Proof.
  intros HT. unfold __generate_manycore_stats_all.
  rewrite for_each3_triples.
  set (l := triples (range max_tags) (range (manycore_dim_y self))
                    (range (manycore_dim_x self))).
  pose (P := fun (done : list (Z * Z * Z)) (M : list Counter) =>
    length M = n_tags
    /\ forall t m, M !! t = Some m ->
         forall op,
           counter_get m op
           = occurrences op (all_ops self)
             * sum_over (fun tr => if decide (tr.1.1 = Z.of_nat t)
                                   then tile_value T tr.1.1 tr.1.2 tr.2 op
                                   else 0) done).
  destruct (for_each_invariant P
              (fun M tr => for_each (add_tile_op T tr.1.1 tr.1.2 tr.2)
                                    (all_ops self) M)
              l (map (fun _ => (∅ : Counter)) (range max_tags)))
    as (M & Hrun & HM & Hcells).
  - split.
    + rewrite length_map, range_length. reflexivity.
    + intros t m Hm op. rewrite (map_const_replicate (∅ : Counter)) in Hm.
      apply lookup_replicate in Hm. destruct Hm as [-> _].
      cbn [sum_over foldr]. rewrite Z.mul_0_r. reflexivity.
  - intros done [[tag y] x] todo M Hl (HM & Hcells). cbn [fst snd].
    assert (Hin : (tag, y, x) ∈ l).
    { rewrite Hl. apply elem_of_app. right. apply elem_of_cons. auto. }
    unfold l in Hin. apply elem_of_triples in Hin.
    rewrite !elem_of_range in Hin. destruct Hin as (Htag & Hy & Hx).
    pose proof (index_range_Z max_tags tag Htag) as It. fold n_tags in It.
    pose proof (index_range_Z _ y Hy) as Iy. fold (dim_y self) in Iy.
    pose proof (index_range_Z _ x Hx) as Ix. fold (dim_x self) in Ix.
    destruct (rect3_cell _ _ _ T _ _ _ HT (index_lt _ _ _ It)
                (index_lt _ _ _ Iy) (index_lt _ _ _ Ix)) as [c Hc].
    destruct (lookup_lt_is_Some_2 M (Z.to_nat tag)) as [m0 Hm0].
    { rewrite HM. exact (index_lt _ _ _ It). }
    destruct (add_tile_ops_loop T tag y x _ _ _ _ _ _ c (all_ops self)
                HT It Iy Ix Hc M m0 HM Hm0) as (M' & Hrun & HM' & Hc').
    exists M'. split; [exact Hrun |]. split; [exact HM' |].
    intros t m Hm op. rewrite sum_over_app, sum_over_cons. cbn [fst snd].
    cbn [sum_over foldr]. rewrite Hc' in Hm.
    destruct (decide (Z.to_nat tag = t)) as [<- | Hne].
    + injection Hm as <-. rewrite add_ops_get_count.
      rewrite (Hcells _ m0 Hm0 op).
      rewrite decide_True by lia.
      unfold tile_value.
      rewrite (get3_rect _ _ _ T tag y x _ _ _ c HT It Iy Ix Hc).
      unfold col, counter_get. lia.
    + rewrite (Hcells t m Hm op). rewrite decide_False by lia. lia.
  - exists M. split; [exact Hrun |]. split; [exact HM |].
    intros tag op Htag.
    pose proof (index_range_Z max_tags tag Htag) as It. fold n_tags in It.
    destruct (lookup_lt_is_Some_2 M (Z.to_nat tag)) as [m Hm].
    { rewrite HM. exact (index_lt _ _ _ It). }
    exists m. split.
    + apply (getitem_Ok M tag (Z.to_nat tag) m); [rewrite HM |]; assumption.
    + rewrite (Hcells _ m Hm op). rewrite Z2Nat.id by lia. f_equal.
      apply (sum_over_triples_select
               (fun a y x => tile_value T a y x op)). exact Htag.
Qed.

(** X5. On a table of [max_tags] planes of [manycore_dim_y] rows of
    [manycore_dim_x] Counters the roll-up raises nothing, and the Counter
    of a tag holds, for every name, the sum of the tiles' values over the
    grid times the number of times the name is in [all_ops]: 0 for a name
    that is not an operation, the plain sum for one listed once, a
    multiple for one listed more than once. *)
Theorem manycore_stat_sums_tiles (self : VanillaStatsParser)
    (T : list (list (list Counter))) :
  rect3 n_tags (dim_y self) (dim_x self) T ->
  exists M,
    __generate_manycore_stats_all self T = Ok M
    /\ length M = n_tags
    /\ forall tag op,
         0 <= tag < max_tags ->
         exists m,
           getitem M tag = Ok m
           /\ counter_get m op
              = occurrences op (all_ops self)
                * sum_over
                    (fun y => sum_over (fun x => tile_value T tag y x op)
                                       (range (manycore_dim_x self)))
                    (range (manycore_dim_y self)).
Proof.
  intros HT. destruct (rollup_spec self T HT) as (M & Hrun & HM & Hall).
  exists M. split; [exact Hrun |]. split; [exact HM |]. exact Hall.
Qed.

Lemma manycore_stat_sums_tiles_witness :
  exists M m,
    __generate_manycore_stats_all
      (new_parser 2 1 ["cycle"; "cycle"; "instr_add"])
      (new_tile_table (new_parser 2 1 ["cycle"; "cycle"; "instr_add"])
                      (<["cycle" := 5]> (<["instr_add" := 3]> ∅)))
    = Ok M
    /\ getitem M 3 = Ok m
    /\ counter_get m "cycle" = 20
    /\ counter_get m "instr_add" = 6
    /\ counter_get m "stall_fp" = 0.
Proof.
  destruct (manycore_stat_sums_tiles
              (new_parser 2 1 ["cycle"; "cycle"; "instr_add"])
              (new_tile_table (new_parser 2 1 ["cycle"; "cycle"; "instr_add"])
                              (<["cycle" := 5]> (<["instr_add" := 3]> ∅))))
    as (M & Hrun & _ & Hall).
  - rewrite new_tile_table_replicate. apply rect3_replicate.
  - destruct (Hall 3 "cycle") as (m & Hm & Hcycle);
      [vm_compute; split; [discriminate | reflexivity] |].
    destruct (Hall 3 "instr_add") as (m1 & Hm1 & Hadd);
      [vm_compute; split; [discriminate | reflexivity] |].
    destruct (Hall 3 "stall_fp") as (m2 & Hm2 & Hfp);
      [vm_compute; split; [discriminate | reflexivity] |].
    rewrite Hm in Hm1, Hm2. injection Hm1 as <-. injection Hm2 as <-.
    exists M, m. split; [exact Hrun |]. split; [exact Hm |].
    split; [rewrite Hcycle; vm_compute; reflexivity |].
    split; [rewrite Hadd; vm_compute; reflexivity |].
    rewrite Hfp. vm_compute. reflexivity.
Defined.

(** ** __generate_tile_stats: what the returned tables hold *)

Lemma read3_Some (T : list (list (list Counter))) q c :
  cell3 T q = Some c -> read3 T q = c.
Proof. intros H. unfold read3. rewrite H. reflexivity. Qed.

Lemma read2_Some (T : list (list Counter)) g c :
  cell2 T g = Some c -> read2 T g = c.
Proof. intros H. unfold read2. rewrite H. reflexivity. Qed.

Lemma snapshot_last_trace (self : VanillaStatsParser) kind q traces op :
  op ∈ all_ops self ->
  counter_get (snapshot self kind q traces ∅) op
  = col (last_trace self kind q traces) op.
Proof.
  intros Hop. unfold last_trace. rewrite snapshot_filter.
  assert (Hall : Forall (fun t => tile_event self kind q t = true)
                        (List.filter (tile_event self kind q) traces)).
  { apply Forall_forall. intros t Ht.
    apply list_elem_of_In, filter_In in Ht. apply Ht. }
  destruct (List.filter (tile_event self kind q) traces) as [| t0 l]
    using rev_ind; [reflexivity |].
  apply Forall_app in Hall. destruct Hall as [_ Hlast].
  apply Forall_cons in Hlast. destruct Hlast as [Hlast _].
  unfold counter_get. rewrite (snapshot_last self kind q l t0 op Hlast).
  rewrite decide_True by assumption. rewrite List.last_last. reflexivity.
Qed.

(** X6. The value that a tile of the grid reports for an operation of
    the schema (the three totals apart) is the value in the tile's last
    end trace minus the value in its last start trace when that is
    positive, and 0 otherwise; a tile without an end (start) trace counts
    0 for it.  Earlier traces of the tile, and the traces of other
    tiles, play no part. *)
Theorem tile_value_of_last_traces (self self' : VanillaStatsParser)
    (traces : list (gmap string Z)) (st : locals)
    (q : nat * nat * nat) (op : string) :
  __generate_tile_stats self traces = Ok (self', st) ->
  (q.1.1 < n_tags)%nat -> (q.1.2 < dim_y self)%nat ->
  (q.2 < dim_x self)%nat ->
  op ∈ all_ops self -> op ∉ total_names ->
  counter_get (read3 (tile_stat st) q) op
  = Z.max 0 (col (last_trace self CudaStatTag.END q traces) op
             - col (last_trace self CudaStatTag.START q traces) op).
Proof.
  intros H Q1 Q2 Q3 Hop Hnt. apply generate_tile_stats_spec in H.
  destruct H as (_ & _ & _ & _ & Htiles & _).
  destruct (Htiles q Q1 Q2 Q3) as (_ & _ & _ & Ht).
  rewrite (read3_Some _ _ _ Ht).
  rewrite add_totals_other by assumption.
  rewrite counter_get_sub, !snapshot_last_trace by assumption. reflexivity.
Qed.

(** Two start traces (cycle 10, then 12) and two end traces (cycle 25,
    then 30) of one tile: the tile reports 30 - 12. *)
Lemma tile_value_of_last_traces_witness :
  exists self' st,
    __generate_tile_stats sample_parser
      [sample_trace 1 0 (pack 1 1 0 0 0) 10 5;
       sample_trace 1 0 (pack 1 1 0 0 0) 12 6;
       sample_trace 1 0 (pack 2 1 0 0 0) 25 15;
       sample_trace 1 0 (pack 2 1 0 0 0) 30 20] = Ok (self', st)
    /\ counter_get (read3 (tile_stat st) (0, 0, 0)%nat) "cycle" = 18.
Proof.
  destruct (is_Ok_inv
              (__generate_tile_stats sample_parser
                 [sample_trace 1 0 (pack 1 1 0 0 0) 10 5;
                  sample_trace 1 0 (pack 1 1 0 0 0) 12 6;
                  sample_trace 1 0 (pack 2 1 0 0 0) 25 15;
                  sample_trace 1 0 (pack 2 1 0 0 0) 30 20]))
    as [[self' st] H].
  - vm_compute. reflexivity.
  - exists self', st. split; [exact H |].
    rewrite (tile_value_of_last_traces sample_parser self' _ st
               (0, 0, 0)%nat "cycle" H).
    + vm_compute. reflexivity.
    + vm_compute. lia.
    + vm_compute. lia.
    + vm_compute. lia.
    + vm_compute. repeat constructor.
    + apply not_total_name; discriminate.
Defined.

Lemma add_total_nonneg (total : string) (ops : list string) (c : Counter) :
  (forall k, 0 <= counter_get c k) ->
  forall k, 0 <= counter_get (add_total total ops c) k.
Proof.
  unfold add_total. revert c.
  induction ops as [| op ops IH]; intros c Hc; cbn [foldl]; [exact Hc |].
  apply IH. intros k. rewrite counter_get_iadd.
  pose proof (Hc total). pose proof (Hc op). pose proof (Hc k).
  destruct (decide (total = k)); lia.
Qed.

Lemma add_totals_nonneg (self : VanillaStatsParser) (c : Counter) :
  (forall k, 0 <= counter_get c k) ->
  forall k, 0 <= counter_get (add_totals self c) k.
Proof.
  intros Hc. unfold add_totals. do 3 apply add_total_nonneg. exact Hc.
Qed.

Lemma counter_sub_nonneg (a b : Counter) (k : string) :
  0 <= counter_get (counter_sub a b) k.
Proof. rewrite counter_get_sub. lia. Qed.

(** X7. No statistic that the method returns is negative: every value of
    every Counter of [tile_stat] and of [tile_group_stat], the totals
    included, is 0 or more, whatever the traces hold (decreasing or
    negative counters too). *)
Theorem statistics_are_never_negative (self self' : VanillaStatsParser)
    (traces : list (gmap string Z)) (st : locals) :
  __generate_tile_stats self traces = Ok (self', st) ->
  forall op,
    (forall q, 0 <= counter_get (read3 (tile_stat st) q) op)
    /\ (forall g, 0 <= counter_get (read2 (tile_group_stat st) g) op).
Proof.
  intros H op. apply generate_tile_stats_spec in H.
  destruct H as (_ & Hsh & _ & _ & Htiles & Hgroups & _). split.
  - intros [[t a] b].
    destruct (cell3 (tile_stat st) (t, a, b)) as [c |] eqn:Hc;
      [| unfold read3; rewrite Hc; reflexivity].
    destruct (cell3_lt _ _ _ _ _ _ _ _ (sh_stat _ _ Hsh) Hc) as (Q1 & Q2 & Q3).
    destruct (Htiles (t, a, b) Q1 Q2 Q3) as (_ & _ & _ & Ht).
    rewrite (read3_Some _ _ _ Ht).
    apply add_totals_nonneg. intros k. apply counter_sub_nonneg.
  - intros [t g].
    destruct (cell2 (tile_group_stat st) (t, g)) as [c |] eqn:Hc;
      [| unfold read2; rewrite Hc; reflexivity].
    destruct (cell2_lt _ _ _ _ _ _ (sh_group_stat _ _ Hsh) Hc) as (Q1 & Q2).
    destruct (Hgroups (t, g) Q1 Q2) as (_ & _ & Ht).
    rewrite (read2_Some _ _ _ Ht).
    destruct (group_done (num_tile_groups st) (t, g)); [| reflexivity].
    apply add_totals_nonneg. intros k. apply counter_sub_nonneg.
Qed.

(** A counter that decreases between the start and the end of a tile. *)
Lemma statistics_are_never_negative_witness :
  exists self' st,
    __generate_tile_stats sample_parser
      [sample_trace 1 0 (pack 1 1 0 0 0) 10 5;
       sample_trace 1 0 (pack 2 1 0 0 0) 5 15] = Ok (self', st)
    /\ 0 <= counter_get (read3 (tile_stat st) (0, 0, 0)%nat) "cycle"
    /\ 0 <= counter_get (read2 (tile_group_stat st) (0, 0)%nat) "cycle".
Proof.
  destruct (is_Ok_inv
              (__generate_tile_stats sample_parser
                 [sample_trace 1 0 (pack 1 1 0 0 0) 10 5;
                  sample_trace 1 0 (pack 2 1 0 0 0) 5 15]))
    as [[self' st] H].
  - vm_compute. reflexivity.
  - exists self', st. split; [exact H |].
    destruct (statistics_are_never_negative sample_parser self' _ st H
                "cycle") as [Htile Hgroup].
    split; [apply Htile | apply Hgroup].
Defined.

(** A trace of stat type STAT that raises nothing changes nothing. *)
Lemma process_trace_stat (self : VanillaStatsParser) (st st' : locals)
    (trace : gmap string Z) :
  is_stat_trace trace = true ->
  process_trace self st trace = Ok st' -> st' = st.
Proof.
  unfold is_stat_trace, process_trace, dict_get. intros Hstat H.
  destruct (trace !! "y") as [y |]; [| discriminate]. cbn [bind] in H.
  destruct (trace !! "x") as [x |]; [| discriminate]. cbn [bind] in H.
  destruct (trace !! "tag") as [tag |]; [| discriminate]. cbn [bind] in H.
  destruct (CudaStatTag.init tag) as [cst | e]; [| discriminate].
  cbn [bind] in H.
  assert (Hs : CudaStatTag.isStart cst = false)
    by (revert Hstat; unfold CudaStatTag.isStat, CudaStatTag.isStart;
        destruct (CudaStatTag.type cst); [reflexivity | discriminate ..]).
  assert (He : CudaStatTag.isEnd cst = false)
    by (revert Hstat; unfold CudaStatTag.isStat, CudaStatTag.isEnd;
        destruct (CudaStatTag.type cst); [reflexivity | discriminate ..]).
  rewrite Hs, He in H. congruence.
Qed.

Lemma read_traces_without_stat (self : VanillaStatsParser)
    (traces : list (gmap string Z)) (s s' : locals) :
  for_each (process_trace self) traces s = Ok s' ->
  for_each (process_trace self)
           (List.filter (fun trace => negb (is_stat_trace trace)) traces) s
  = Ok s'.
Proof.
  revert s. induction traces as [| trace traces IH]; intros s H;
    [exact H |].
  cbn [for_each] in H. inv_bind H. cbn [List.filter].
  destruct (is_stat_trace trace) eqn:E; cbn [negb].
  - rewrite (process_trace_stat self s v trace E) in *; [| assumption ..].
    apply IH. assumption.
  - cbn [for_each]. rewrite Hv. cbn [bind]. apply IH. assumption.
Qed.

(** X8. Traces of stat type STAT play no part: when the method returns
    on a list of traces, it returns the same (tables, counts, warnings
    and schema) on the list without its STAT traces. *)
Theorem stat_traces_are_ignored (self : VanillaStatsParser)
    (traces : list (gmap string Z)) (r : VanillaStatsParser * locals) :
  __generate_tile_stats self traces = Ok r ->
  __generate_tile_stats self
    (List.filter (fun trace => negb (is_stat_trace trace)) traces) = Ok r.
Proof.
  unfold __generate_tile_stats, read_traces. intros H. inv_bind H.
  rewrite (read_traces_without_stat self traces _ v) by assumption.
  exact H.
Qed.

(** A STAT trace between the start and the end trace of a tile. *)
Lemma stat_traces_are_ignored_witness :
  exists r,
    __generate_tile_stats sample_parser
      [sample_trace 1 0 (pack 1 1 0 0 0) 10 5;
       sample_trace 1 0 (pack 0 1 0 0 0) 17 9;
       sample_trace 1 0 (pack 2 1 0 0 0) 25 15] = Ok r
    /\ List.filter (fun trace => negb (is_stat_trace trace))
         [sample_trace 1 0 (pack 1 1 0 0 0) 10 5;
          sample_trace 1 0 (pack 0 1 0 0 0) 17 9;
          sample_trace 1 0 (pack 2 1 0 0 0) 25 15]
       = [sample_trace 1 0 (pack 1 1 0 0 0) 10 5;
          sample_trace 1 0 (pack 2 1 0 0 0) 25 15]
    /\ __generate_tile_stats sample_parser
         (List.filter (fun trace => negb (is_stat_trace trace))
            [sample_trace 1 0 (pack 1 1 0 0 0) 10 5;
             sample_trace 1 0 (pack 0 1 0 0 0) 17 9;
             sample_trace 1 0 (pack 2 1 0 0 0) 25 15]) = Ok r.
Proof.
  destruct (is_Ok_inv
              (__generate_tile_stats sample_parser
                 [sample_trace 1 0 (pack 1 1 0 0 0) 10 5;
                  sample_trace 1 0 (pack 0 1 0 0 0) 17 9;
                  sample_trace 1 0 (pack 2 1 0 0 0) 25 15]))
    as [r H].
  - vm_compute. reflexivity.
  - exists r. split; [exact H |]. split.
    + cbn [List.filter].
      replace (is_stat_trace (sample_trace 1 0 (pack 1 1 0 0 0) 10 5))
        with false by (vm_compute; reflexivity).
      replace (is_stat_trace (sample_trace 1 0 (pack 0 1 0 0 0) 17 9))
        with true by (vm_compute; reflexivity).
      replace (is_stat_trace (sample_trace 1 0 (pack 2 1 0 0 0) 25 15))
        with false by (vm_compute; reflexivity).
      reflexivity.
    + apply stat_traces_are_ignored. exact H.
Defined.

(** ** __generate_inclusive_tile_stat: the last traces, backwards *)

Lemma range_from_add (start : Z) (a b : nat) :
  range_from start (a + b)
  = range_from start a ++ range_from (start + Z.of_nat a) b.
Proof.
  revert start. induction a as [| a IH]; intros start.
  - cbn [Nat.add range_from app]. f_equal. lia.
  - cbn [Nat.add range_from app]. rewrite IH. do 3 f_equal. lia.
Qed.

Lemma range_split (n k : Z) :
  0 <= k < n -> exists rest, range n = range k ++ k :: rest.
Proof.
  intros H. unfold range.
  replace (Z.to_nat n) with (Z.to_nat k + S (Z.to_nat (n - k - 1)))%nat
    by lia.
  rewrite range_from_add. cbn [range_from]. rewrite Z2Nat.id by lia.
  eexists. reflexivity.
Qed.

Lemma range_from_app_inv (start : Z) (count : nat) done a todo :
  range_from start count = done ++ a :: todo ->
  a = start + Z.of_nat (length done) /\ (length done < count)%nat.
Proof.
  revert start count. induction done as [| d done IH]; intros start count H.
  - destruct count as [| count]; [discriminate |]. cbn in H.
    injection H as <- _. cbn [length]. lia.
  - destruct count as [| count]; [discriminate |].
    cbn [range_from app] in H. injection H as _ H.
    destruct (IH _ _ H) as [-> Hlt]. cbn [length]. lia.
Qed.

Lemma range_app_inv (n : Z) done a todo :
  range n = done ++ a :: todo ->
  a = Z.of_nat (length done) /\ 0 <= a < n.
Proof.
  unfold range. intros H. apply range_from_app_inv in H.
  destruct H as [-> Hlt]. lia.
Qed.

Lemma getitem_in_bounds {A} (l : list A) (i : Z) :
  - Z.of_nat (length l) <= i < Z.of_nat (length l) ->
  exists a, getitem l i = Ok a /\ a ∈ l.
Proof.
  intros H. unfold getitem.
  assert (Hi : exists n, index (length l) i = Ok n).
  { destruct (Z.lt_ge_cases i 0).
    - eexists. apply index_negative. lia.
    - eexists. apply index_range. lia. }
  destruct Hi as [n Hn]. rewrite Hn. cbn [bind].
  destruct (lookup_lt_is_Some_2 l n (index_lt _ _ _ Hn)) as [a Ha].
  rewrite Ha. exists a. split; [reflexivity |].
  eapply list_elem_of_lookup_2. exact Ha.
Qed.

Lemma getitem_out_of_bounds {A} (l : list A) (i : Z) :
  i < - Z.of_nat (length l) \/ Z.of_nat (length l) <= i ->
  getitem l i = Err IndexError.
Proof.
  intros H. unfold getitem, index.
  replace ((0 <=? i) && (i <? Z.of_nat (length l))) with false
    by (symmetry; apply andb_false_iff;
        destruct (Z.leb_spec 0 i); [right; apply Z.ltb_ge; lia | auto]).
  replace ((- Z.of_nat (length l) <=? i) && (i <? 0)) with false
    by (symmetry; apply andb_false_iff;
        destruct (Z.ltb_spec i 0); [left; apply Z.leb_gt; lia | auto]).
  reflexivity.
Qed.

Lemma for_each_Err {A S} (body : S -> A -> result S) (done todo : list A)
    (a : A) (s s1 : S) (e : error) :
  for_each body done s = Ok s1 -> body s1 a = Err e ->
  for_each body (done ++ a :: todo) s = Err e.
Proof.
  intros Hdone Ha. rewrite for_each_app, Hdone. cbn [bind for_each].
  rewrite Ha. reflexivity.
Qed.

(** The loop over the operations writes the trace into the tile. *)
Lemma inclusive_ops_loop (trace : gmap string Z) (y x : Z) (m p a b : nat)
    (ops : list string) :
  index m y = Ok a -> index p x = Ok b ->
  Forall (fun op => is_Some (trace !! op)) ops ->
  forall (T : list (list Counter)) (c : Counter),
    rect2 m p T -> cell2 T (a, b) = Some c ->
    exists T',
      for_each (inclusive_op trace y x) ops T = Ok T'
      /\ rect2 m p T'
      /\ forall g, cell2 T' g
                   = if decide ((a, b) = g)
                     then Some (write_ops ops trace c) else cell2 T g.
Proof.
  intros Ha Hb Hkeys.
  induction Hkeys as [| op ops [v Hv] _ IH]; intros T c HT Hc.
  - exists T. cbn [for_each]. split; [reflexivity |].
    split; [assumption |]. intros g.
    destruct (decide ((a, b) = g)) as [<- |]; [exact Hc | reflexivity].
  - cbn [for_each]. unfold inclusive_op at 1. unfold dict_get. rewrite Hv.
    cbn [bind].
    rewrite (get2_rect m p T y x a b c HT Ha Hb Hc). cbn [bind].
    rewrite (set2_rect m p T y x a b _ HT Ha Hb). cbn [bind].
    destruct (IH (insert2 (a, b) (counter_set c op v) T)
                 (counter_set c op v)) as (T' & Hrun & HT' & Hcells).
    + apply rect2_insert2. assumption.
    + rewrite cell2_insert2 by (rewrite Hc; eauto).
      rewrite decide_True by reflexivity. reflexivity.
    + exists T'. split; [exact Hrun |]. split; [exact HT' |].
      intros g. rewrite Hcells.
      destruct (decide ((a, b) = g)) as [<- | Hne].
      * unfold write_ops. cbn [foldl]. unfold col. rewrite Hv. reflexivity.
      * rewrite cell2_insert2 by (rewrite Hc; eauto).
        rewrite decide_False by assumption. reflexivity.
Qed.

(** The first [c] tiles of a row. *)
Lemma inclusive_row (self : VanillaStatsParser)
    (traces : list (gmap string Z)) (y : Z) (a m : nat) (c : Z)
    (T0 : list (list Counter)) (i0 : Z) :
  complete_traces self traces ->
  rect2 m (dim_x self) T0 -> index m y = Ok a ->
  (forall b, (b < dim_x self)%nat -> cell2 T0 (a, b) = Some ∅) ->
  0 <= c <= manycore_dim_x self ->
  (forall x, 0 <= x < c ->
     - Z.of_nat (length traces) <= i0 - 1 - x < Z.of_nat (length traces)) ->
  exists T',
    for_each (inclusive_tile self traces y) (range c) (T0, i0)
    = Ok (T', i0 - c)
    /\ rect2 m (dim_x self) T'
    /\ forall g, cell2 T' g
                 = if decide (g.1 = a /\ Z.of_nat g.2 < c)
                   then Some (write_ops (all_ops self)
                                (trace_at traces (i0 - 1 - Z.of_nat g.2)) ∅)
                   else cell2 T0 g.
Proof.
  intros Hkeys HT0 Ha Hempty Hc Hidx.
  pose (P := fun (done : list Z) (s : list (list Counter) * Z) =>
    s.2 = i0 - Z.of_nat (length done)
    /\ rect2 m (dim_x self) s.1
    /\ forall g, cell2 s.1 g
                 = if decide (g.1 = a /\ (g.2 < length done)%nat)
                   then Some (write_ops (all_ops self)
                                (trace_at traces (i0 - 1 - Z.of_nat g.2)) ∅)
                   else cell2 T0 g).
  destruct (for_each_invariant P (inclusive_tile self traces y) (range c)
              (T0, i0)) as ([T' i'] & Hrun & Hi' & HT' & Hcells).
  - split; [cbn; lia |]. split; [exact HT0 |]. intros g. cbn [fst length].
    rewrite decide_False by lia. reflexivity.
  - intros done x todo [T i] Hl (Hi & HT & Hcells). cbn [fst snd] in *.
    apply range_app_inv in Hl. destruct Hl as [Hx Hxc].
    unfold inclusive_tile. cbn [fst snd].
    destruct (getitem_in_bounds traces (i - 1)) as (trace & Htrace & Hin).
    { pose proof (Hidx x Hxc). lia. }
    rewrite Htrace. cbn [bind].
    assert (Hb : index (dim_x self) x = Ok (length done)).
    { rewrite Hx. apply index_of_nat. unfold dim_x. lia. }
    assert (Hcell : cell2 T (a, length done) = Some ∅).
    { rewrite Hcells. cbn [fst snd]. rewrite decide_False by lia.
      apply Hempty. apply (index_lt _ _ _ Hb). }
    unfold complete_traces in Hkeys. rewrite Forall_forall in Hkeys.
    destruct (inclusive_ops_loop trace y x m (dim_x self) a (length done)
                (all_ops self) Ha Hb (Hkeys trace Hin) T ∅ HT Hcell)
      as (T2 & Hrun & HT2 & Hcells2).
    rewrite Hrun. cbn [bind]. eexists. split; [reflexivity |].
    split; [cbn [snd]; rewrite length_app; cbn [length]; lia |].
    split; [exact HT2 |]. intros g. cbn [fst]. rewrite Hcells2, Hcells.
    rewrite length_app. cbn [length].
    destruct (decide ((a, length done) = g)) as [<- | Hne].
    + cbn [fst snd]. rewrite decide_True by lia.
      unfold trace_at. replace (i0 - 1 - Z.of_nat (length done)) with (i - 1)
        by lia. rewrite Htrace. reflexivity.
    + destruct g as [g1 g2]. cbn [fst snd].
      destruct (decide (g1 = a /\ (g2 < length done)%nat)) as [Hd | Hd].
      * rewrite decide_True by lia. reflexivity.
      * rewrite decide_False; [reflexivity |].
        intros [-> Hlt]. apply Hd. split; [reflexivity |].
        assert (g2 <> length done) by congruence. lia.
  - cbn [fst snd] in *. rewrite range_length in Hi', Hcells.
    exists T'. split; [rewrite Hrun; f_equal; f_equal; lia |].
    split; [exact HT' |]. intros g. rewrite Hcells.
    destruct (decide (g.1 = a /\ (g.2 < Z.to_nat c)%nat)) as [Hd | Hd].
    + rewrite decide_True by lia. reflexivity.
    + rewrite decide_False by lia. reflexivity.
Qed.

Lemma initial_inclusive_table (self : VanillaStatsParser) :
  rect2 (dim_y self) (dim_x self)
    (map (fun y => map (fun x => (∅ : Counter)) (range (manycore_dim_x self)))
         (range (manycore_dim_y self)))
  /\ forall a b, (a < dim_y self)%nat -> (b < dim_x self)%nat ->
       cell2 (map (fun y => map (fun x => (∅ : Counter))
                                (range (manycore_dim_x self)))
                  (range (manycore_dim_y self))) (a, b) = Some ∅.
Proof.
  rewrite (map_const_replicate (∅ : Counter)).
  rewrite (map_const_replicate (replicate _ (∅ : Counter))).
  rewrite !range_length. fold (dim_x self) (dim_y self).
  split; [apply rect2_replicate |]. intros a b Ha Hb.
  unfold cell2. cbn [fst snd]. rewrite lookup_replicate_2 by assumption.
  apply lookup_replicate_2. assumption.
Qed.

(** The first [r] rows of the grid. *)
Lemma inclusive_rows (self : VanillaStatsParser)
    (traces : list (gmap string Z)) (r : Z) :
  complete_traces self traces ->
  0 <= r <= manycore_dim_y self ->
  r * Z.of_nat (dim_x self) <= 2 * Z.of_nat (length traces) ->
  exists T',
    for_each
      (fun s y => for_each (inclusive_tile self traces y)
                           (range (manycore_dim_x self)) s)
      (range r)
      (map (fun y => map (fun x => (∅ : Counter))
                         (range (manycore_dim_x self)))
           (range (manycore_dim_y self)),
       Z.of_nat (length traces))
    = Ok (T', Z.of_nat (length traces) - r * Z.of_nat (dim_x self))
    /\ rect2 (dim_y self) (dim_x self) T'
    /\ forall g, cell2 T' g
                 = if decide (Z.of_nat g.1 < r /\ (g.2 < dim_x self)%nat)
                   then Some (write_ops (all_ops self)
                                (trace_at traces
                                   (Z.of_nat (length traces) - 1
                                    - (Z.of_nat g.1 * Z.of_nat (dim_x self)
                                       + Z.of_nat g.2))) ∅)
                   else cell2 (map (fun y => map (fun x => (∅ : Counter))
                                            (range (manycore_dim_x self)))
                                   (range (manycore_dim_y self))) g.
Proof.
  intros Hkeys Hr Hlen.
  destruct (initial_inclusive_table self) as [HT0 Hempty].
  set (T0 := map (fun y => map (fun x => (∅ : Counter))
                               (range (manycore_dim_x self)))
                 (range (manycore_dim_y self))) in *.
  set (len := Z.of_nat (length traces)) in *.
  set (p := Z.of_nat (dim_x self)) in *.
  pose (P := fun (done : list Z) (s : list (list Counter) * Z) =>
    s.2 = len - Z.of_nat (length done) * p
    /\ rect2 (dim_y self) (dim_x self) s.1
    /\ forall g, cell2 s.1 g
                 = if decide ((g.1 < length done)%nat /\ (g.2 < dim_x self)%nat)
                   then Some (write_ops (all_ops self)
                                (trace_at traces
                                   (len - 1 - (Z.of_nat g.1 * p
                                               + Z.of_nat g.2))) ∅)
                   else cell2 T0 g).
  destruct (for_each_invariant P
              (fun s y => for_each (inclusive_tile self traces y)
                                   (range (manycore_dim_x self)) s)
              (range r) (T0, len)) as ([T' i'] & Hrun & Hi' & HT' & Hcells).
  - split; [cbn; lia |]. split; [exact HT0 |]. intros g. cbn [fst length].
    rewrite decide_False by lia. reflexivity.
  - intros done y todo [T i] Hl (Hi & HT & Hcells). cbn [fst snd] in *.
    apply range_app_inv in Hl. destruct Hl as [Hy Hyr].
    assert (Ha : index (dim_y self) y = Ok (length done)).
    { rewrite Hy. apply index_of_nat. unfold dim_y. lia. }
    assert (Hp : 0 <= p) by (unfold p; lia).
    destruct (Z.le_gt_cases (manycore_dim_x self) 0) as [Hdx | Hdx].
    + (* no column: the row loop does nothing *)
      assert (Hnil : range (manycore_dim_x self) = []).
      { unfold range. replace (Z.to_nat (manycore_dim_x self)) with 0%nat
          by lia. reflexivity. }
      rewrite Hnil. cbn [for_each]. eexists. split; [reflexivity |].
      assert (Hp0 : p = 0) by (unfold p, dim_x; lia).
      split; [cbn [snd]; rewrite Hi, Hp0; lia |]. split; [exact HT |].
      intros g. cbn [fst]. rewrite Hcells.
      rewrite !decide_False by (unfold dim_x; lia). reflexivity.
    + assert (Hpx : p = manycore_dim_x self) by (unfold p, dim_x; lia).
      destruct (inclusive_row self traces y (length done) (dim_y self)
                  (manycore_dim_x self) T i Hkeys HT Ha) as (T2 & Hrun & HT2 & Hcells2).
      * intros b Hb. rewrite Hcells. cbn [fst snd].
        rewrite decide_False by lia. apply Hempty; [| assumption].
        apply (index_lt _ _ _ Ha).
      * lia.
      * intros x Hx. rewrite Hi. fold len.
        assert ((Z.of_nat (length done) + 1) * p <= r * p)
          by (apply Z.mul_le_mono_nonneg_r; lia).
        nia.
      * rewrite Hrun. eexists. split; [reflexivity |].
        split; [cbn [snd]; rewrite length_app; cbn [length]; nia |].
        split; [exact HT2 |]. intros g. cbn [fst]. rewrite Hcells2, Hcells.
        rewrite length_app. cbn [length]. destruct g as [g1 g2].
        cbn [fst snd].
        destruct (decide (g1 = length done /\ Z.of_nat g2 < manycore_dim_x self))
          as [[-> Hg2] | Hd].
        -- rewrite decide_True by (unfold dim_x; lia). do 3 f_equal. lia.
        -- destruct (decide ((g1 < length done)%nat /\ (g2 < dim_x self)%nat))
             as [Hd2 | Hd2].
           ++ rewrite decide_True by lia. reflexivity.
           ++ rewrite decide_False; [reflexivity |]. unfold dim_x in *. lia.
  - cbn [fst snd] in *. rewrite range_length in Hi', Hcells.
    exists T'. split; [rewrite Hrun; f_equal; f_equal; lia |].
    split; [exact HT' |]. intros g. rewrite Hcells.
    destruct (decide ((g.1 < Z.to_nat r)%nat /\ (g.2 < dim_x self)%nat)).
    + rewrite decide_True by lia. reflexivity.
    + rewrite decide_False by lia. reflexivity.
Qed.

(** X9. When every trace has every operation and the grid has at most
    twice as many tiles as there are traces, the method raises nothing,
    and the tile in row [y] and column [x] is the trace at the Python index
    [len(traces) - 1 - (y * manycore_dim_x + x)] restricted to the
    operations of the schema: the traces are dealt out from the end of the
    list, row by row.  When there are fewer traces than tiles the index
    turns negative and counts from the end again, so the traces are used
    a second time. *)
Theorem inclusive_tile_stat_reads_backwards (self : VanillaStatsParser)
    (traces : list (gmap string Z)) :
  complete_traces self traces ->
  0 <= manycore_dim_y self -> 0 <= manycore_dim_x self ->
  manycore_dim_y self * manycore_dim_x self
  <= 2 * Z.of_nat (length traces) ->
  exists T,
    __generate_inclusive_tile_stat self traces = Ok T
    /\ forall y x,
         0 <= y < manycore_dim_y self -> 0 <= x < manycore_dim_x self ->
         exists trace c,
           getitem traces
             (Z.of_nat (length traces) - 1 - (y * manycore_dim_x self + x))
           = Ok trace
           /\ get2 T y x = Ok c
           /\ forall op, c !! op = if decide (op ∈ all_ops self)
                                   then trace !! op else None.
Proof.
  intros Hkeys Hdy Hdx Hlen.
  assert (Hp : Z.of_nat (dim_x self) = manycore_dim_x self)
    by (unfold dim_x; lia).
  destruct (inclusive_rows self traces (manycore_dim_y self) Hkeys)
    as (T & Hrun & HT & Hcells); [lia | rewrite Hp; lia |].
  exists T. split.
  - unfold __generate_inclusive_tile_stat. cbn zeta. rewrite Hrun.
    reflexivity.
  - intros y x Hy Hx.
    destruct (getitem_in_bounds traces
                (Z.of_nat (length traces) - 1
                 - (y * manycore_dim_x self + x)))
      as (trace & Htrace & Hin); [nia |].
    exists trace, (write_ops (all_ops self) trace ∅).
    split; [exact Htrace |]. split.
    + apply (get2_rect (dim_y self) (dim_x self) T y x
               (Z.to_nat y) (Z.to_nat x)); [exact HT | | |].
      * apply index_range_Z. assumption.
      * apply index_range_Z. assumption.
      * rewrite Hcells. cbn [fst snd].
        rewrite decide_True by (unfold dim_x; lia).
        unfold trace_at. rewrite Hp, !Z2Nat.id by lia. rewrite Htrace.
        reflexivity.
    + intros op. rewrite write_ops_lookup.
      destruct (decide (op ∈ all_ops self)) as [Hop | Hop];
        [| apply lookup_empty].
      unfold complete_traces in Hkeys. rewrite Forall_forall in Hkeys.
      pose proof (Hkeys trace Hin) as Hk. rewrite Forall_forall in Hk.
      destruct (Hk op Hop) as [v Hv]. unfold col. rewrite Hv. reflexivity.
Qed.

(** Four tiles and two traces: the tile of row 1, column 0 reads index
    -1, the last trace, as the tile of row 0, column 0 does. *)
Lemma inclusive_tile_stat_reads_backwards_witness :
  exists T c,
    __generate_inclusive_tile_stat (new_parser 2 2 ["cycle"])
      [{["cycle" := 7]}; {["cycle" := 9]}] = Ok T
    /\ get2 T 1 0 = Ok c
    /\ c !! "cycle" = Some 9.
Proof.
  destruct (inclusive_tile_stat_reads_backwards (new_parser 2 2 ["cycle"])
              [{["cycle" := 7]}; {["cycle" := 9]}])
    as (T & Hrun & Hall).
  - unfold complete_traces. repeat constructor; eexists; reflexivity.
  - vm_compute. discriminate.
  - vm_compute. discriminate.
  - vm_compute. discriminate.
  - destruct (Hall 1 0) as (trace & c & Htrace & Hc & Hops);
      [vm_compute; split; [discriminate | reflexivity] ..|].
    exists T, c. split; [exact Hrun |]. split; [exact Hc |].
    rewrite Hops. rewrite decide_True by (vm_compute; repeat constructor).
    vm_compute in Htrace. injection Htrace as <-. reflexivity.
Defined.

(** X10. When every trace has every operation and the grid has more than
    twice as many tiles as there are traces (an empty list of traces and a
    grid of one tile, say), the method raises [IndexError]. *)
Theorem inclusive_tile_stat_index_error (self : VanillaStatsParser)
    (traces : list (gmap string Z)) :
  complete_traces self traces ->
  0 <= manycore_dim_y self -> 0 <= manycore_dim_x self ->
  2 * Z.of_nat (length traces)
  < manycore_dim_y self * manycore_dim_x self ->
  __generate_inclusive_tile_stat self traces = Err IndexError.
Proof.
  intros Hkeys Hdy Hdx Hlen.
  set (len := Z.of_nat (length traces)) in *.
  set (p := manycore_dim_x self) in *.
  assert (Hp : Z.of_nat (dim_x self) = p) by (unfold dim_x, p; lia).
  assert (Hp0 : 0 < p) by nia.
  pose proof (Z.div_mod (2 * len) p ltac:(lia)) as Hdm.
  pose proof (Z.mod_pos_bound (2 * len) p Hp0) as Hmod.
  set (y0 := 2 * len / p) in *. set (x0 := (2 * len) mod p) in *.
  assert (Hy0 : 0 <= y0 < manycore_dim_y self).
  { split; [apply Z.div_pos; lia |].
    apply Z.div_lt_upper_bound; [lia |]. lia. }
  destruct (range_split (manycore_dim_y self) y0 Hy0) as [resty Hry].
  destruct (range_split p x0 Hmod) as [restx Hrx].
  destruct (inclusive_rows self traces y0 Hkeys)
    as (T1 & Hrun1 & HT1 & Hcells1); [lia | rewrite Hp; nia |].
  assert (Ha : index (dim_y self) y0 = Ok (Z.to_nat y0))
    by (apply index_range_Z; assumption).
  destruct (initial_inclusive_table self) as [_ Hempty].
  destruct (inclusive_row self traces y0 (Z.to_nat y0) (dim_y self) x0 T1
              (len - y0 * p) Hkeys HT1 Ha)
    as (T2 & Hrun2 & _ & _).
  { intros b Hb. rewrite Hcells1. cbn [fst snd].
    rewrite decide_False by lia. apply Hempty; [| assumption].
    apply (index_lt _ _ _ Ha). }
  { fold p. lia. }
  { intros x Hx. fold len. nia. }
  unfold __generate_inclusive_tile_stat. cbn zeta. fold len.
  set (T0 := map (fun y => map (fun x => (∅ : Counter))
                               (range (manycore_dim_x self)))
                 (range (manycore_dim_y self))) in *.
  rewrite Hry.
  rewrite (for_each_Err _ (range y0) resty y0 _
             (T1, len - y0 * p) IndexError); [reflexivity | | ].
  - rewrite <- Hp. exact Hrun1.
  - fold p. rewrite Hrx.
    apply (for_each_Err _ (range x0) restx x0 _ (T2, len - y0 * p - x0)).
    + exact Hrun2.
    + unfold inclusive_tile. cbn [fst snd].
      rewrite getitem_out_of_bounds; [reflexivity |]. fold len. lia.
Qed.

Lemma inclusive_tile_stat_index_error_witness :
  __generate_inclusive_tile_stat (new_parser 2 2 ["cycle"])
    [{["cycle" := 7]}] = Err IndexError.
Proof.
  apply inclusive_tile_stat_index_error.
  - unfold complete_traces. repeat constructor; eexists; reflexivity.
  - vm_compute. discriminate.
  - vm_compute. discriminate.
  - vm_compute. reflexivity.
Defined.

(** ** __generate_tile_stats: everything that is printed *)

(** The warnings of the loop that subtracts: one for each tile with more
    start than end traces, in the order of the loop (tag, row, column). *)
Definition missing_end_lines (self : VanillaStatsParser)
    (traces : list (gmap string Z)) : list line :=
  t ← triples (range max_tags) (range (manycore_dim_y self))
              (range (manycore_dim_x self));
  if 0 <? unmatched_starts self (pos3 t) traces
  then [missing_end (unmatched_starts self (pos3 t) traces) t.1.1 t.2 t.1.2]
  else [].

Lemma credits_unmatched (self : VanillaStatsParser) q traces z :
  credits self q traces z = z + unmatched_starts self q traces.
Proof.
  unfold credits, unmatched_starts. revert z.
  induction traces as [| trace traces IH]; intros z; cbn [foldl List.filter];
    [cbn; lia |].
  rewrite IH. unfold credit_step.
  destruct (tile_event self CudaStatTag.START q trace) eqn:Es.
  - rewrite (tile_event_one_kind self trace _ CudaStatTag.END q q Es)
      by discriminate.
    cbn [length]. lia.
  - destruct (tile_event self CudaStatTag.END q trace); cbn [length]; lia.
Qed.

(** What one step of the subtracting loop prints. *)
Lemma subtract_tile_stdout (st st' : locals) (tag y x : Z) :
  subtract_tile st tag y x = Ok st' ->
  exists credit,
    get3 (tag_credits st) tag y x = Ok credit
    /\ stdout st' = stdout st ++ (if 0 <? credit
                                  then [missing_end credit tag x y] else []).
Proof.
  unfold subtract_tile. intros H. inv_bind H. rename v into credit.
  exists credit. split; [exact Hv |].
  destruct (0 <? credit).
  - rewrite Hv in H. cbn [bind] in H. inv_bind H. inv_bind H. inv_bind H.
    injection H as <-. simpl_locals. reflexivity.
  - cbn [bind] in H. inv_bind H. inv_bind H. inv_bind H.
    injection H as <-. simpl_locals. rewrite app_nil_r. reflexivity.
Qed.

Lemma subtract_tiles_stdout (self : VanillaStatsParser) (s0 s' : locals)
    (traces : list (gmap string Z)) :
  shapes self s0 ->
  (forall q, (q.1.1 < n_tags)%nat -> (q.1.2 < dim_y self)%nat ->
             (q.2 < dim_x self)%nat ->
             cell3 (tag_credits s0) q = Some (unmatched_starts self q traces)) ->
  subtract_tiles self s0 = Ok s' ->
  stdout s' = stdout s0 ++ missing_end_lines self traces.
Proof.
  intros Hsh Hcredits H. unfold subtract_tiles in H.
  rewrite for_each3_triples in H. unfold missing_end_lines.
  set (l := triples (range max_tags) (range (manycore_dim_y self))
                    (range (manycore_dim_x self))) in *.
  pose (warn := fun t : Z * Z * Z =>
    if 0 <? unmatched_starts self (pos3 t) traces
    then [missing_end (unmatched_starts self (pos3 t) traces) t.1.1 t.2 t.1.2]
    else []).
  apply (for_each_invariant_Ok
           (fun done s => shapes self s /\ pending_eq s0 s
                          /\ stdout s = stdout s0 ++ (done ≫= warn))
           _ l s0 s' H).
  - split; [assumption |]. split; [apply pending_eq_refl |].
    cbn. rewrite app_nil_r. reflexivity.
  - intros done [[tag y] x] todo s1 s2 Hl (Hsh1 & Hp1 & Hout) Hb.
    cbn [fst snd] in Hb.
    assert (Hin : (tag, y, x) ∈ l).
    { rewrite Hl. apply elem_of_app. right. apply elem_of_cons. auto. }
    unfold l in Hin. apply elem_of_triples in Hin.
    rewrite !elem_of_range in Hin. destruct Hin as (Htag & Hy & Hx).
    destruct (subtract_tile_spec self s1 s2 tag y x Hsh1 Htag Hy Hx Hb)
      as (Hp2 & Hg2 & Hr2 & _).
    assert (Hp02 : pending_eq s0 s2) by (eapply pending_eq_trans; eauto).
    split.
    { apply (pending_eq_shapes self s0); trivial.
      rewrite Hg2. apply (sh_group_stat _ _ Hsh1). }
    split; [assumption |].
    destruct (subtract_tile_stdout s1 s2 tag y x Hb) as (credit & Hc & Hs2).
    rewrite Hs2, Hout, bind_app, <- app_assoc. f_equal. f_equal.
    cbn. rewrite app_nil_r. unfold warn. cbn [fst snd].
    destruct Hp1 as (_ & _ & _ & _ & _ & _ & E7 & _). rewrite E7 in Hc.
    destruct (get3_inv _ _ _ _ _ _ _ _ (sh_credits _ _ Hsh) Hc)
      as (a & b & c & Ha & Hb' & Hc' & Hcell).
    pose proof (index_range_Z max_tags tag Htag) as It. fold n_tags in It.
    pose proof (index_range_Z _ y Hy) as Iy. fold (dim_y self) in Iy.
    pose proof (index_range_Z _ x Hx) as Ix. fold (dim_x self) in Ix.
    rewrite It in Ha. injection Ha as <-.
    rewrite Iy in Hb'. injection Hb' as <-.
    rewrite Ix in Hc'. injection Hc' as <-.
    rewrite Hcredits in Hcell.
    + injection Hcell as <-. reflexivity.
    + cbn [fst snd]. unfold n_tags. lia.
    + cbn [fst snd]. unfold dim_y. lia.
    + cbn [fst snd]. unfold dim_x. lia.
Qed.

(** X11. The method prints two kinds of lines and nothing else: first,
    in the order of the traces, the missing-start warning of every end
    trace that finds no start of its tile left to match; then, in the
    order tag, row, column, one missing-end warning for every tile of the
    grid that has more start traces than end traces, with the number of
    starts left over. *)
Theorem output_is_the_warnings (self self' : VanillaStatsParser)
    (traces : list (gmap string Z)) (st : locals) :
  __generate_tile_stats self traces = Ok (self', st) ->
  stdout st = warnings self traces ++ missing_end_lines self traces.
Proof.
  intros H. unfold __generate_tile_stats in H.
  inv_bind H. rename v into st1, Hv into H1.
  inv_bind H. rename v into st2, Hv into H2.
  inv_bind H. rename v into st3, Hv into H3.
  inv_bind H. rename v into st4, Hv into H4.
  inv_bind H. rename v into st5, Hv into H5.
  injection H as _ <-.
  destruct (read_traces_spec self traces st1 H1)
    as (S1 & _ & _ & _ & _ & R5 & _ & _ & _ & R9 & _).
  destruct (subtract_tiles_spec self st1 st2 S1 H2) as (S2 & _).
  destruct (subtract_groups_spec self st2 st3 S2 H3) as (S3 & _ & _ & O3 & _).
  destruct (total_tiles_spec self st3 st4 S3 H4) as (S4 & _).
  destruct (total_groups_spec self st4 st5 S4 H5) as (_ & _ & _ & O5 & _).
  assert (O4 : stdout st4 = stdout st3).
  { unfold total_tiles in H4. inv_bind H4. injection H4 as <-.
    reflexivity. }
  rewrite O5, O4, O3, <- R9.
  apply (subtract_tiles_stdout self st1 st2 traces S1); [| exact H2].
  intros q Q1 Q2 Q3. rewrite R5, initial_cell3 by assumption.
  cbn [fmap option_fmap option_map]. rewrite credits_unmatched. f_equal.
Qed.

(** Two start traces and one end trace of the tile, then one end trace
    more than starts for tag 1: one warning of each kind. *)
Lemma output_is_the_warnings_witness :
  exists self' st,
    __generate_tile_stats sample_parser
      [sample_trace 1 0 (pack 2 1 0 0 1) 3 1;
       sample_trace 1 0 (pack 1 1 0 0 0) 10 5;
       sample_trace 1 0 (pack 1 1 0 0 0) 12 6;
       sample_trace 1 0 (pack 2 1 0 0 0) 25 15] = Ok (self', st)
    /\ stdout st = [missing_start 1 0 0; missing_end 1 0 0 0].
Proof.
  destruct (is_Ok_inv
              (__generate_tile_stats sample_parser
                 [sample_trace 1 0 (pack 2 1 0 0 1) 3 1;
                  sample_trace 1 0 (pack 1 1 0 0 0) 10 5;
                  sample_trace 1 0 (pack 1 1 0 0 0) 12 6;
                  sample_trace 1 0 (pack 2 1 0 0 0) 25 15]))
    as [[self' st] H].
  - vm_compute. reflexivity.
  - exists self', st. split; [exact H |].
    rewrite (output_is_the_warnings sample_parser self' _ st H).
    vm_compute. reflexivity.
Defined.

(** ** __generate_tile_stats: the number of tile groups of a tag *)

Lemma started_groups_snoc (self : VanillaStatsParser) t done trace :
  started_groups self t (done ++ [trace])
  = started_groups self t done
    ∪ match started_group self t trace with
      | Some g => {[g]}
      | None => ∅
      end.
Proof.
  unfold started_groups. rewrite omap_app, list_to_set_app_L. f_equal.
  cbn [omap list_omap]. destruct (started_group self t trace); cbn.
  - apply right_id_L; apply _.
  - reflexivity.
Qed.

Lemma group_event_started (self : VanillaStatsParser) t g trace :
  group_event self CudaStatTag.START (t, g) trace
  = bool_decide (started_group self t trace = Some g).
Proof.
  unfold group_event, started_group.
  destruct (event self trace) as [[[k q] g'] |];
    [| rewrite bool_decide_eq_false_2 by discriminate; reflexivity].
  destruct (bool_decide (k = CudaStatTag.START)); cbn [andb];
    [| rewrite bool_decide_eq_false_2 by discriminate; reflexivity].
  destruct (decide (q.1.1 = t)) as [Ht | Ht].
  - rewrite (bool_decide_eq_true_2 (q.1.1 = t)) by assumption.
    destruct (decide (g' = g)) as [-> | Hg].
    + rewrite !bool_decide_eq_true_2 by congruence. reflexivity.
    + rewrite !bool_decide_eq_false_2 by congruence. reflexivity.
  - rewrite (bool_decide_eq_false_2 (q.1.1 = t)) by assumption.
    rewrite !bool_decide_eq_false_2 by congruence. reflexivity.
Qed.

Lemma add_ops_keeps_keys (ops : list string) (trace : gmap string Z)
    (c : Counter) (k : string) :
  is_Some (c !! k) -> is_Some (add_ops ops trace c !! k).
Proof.
  unfold add_ops. revert c.
  induction ops as [| op ops IH]; intros c Hk; cbn [foldl]; [exact Hk |].
  apply IH. unfold counter_iadd. destruct (decide (op = k)) as [-> | Hne].
  - rewrite lookup_insert_eq. eauto.
  - rewrite lookup_insert_ne by assumption. exact Hk.
Qed.

Lemma add_ops_truthy (ops : list string) (trace : gmap string Z)
    (c : Counter) :
  ops <> [] \/ c <> ∅ -> add_ops ops trace c <> ∅.
Proof.
  intros H Hempty.
  assert (Hkey : exists k, is_Some (add_ops ops trace c !! k)).
  { destruct ops as [| op ops].
    - destruct H as [H | H]; [congruence |]. cbn.
      destruct (map_choose c H) as (k & v & Hk). exists k. eauto.
    - exists op. unfold add_ops. cbn [foldl].
      apply (add_ops_keeps_keys ops trace). unfold counter_iadd.
      rewrite lookup_insert_eq. eauto. }
  destruct Hkey as (k & v & Hk). rewrite Hempty, lookup_empty in Hk.
  discriminate.
Qed.

(** With a schema that is not empty, the accumulated start snapshot of a
    tile group has a key as soon as a start trace has named the group. *)
Lemma accumulated_truthy (self : VanillaStatsParser) t g traces :
  all_ops self <> [] ->
  counter_truthy (accumulated self CudaStatTag.START (t, g) traces ∅)
  = bool_decide (g ∈ started_groups self t traces).
Proof.
  intros Hops. unfold counter_truthy.
  induction traces as [| trace done IH] using rev_ind.
  - cbn. rewrite bool_decide_eq_true_2 by reflexivity.
    rewrite bool_decide_eq_false_2 by apply not_elem_of_empty. reflexivity.
  - rewrite accumulated_snoc, started_groups_snoc. unfold group_step.
    rewrite group_event_started.
    destruct (decide (started_group self t trace = Some g)) as [E | E].
    + rewrite (bool_decide_eq_true_2 _ E), E.
      rewrite bool_decide_eq_false_2 by (apply add_ops_truthy; auto).
      rewrite bool_decide_eq_true_2; [reflexivity |].
      apply elem_of_union. right. apply elem_of_singleton. reflexivity.
    + rewrite (bool_decide_eq_false_2 _ E), IH. f_equal.
      apply bool_decide_ext. rewrite elem_of_union.
      destruct (started_group self t trace) as [g' |].
      * rewrite elem_of_singleton. split; [auto |].
        intros [? | ->]; [assumption | congruence].
      * rewrite elem_of_empty. tauto.
Qed.

(** What a trace does to [num_tile_groups]. *)
Lemma process_trace_num_tile_groups (self : VanillaStatsParser)
    (st st' : locals) (trace : gmap string Z) :
  shapes self st -> process_trace self st trace = Ok st' ->
  forall t,
    num_tile_groups st' !! t
    = (fun n => match started_group self t trace with
                | Some g =>
                    if counter_truthy
                         (read2 (tile_group_stat_start st) (t, g))
                    then n else n + 1
                | None => n
                end) <$> num_tile_groups st !! t.
Proof.
  intros Hsh H t. unfold process_trace in H.
  inv_bind H. apply dict_get_inv in Hv. rename v into y, Hv into Hy.
  inv_bind H. apply dict_get_inv in Hv. rename v into x, Hv into Hx.
  inv_bind H. apply dict_get_inv in Hv. rename v into tag, Hv into Htag.
  inv_bind H. rename v into cst, Hv into Hcst.
  assert (Hother : CudaStatTag.type cst <> CudaStatTag.START ->
                   started_group self t trace = None).
  { intros Hne. unfold started_group.
    destruct (event self trace) as [[[k q] g] |] eqn:E; [| reflexivity].
    rewrite (event_type self trace tag cst k q g Htag Hcst E).
    rewrite bool_decide_eq_false_2 by assumption. reflexivity. }
  rewrite isStart_eq, isEnd_eq in H.
  destruct (CudaStatTag.type cst) eqn:Hty.
  - rewrite !bool_decide_eq_false_2 in H by discriminate.
    injection H as <-. rewrite Hother by discriminate.
    destruct (num_tile_groups st !! t); reflexivity.
  - rewrite bool_decide_eq_true_2 in H by reflexivity.
    inv_bind H. rename v into credit.
    destruct (get3_inv _ _ _ _ _ _ _ _ (sh_credits _ _ Hsh) Hv)
      as (a0 & a & b & Ha0 & Ha & Hb & Hcredit).
    rewrite index_tag in Ha0. injection Ha0 as <-.
    set (t0 := Z.to_nat (CudaStatTag.tag cst)) in *.
    set (d := Z.to_nat (CudaStatTag.tg_id cst)).
    pose proof (index_tag cst) as Hit. fold t0 in Hit.
    pose proof (index_tg_id cst) as Hid. fold d in Hid.
    pose proof (event_eq self trace y x tag cst a b Hy Hx Htag Hcst Ha Hb)
      as Hev.
    rewrite Hty in Hev. fold t0 d in Hev.
    rewrite (set3_rect _ _ _ _ _ _ _ t0 a b _ (sh_credits _ _ Hsh) Hit Ha Hb)
      in H.
    cbn [bind] in H. simpl_locals.
    inv_bind H. rename v into groups.
    apply getitem_inv in Hv0. destruct Hv0 as (t' & Ht' & Hgroups).
    rewrite (proj1 (sh_group_start _ _ Hsh)), Hit in Ht'. injection Ht' as <-.
    rewrite (n_groups_truthy _ _ _ _ (sh_group_start _ _ Hsh) Hgroups) in H.
    cbn [negb] in H.
    inv_bind H. rename v into group.
    apply getitem_inv in Hv0. destruct Hv0 as (d' & Hd' & Hgroup).
    rewrite (rect2_row _ _ _ _ _ (sh_group_start _ _ Hsh) Hgroups), Hid in Hd'.
    injection Hd' as <-.
    assert (Hg0 : read2 (tile_group_stat_start st) (t0, d) = group).
    { unfold read2, cell2. cbn [fst snd]. rewrite Hgroups, Hgroup.
      reflexivity. }
    assert (Hsg : started_group self t trace
                  = if decide (t0 = t) then Some d else None).
    { unfold started_group. rewrite Hev. cbn [fst].
      rewrite bool_decide_eq_true_2 by reflexivity. cbn [andb].
      destruct (decide (t0 = t)) as [Heq | Hne].
      - rewrite bool_decide_eq_true_2 by assumption. reflexivity.
      - rewrite bool_decide_eq_false_2 by assumption. reflexivity. }
    inv_bind H. rename v into st1.
    inv_bind H. injection H as <-. simpl_locals.
    rewrite Hsg.
    destruct (counter_truthy group) eqn:Htruthy; cbn [negb] in Hv0.
    + injection Hv0 as <-. simpl_locals.
      destruct (decide (t0 = t)) as [<- | Hne].
      * rewrite Hg0, Htruthy. destruct (num_tile_groups st !! t0); reflexivity.
      * destruct (num_tile_groups st !! t); reflexivity.
    + inv_bind Hv0. rename v into n. inv_bind Hv0. injection Hv0 as <-.
      simpl_locals.
      apply getitem_inv in Hv2. destruct Hv2 as (k & Hk & Hn).
      rewrite (sh_num_tile_groups _ _ Hsh), Hit in Hk. injection Hk as <-.
      apply setitem_inv in Hv3. destruct Hv3 as (k & Hk & ->).
      rewrite (sh_num_tile_groups _ _ Hsh), Hit in Hk. injection Hk as <-.
      destruct (decide (t0 = t)) as [<- | Hne].
      * rewrite Hg0, Htruthy, Hn.
        rewrite list_lookup_insert_eq by (eapply lookup_lt_Some; eauto).
        reflexivity.
      * rewrite list_lookup_insert_ne by assumption.
        destruct (num_tile_groups st !! t); reflexivity.
  - rewrite bool_decide_eq_false_2 in H by discriminate.
    rewrite bool_decide_eq_true_2 in H by reflexivity.
    rewrite Hother by discriminate.
    inv_bind H. inv_bind H. simpl_locals. inv_bind H. inv_bind H.
    injection H as <-.
    destruct (v1 <? 0); simpl_locals;
      destruct (num_tile_groups st !! t); reflexivity.
Qed.

Lemma initial_num_tile_groups (self : VanillaStatsParser) (t : nat) :
  (t < n_tags)%nat -> num_tile_groups (initial_locals self) !! t = Some 0.
Proof.
  intros Ht. cbn [initial_locals num_tile_groups].
  rewrite (map_const_replicate 0), range_length.
  apply lookup_replicate_2. exact Ht.
Qed.

Lemma read_traces_num_tile_groups (self : VanillaStatsParser)
    (traces : list (gmap string Z)) (st : locals) :
  all_ops self <> [] ->
  read_traces self traces = Ok st ->
  forall t, (t < n_tags)%nat ->
    num_tile_groups st !! t
    = Some (Z.of_nat (size (started_groups self t traces))).
Proof.
  intros Hops H. unfold read_traces in H.
  apply (for_each_invariant_Ok
           (fun done s =>
              read_traces self done = Ok s
              /\ forall t, (t < n_tags)%nat ->
                   num_tile_groups s !! t
                   = Some (Z.of_nat (size (started_groups self t done))))
           _ _ _ _ H).
  - split; [reflexivity |].
    intros t Ht. rewrite initial_num_tile_groups by assumption.
    reflexivity.
  - intros done trace todo s1 s2 _ (Hdone & Hnum) Hstep.
    destruct (read_traces_spec self done s1 Hdone)
      as (Hsh & _ & _ & P3 & _).
    split.
    { unfold read_traces in *. rewrite for_each_app, Hdone.
      cbn [bind for_each]. rewrite Hstep. reflexivity. }
    intros t Ht.
    rewrite (process_trace_num_tile_groups self s1 s2 trace Hsh Hstep t).
    rewrite (Hnum t Ht). cbn [fmap option_fmap option_map]. f_equal.
    rewrite started_groups_snoc.
    destruct (started_group self t trace) as [g |] eqn:Esg.
    + assert (Hg : (g < n_groups)%nat).
      { unfold started_group in Esg.
        destruct (event self trace) as [[[k q] g'] |] eqn:Hev;
          [| discriminate].
        destruct (event_in_grid self trace k q g' Hev) as (_ & _ & _ & Hg').
        destruct (_ && _); [| discriminate]. injection Esg as <-.
        exact Hg'. }
      unfold read2. rewrite P3, initial_cell2 by assumption.
      cbn [fmap option_fmap option_map default from_option id].
      rewrite accumulated_truthy by assumption.
      destruct (decide (g ∈ started_groups self t done)) as [Hin | Hnin].
      * rewrite bool_decide_eq_true_2 by assumption.
        rewrite (comm_L (∪) (started_groups self t done) {[g]}).
        rewrite (subseteq_union_1_L {[g]} (started_groups self t done))
          by (apply singleton_subseteq_l; assumption).
        reflexivity.
      * rewrite bool_decide_eq_false_2 by assumption.
        rewrite size_union by (apply disjoint_singleton_r; assumption).
        rewrite size_singleton. lia.
    + rewrite (right_id_L ∅ (∪)). reflexivity.
Qed.

(** X12. With a schema that is not empty, the [num_tile_groups[tag]]
    that the method returns is the number of distinct tile group ids among
    the start traces of the tag: a count of ids, not the largest id plus
    one. *)
Theorem num_tile_groups_counts_ids (self self' : VanillaStatsParser)
    (traces : list (gmap string Z)) (st : locals) (tag : Z) :
  all_ops self <> [] ->
  __generate_tile_stats self traces = Ok (self', st) ->
  0 <= tag < max_tags ->
  getitem (num_tile_groups st) tag
  = Ok (Z.of_nat (size (started_groups self (Z.to_nat tag) traces))).
Proof.
  intros Hops H Htag. unfold __generate_tile_stats in H.
  inv_bind H. rename v into st1, Hv into H1.
  inv_bind H. rename v into st2, Hv into H2.
  inv_bind H. rename v into st3, Hv into H3.
  inv_bind H. rename v into st4, Hv into H4.
  inv_bind H. rename v into st5, Hv into H5.
  injection H as _ <-.
  destruct (read_traces_spec self traces st1 H1) as (S1 & _).
  destruct (subtract_tiles_spec self st1 st2 S1 H2) as (S2 & P2 & _).
  destruct (subtract_groups_spec self st2 st3 S2 H3) as (S3 & P3 & _).
  destruct (total_tiles_spec self st3 st4 S3 H4) as (S4 & P4 & _).
  destruct (total_groups_spec self st4 st5 S4 H5) as (_ & P5 & _).
  pose proof (pending_eq_trans _ _ _ (pending_eq_trans _ _ _
                (pending_eq_trans _ _ _ P2 P3) P4) P5) as (_ & E2 & _).
  rewrite E2.
  pose proof (index_range_Z max_tags tag Htag) as It. fold n_tags in It.
  apply (getitem_Ok _ tag (Z.to_nat tag)).
  - rewrite (sh_num_tile_groups _ _ S1). exact It.
  - apply (read_traces_num_tile_groups self traces st1 Hops H1).
    apply (index_lt _ _ _ It).
Qed.

(** Start traces of the tile groups 5, 9 and 5 again, all of tag 0: two
    tile groups. *)
Lemma num_tile_groups_counts_ids_witness :
  exists self' st,
    __generate_tile_stats sample_parser
      [sample_trace 1 0 (pack 1 1 0 5 0) 10 5;
       sample_trace 1 0 (pack 1 1 0 9 0) 12 6;
       sample_trace 1 0 (pack 1 1 0 5 0) 14 7] = Ok (self', st)
    /\ getitem (num_tile_groups st) 0 = Ok 2.
Proof.
  destruct (is_Ok_inv
              (__generate_tile_stats sample_parser
                 [sample_trace 1 0 (pack 1 1 0 5 0) 10 5;
                  sample_trace 1 0 (pack 1 1 0 9 0) 12 6;
                  sample_trace 1 0 (pack 1 1 0 5 0) 14 7]))
    as [[self' st] H].
  - vm_compute. reflexivity.
  - exists self', st. split; [exact H |].
    assert (Hops : all_ops sample_parser <> []) by discriminate.
    rewrite (num_tile_groups_counts_ids sample_parser self' _ st 0 Hops H).
    + vm_compute. reflexivity.
    + vm_compute. split; [discriminate | reflexivity].
Defined.

(** ** __generate_tile_stats: when it raises *)

Lemma started_groups_bound (self : VanillaStatsParser) t traces :
  (size (started_groups self t traces) <= n_groups)%nat.
Proof.
  rewrite <- (size_set_seq (C := gset nat) 0 n_groups).
  apply subseteq_size. intros g Hg. apply elem_of_set_seq.
  split; [lia |]. cbn. unfold started_groups in Hg.
  apply elem_of_list_to_set, list_elem_of_omap in Hg.
  destruct Hg as (trace & _ & Hg). unfold started_group in Hg.
  destruct (event self trace) as [[[k q] g'] |] eqn:Hev; [| discriminate].
  destruct (event_in_grid self trace k q g' Hev) as (_ & _ & _ & Hg').
  destruct (_ && _); [| discriminate]. injection Hg as <-. exact Hg'.
Qed.

Lemma subtract_tile_total (self : VanillaStatsParser) (s1 : locals)
    (i j k : Z) :
  shapes self s1 ->
  0 <= i < max_tags -> 0 <= j < manycore_dim_y self ->
  0 <= k < manycore_dim_x self ->
  exists s2, subtract_tile s1 i j k = Ok s2.
Proof.
  intros Hsh Hi Hj Hk.
  pose proof (index_range_Z max_tags i Hi) as Ii. fold n_tags in Ii.
  pose proof (index_range_Z _ j Hj) as Ij. fold (dim_y self) in Ij.
  pose proof (index_range_Z _ k Hk) as Ik. fold (dim_x self) in Ik.
  set (a := Z.to_nat i) in *. set (b := Z.to_nat j) in *.
  set (c := Z.to_nat k) in *.
  pose proof (index_lt _ _ _ Ii) as La. pose proof (index_lt _ _ _ Ij) as Lb.
  pose proof (index_lt _ _ _ Ik) as Lc.
  destruct (rect3_cell _ _ _ (tag_credits s1) a b c (sh_credits _ _ Hsh)
              La Lb Lc) as [credit Hcredit].
  destruct (rect3_cell _ _ _ (tile_stat_end s1) a b c (sh_end _ _ Hsh)
              La Lb Lc) as [e He].
  destruct (rect3_cell _ _ _ (tile_stat_start s1) a b c (sh_start _ _ Hsh)
              La Lb Lc) as [s Hs].
  unfold subtract_tile.
  rewrite (get3_rect _ _ _ _ _ _ _ a b c credit (sh_credits _ _ Hsh))
    by assumption.
  cbn [bind].
  destruct (0 <? credit).
  - cbn [bind]. simpl_locals.
    rewrite (get3_rect _ _ _ _ _ _ _ a b c e (sh_end _ _ Hsh)) by assumption.
    cbn [bind].
    rewrite (get3_rect _ _ _ _ _ _ _ a b c s (sh_start _ _ Hsh))
      by assumption.
    cbn [bind].
    rewrite (set3_rect _ _ _ _ _ _ _ a b c _ (sh_stat _ _ Hsh)) by assumption.
    cbn [bind]. eauto.
  - cbn [bind].
    rewrite (get3_rect _ _ _ _ _ _ _ a b c e (sh_end _ _ Hsh)) by assumption.
    cbn [bind].
    rewrite (get3_rect _ _ _ _ _ _ _ a b c s (sh_start _ _ Hsh))
      by assumption.
    cbn [bind].
    rewrite (set3_rect _ _ _ _ _ _ _ a b c _ (sh_stat _ _ Hsh)) by assumption.
    cbn [bind]. eauto.
Qed.

Lemma subtract_tiles_total (self : VanillaStatsParser) (s0 : locals) :
  shapes self s0 -> exists s', subtract_tiles self s0 = Ok s'.
Proof.
  intros Hsh. unfold subtract_tiles. rewrite for_each3_triples.
  set (l := triples (range max_tags) (range (manycore_dim_y self))
                    (range (manycore_dim_x self))).
  destruct (for_each_invariant (fun _ s => shapes self s)
              (fun s t => subtract_tile s t.1.1 t.1.2 t.2) l s0)
    as (s' & Hrun & _); [exact Hsh | | eauto].
  intros done [[tag y] x] todo s Hl Hs. cbn [fst snd].
  assert (Hin : (tag, y, x) ∈ l).
  { rewrite Hl. apply elem_of_app. right. apply elem_of_cons. auto. }
  unfold l in Hin. apply elem_of_triples in Hin.
  rewrite !elem_of_range in Hin. destruct Hin as (Htag & Hy & Hx).
  destruct (subtract_tile_total self s tag y x Hs Htag Hy Hx) as [s2 Hs2].
  exists s2. split; [exact Hs2 |].
  destruct (subtract_tile_spec self s s2 tag y x Hs Htag Hy Hx Hs2)
    as (Hp & Hg & Hr & _).
  apply (pending_eq_shapes self s); trivial.
  rewrite Hg. apply (sh_group_stat _ _ Hs).
Qed.

Lemma subtract_group_total (self : VanillaStatsParser) (s1 : locals)
    (tag tg : Z) :
  shapes self s1 -> 0 <= tag < max_tags -> 0 <= tg < max_tile_groups ->
  exists s2, subtract_group tag s1 tg = Ok s2.
Proof.
  intros Hsh Htag Htg.
  pose proof (index_range_Z max_tags tag Htag) as It. fold n_tags in It.
  pose proof (index_range_Z max_tile_groups tg Htg) as Ig.
  fold n_groups in Ig.
  pose proof (index_lt _ _ _ It) as La. pose proof (index_lt _ _ _ Ig) as Lb.
  destruct (rect2_cell _ _ (tile_group_stat_end s1) _ _
              (sh_group_end _ _ Hsh) La Lb) as [e He].
  destruct (rect2_cell _ _ (tile_group_stat_start s1) _ _
              (sh_group_start _ _ Hsh) La Lb) as [s Hs].
  unfold subtract_group.
  rewrite (get2_rect _ _ _ _ _ _ _ e (sh_group_end _ _ Hsh) It Ig He).
  cbn [bind].
  rewrite (get2_rect _ _ _ _ _ _ _ s (sh_group_start _ _ Hsh) It Ig Hs).
  cbn [bind].
  rewrite (set2_rect _ _ _ _ _ _ _ _ (sh_group_stat _ _ Hsh) It Ig).
  cbn [bind]. eauto.
Qed.

Lemma subtract_groups_total (self : VanillaStatsParser) (s0 : locals) :
  shapes self s0 ->
  (forall t n, num_tile_groups s0 !! t = Some n -> n <= max_tile_groups) ->
  exists s', subtract_groups s0 = Ok s'.
Proof.
  intros Hsh Hbound. unfold subtract_groups.
  destruct (for_each_invariant
              (fun _ s => shapes self s
                          /\ num_tile_groups s = num_tile_groups s0)
              (fun st tag =>
                 try n <- getitem (num_tile_groups st) tag in
                 for_each (subtract_group tag) (range n) st)
              (range max_tags) s0)
    as (s' & Hrun & _); [split; [exact Hsh | reflexivity] | | eauto].
  intros done tag todo s Hl (Hs & Hn).
  assert (Htag : 0 <= tag < max_tags).
  { apply elem_of_range. rewrite Hl. apply elem_of_app. right.
    apply elem_of_cons. auto. }
  pose proof (index_range_Z max_tags tag Htag) as It. fold n_tags in It.
  destruct (lookup_lt_is_Some_2 (num_tile_groups s) (Z.to_nat tag))
    as [n Hlook].
  { rewrite (sh_num_tile_groups _ _ Hs). apply (index_lt _ _ _ It). }
  rewrite (getitem_Ok (num_tile_groups s) tag (Z.to_nat tag) n)
    by (rewrite ?(sh_num_tile_groups _ _ Hs); assumption).
  cbn [bind].
  assert (Hle : n <= max_tile_groups).
  { apply (Hbound (Z.to_nat tag)). rewrite <- Hn. exact Hlook. }
  destruct (for_each_invariant
              (fun _ s2 => shapes self s2
                           /\ num_tile_groups s2 = num_tile_groups s0)
              (subtract_group tag) (range n) s)
    as (s2 & Hrun2 & Hs2); [split; assumption | | eauto].
  intros done2 tg todo2 s1 Hl2 (Hs1 & Hn1).
  assert (Htg : 0 <= tg < n).
  { apply elem_of_range. rewrite Hl2. apply elem_of_app. right.
    apply elem_of_cons. auto. }
  destruct (subtract_group_total self s1 tag tg Hs1 Htag) as [s3 Hs3];
    [lia |].
  exists s3. split; [exact Hs3 |].
  destruct (subtract_group_spec self s1 s3 tag tg Hs1 Htag) as
    (Hp & Ht & _ & Hr & _); [lia | exact Hs3 |].
  split.
  - apply (pending_eq_shapes self s1); trivial.
    rewrite Ht. apply (sh_stat _ _ Hs1).
  - destruct Hp as (_ & -> & _). exact Hn1.
Qed.

Lemma total_tile_total (self : VanillaStatsParser)
    (T : list (list (list Counter))) (i j k : Z) :
  rect3 n_tags (dim_y self) (dim_x self) T ->
  0 <= i < max_tags -> 0 <= j < manycore_dim_y self ->
  0 <= k < manycore_dim_x self ->
  exists T', total_tile self T i j k = Ok T'
             /\ rect3 n_tags (dim_y self) (dim_x self) T'.
Proof.
  intros HT Hi Hj Hk.
  pose proof (index_range_Z max_tags i Hi) as Ii. fold n_tags in Ii.
  pose proof (index_range_Z _ j Hj) as Ij. fold (dim_y self) in Ij.
  pose proof (index_range_Z _ k Hk) as Ik. fold (dim_x self) in Ik.
  pose proof (index_lt _ _ _ Ii) as La. pose proof (index_lt _ _ _ Ij) as Lb.
  pose proof (index_lt _ _ _ Ik) as Lc.
  unfold total_tile.
  destruct (rect3_cell _ _ _ T _ _ _ HT La Lb Lc) as [c0 Hc0].
  destruct (add_to_total3_loop "instr_total" i j k _ _ _ _ _ _ (instrs self)
              Ii Ij Ik T c0 HT Hc0) as (T1 & R1 & HT1 & C1).
  rewrite R1. cbn [bind].
  destruct (rect3_cell _ _ _ T1 _ _ _ HT1 La Lb Lc) as [c1 Hc1].
  destruct (add_to_total3_loop "stall_total" i j k _ _ _ _ _ _ (stalls self)
              Ii Ij Ik T1 c1 HT1 Hc1) as (T2 & R2 & HT2 & C2).
  rewrite R2. cbn [bind].
  destruct (rect3_cell _ _ _ T2 _ _ _ HT2 La Lb Lc) as [c2 Hc2].
  destruct (add_to_total3_loop "miss_total" i j k _ _ _ _ _ _ (misses self)
              Ii Ij Ik T2 c2 HT2 Hc2) as (T3 & R3 & HT3 & C3).
  rewrite R3. eauto.
Qed.

Lemma total_tiles_total (self : VanillaStatsParser) (s0 : locals) :
  shapes self s0 -> exists s', total_tiles self s0 = Ok s'.
Proof.
  intros Hsh. unfold total_tiles. rewrite for_each3_triples.
  set (l := triples (range max_tags) (range (manycore_dim_y self))
                    (range (manycore_dim_x self))).
  destruct (for_each_invariant
              (fun _ T => rect3 n_tags (dim_y self) (dim_x self) T)
              (fun T t => total_tile self T t.1.1 t.1.2 t.2) l (tile_stat s0))
    as (T' & Hrun & _); [apply (sh_stat _ _ Hsh) | |].
  - intros done [[tag y] x] todo T Hl HT. cbn [fst snd].
    assert (Hin : (tag, y, x) ∈ l).
    { rewrite Hl. apply elem_of_app. right. apply elem_of_cons. auto. }
    unfold l in Hin. apply elem_of_triples in Hin.
    rewrite !elem_of_range in Hin. destruct Hin as (Htag & Hy & Hx).
    apply total_tile_total; assumption.
  - rewrite Hrun. cbn [bind]. eauto.
Qed.

Lemma total_group_total (self : VanillaStatsParser)
    (T : list (list Counter)) (tag tg : Z) :
  rect2 n_tags n_groups T ->
  0 <= tag < max_tags -> 0 <= tg < max_tile_groups ->
  exists T', total_group self tag T tg = Ok T'
             /\ rect2 n_tags n_groups T'.
Proof.
  intros HT Htag Htg.
  pose proof (index_range_Z max_tags tag Htag) as It. fold n_tags in It.
  pose proof (index_range_Z max_tile_groups tg Htg) as Ig.
  fold n_groups in Ig.
  pose proof (index_lt _ _ _ It) as La. pose proof (index_lt _ _ _ Ig) as Lb.
  unfold total_group.
  destruct (rect2_cell _ _ T _ _ HT La Lb) as [c0 Hc0].
  destruct (add_to_total2_loop "instr_total" tag tg _ _ _ _ (instrs self)
              It Ig T c0 HT Hc0) as (T1 & R1 & HT1 & C1).
  rewrite R1. cbn [bind].
  destruct (rect2_cell _ _ T1 _ _ HT1 La Lb) as [c1 Hc1].
  destruct (add_to_total2_loop "stall_total" tag tg _ _ _ _ (stalls self)
              It Ig T1 c1 HT1 Hc1) as (T2 & R2 & HT2 & C2).
  rewrite R2. cbn [bind].
  destruct (rect2_cell _ _ T2 _ _ HT2 La Lb) as [c2 Hc2].
  destruct (add_to_total2_loop "miss_total" tag tg _ _ _ _ (misses self)
              It Ig T2 c2 HT2 Hc2) as (T3 & R3 & HT3 & C3).
  rewrite R3. eauto.
Qed.

Lemma total_groups_total (self : VanillaStatsParser) (s0 : locals) :
  shapes self s0 ->
  (forall t n, num_tile_groups s0 !! t = Some n -> n <= max_tile_groups) ->
  exists s', total_groups self s0 = Ok s'.
Proof.
  intros Hsh Hbound. unfold total_groups.
  destruct (for_each_invariant
              (fun _ T => rect2 n_tags n_groups T)
              (fun t tag =>
                 try n <- getitem (num_tile_groups s0) tag in
                 for_each (total_group self tag) (range n) t)
              (range max_tags) (tile_group_stat s0))
    as (T' & Hrun & _); [apply (sh_group_stat _ _ Hsh) | |].
  - intros done tag todo T Hl HT.
    assert (Htag : 0 <= tag < max_tags).
    { apply elem_of_range. rewrite Hl. apply elem_of_app. right.
      apply elem_of_cons. auto. }
    pose proof (index_range_Z max_tags tag Htag) as It. fold n_tags in It.
    destruct (lookup_lt_is_Some_2 (num_tile_groups s0) (Z.to_nat tag))
      as [n Hlook].
    { rewrite (sh_num_tile_groups _ _ Hsh). apply (index_lt _ _ _ It). }
    rewrite (getitem_Ok (num_tile_groups s0) tag (Z.to_nat tag) n)
      by (rewrite ?(sh_num_tile_groups _ _ Hsh); assumption).
    cbn [bind].
    pose proof (Hbound _ _ Hlook) as Hle.
    destruct (for_each_invariant
                (fun _ T2 => rect2 n_tags n_groups T2)
                (total_group self tag) (range n) T)
      as (T2 & Hrun2 & HT2); [exact HT | | eauto].
    intros done2 tg todo2 T1 Hl2 HT1.
    assert (Htg : 0 <= tg < n).
    { apply elem_of_range. rewrite Hl2. apply elem_of_app. right.
      apply elem_of_cons. auto. }
    apply total_group_total; [assumption | assumption | lia].
  - rewrite Hrun. cbn [bind]. eauto.
Qed.

(** With a schema that is not empty, the method returns on every list of
    valid traces. *)
Lemma generate_tile_stats_total (self : VanillaStatsParser)
    (traces : list (gmap string Z)) :
  all_ops self <> [] ->
  forallb (valid_trace self) traces = true ->
  exists r, __generate_tile_stats self traces = Ok r.
Proof.
  intros Hops Hvalid. unfold __generate_tile_stats.
  destruct (read_traces_total self traces Hvalid) as [st1 H1].
  rewrite H1. cbn [bind].
  destruct (read_traces_spec self traces st1 H1) as (S1 & _).
  assert (Hbound : forall t n, num_tile_groups st1 !! t = Some n ->
                               n <= max_tile_groups).
  { intros t n Hn.
    assert (Ht : (t < n_tags)%nat).
    { rewrite <- (sh_num_tile_groups _ _ S1). eapply lookup_lt_Some; eauto. }
    rewrite (read_traces_num_tile_groups self traces st1 Hops H1 t Ht) in Hn.
    injection Hn as <-. pose proof (started_groups_bound self t traces).
    pose proof n_groups_eq. change max_tile_groups with 16384. lia. }
  destruct (subtract_tiles_total self st1 S1) as [st2 H2].
  rewrite H2. cbn [bind].
  destruct (subtract_tiles_spec self st1 st2 S1 H2) as (S2 & P2 & _).
  assert (N2 : num_tile_groups st2 = num_tile_groups st1)
    by (destruct P2 as (_ & -> & _); reflexivity).
  destruct (subtract_groups_total self st2 S2) as [st3 H3];
    [rewrite N2; exact Hbound |].
  rewrite H3. cbn [bind].
  destruct (subtract_groups_spec self st2 st3 S2 H3) as (S3 & P3 & _).
  destruct (total_tiles_total self st3 S3) as [st4 H4].
  rewrite H4. cbn [bind].
  destruct (total_tiles_spec self st3 st4 S3 H4) as (S4 & P4 & _).
  assert (N4 : num_tile_groups st4 = num_tile_groups st1).
  { destruct P4 as (_ & -> & _). destruct P3 as (_ & -> & _). exact N2. }
  destruct (total_groups_total self st4 S4) as [st5 H5];
    [rewrite N4; exact Hbound |].
  rewrite H5. cbn [bind]. eauto.
Qed.

(** X13. With a schema that is not empty, the method raises exactly when
    some trace is not valid.  A trace is valid when it has the columns y,
    x and tag and the stat type of its tag is 0, 1 or 2, and, for a start
    or an end trace, when [y - 1] and [x] index the grid the Python way
    (from minus the dimension up to the dimension, excluded) and the trace
    has every operation of [all_ops]. *)
Theorem raises_exactly_on_invalid_traces (self : VanillaStatsParser)
    (traces : list (gmap string Z)) :
  all_ops self <> [] ->
  is_Ok (__generate_tile_stats self traces)
  = forallb (valid_trace self) traces.
Proof.
  intros Hops.
  destruct (__generate_tile_stats self traces) as [[self' st] | e] eqn:H.
  - apply generate_tile_stats_spec in H. destruct H as (_ & _ & Hvalid & _).
    rewrite Hvalid. reflexivity.
  - destruct (forallb (valid_trace self) traces) eqn:Hvalid; [| reflexivity].
    destruct (generate_tile_stats_total self traces Hops Hvalid) as [r Hr].
    congruence.
Qed.

(** A trace outside a grid of one tile (row 2), after a trace of the
    tile: not valid, and the method raises. *)
Lemma raises_exactly_on_invalid_traces_witness :
  is_Ok (__generate_tile_stats sample_parser
           [sample_trace 1 0 (pack 1 1 0 0 0) 10 5;
            sample_trace 3 0 (pack 2 3 0 0 0) 25 15])
  = false
  /\ is_Ok (__generate_tile_stats sample_parser
              [sample_trace 1 0 (pack 1 1 0 0 0) 10 5;
               sample_trace 0 0 (pack 2 0 0 0 0) 25 15])
     = true.
Proof.
  assert (Hops : all_ops sample_parser <> []) by discriminate.
  split.
  - rewrite (raises_exactly_on_invalid_traces sample_parser _ Hops).
    vm_compute. reflexivity.
  - rewrite (raises_exactly_on_invalid_traces sample_parser _ Hops).
    vm_compute. reflexivity.
Defined.

(** ** The two methods together *)

(** X14. The two calls of [__init__] compose: when
    [__generate_tile_stats] returns, [__generate_manycore_stats_all] on the
    updated parser and the returned [tile_stat] raises nothing, and for
    every tag and every name the Counter of the tag holds the sum of the
    tiles' values over the grid, times the number of times the name is in
    the updated [all_ops] (the three totals are in it). *)
Theorem rollup_of_returned_tiles (self self' : VanillaStatsParser)
    (traces : list (gmap string Z)) (st : locals) :
  __generate_tile_stats self traces = Ok (self', st) ->
  exists M,
    __generate_manycore_stats_all self' (tile_stat st) = Ok M
    /\ forall tag op,
         0 <= tag < max_tags ->
         exists m,
           getitem M tag = Ok m
           /\ counter_get m op
              = occurrences op (all_ops self')
                * sum_over
                    (fun y =>
                       sum_over
                         (fun x => tile_value (tile_stat st) tag y x op)
                         (range (manycore_dim_x self')))
                    (range (manycore_dim_y self')).
Proof.
  intros H. apply generate_tile_stats_spec in H.
  destruct H as (-> & Hsh & _).
  destruct (rollup_spec (with_totals self) (tile_stat st))
    as (M & Hrun & _ & Hall); [apply (sh_stat _ _ Hsh) |].
  exists M. split; [exact Hrun |]. exact Hall.
Qed.

(** A grid of two rows and one column, a start and an end trace on each
    tile: the cycles of the tiles are 15 and 8, the grid has 23. *)
Lemma rollup_of_returned_tiles_witness :
  exists self' st M m,
    __generate_tile_stats
      (new_parser 2 1 ["x"; "y"; "tag"; "cycle"; "instr_add"])
      [sample_trace 1 0 (pack 1 1 0 0 0) 10 5;
       sample_trace 2 0 (pack 1 2 0 0 0) 12 6;
       sample_trace 2 0 (pack 2 2 0 0 0) 20 9;
       sample_trace 1 0 (pack 2 1 0 0 0) 25 15] = Ok (self', st)
    /\ __generate_manycore_stats_all self' (tile_stat st) = Ok M
    /\ getitem M 0 = Ok m
    /\ tile_value (tile_stat st) 0 0 0 "cycle" = 15
    /\ tile_value (tile_stat st) 0 1 0 "cycle" = 8
    /\ counter_get m "cycle" = 23
    /\ counter_get m "instr_total" = 13.
Proof.
  destruct (is_Ok_inv
              (__generate_tile_stats
                 (new_parser 2 1 ["x"; "y"; "tag"; "cycle"; "instr_add"])
                 [sample_trace 1 0 (pack 1 1 0 0 0) 10 5;
                  sample_trace 2 0 (pack 1 2 0 0 0) 12 6;
                  sample_trace 2 0 (pack 2 2 0 0 0) 20 9;
                  sample_trace 1 0 (pack 2 1 0 0 0) 25 15]))
    as [[self' st] H].
  - vm_compute. reflexivity.
  - assert (Hself : self' = with_totals
                      (new_parser 2 1 ["x"; "y"; "tag"; "cycle"; "instr_add"])).
    { apply (generate_tile_stats_spec _ _ _ _ H). }
    destruct (rollup_of_returned_tiles _ self' _ st H) as (M & Hrun & Hsum).
    assert (Hvalues :
      forall y op,
        tile_value (tile_stat st) 0 y 0 op
        = tile_value
            (returned_tile_stat
               (__generate_tile_stats
                  (new_parser 2 1 ["x"; "y"; "tag"; "cycle"; "instr_add"])
                  [sample_trace 1 0 (pack 1 1 0 0 0) 10 5;
                   sample_trace 2 0 (pack 1 2 0 0 0) 12 6;
                   sample_trace 2 0 (pack 2 2 0 0 0) 20 9;
                   sample_trace 1 0 (pack 2 1 0 0 0) 25 15])) 0 y 0 op).
    { intros y op. rewrite H. reflexivity. }
    destruct (Hsum 0 "cycle") as (m & Hm & Hcycle);
      [vm_compute; split; [discriminate | reflexivity] |].
    destruct (Hsum 0 "instr_total") as (m' & Hm' & Htotal);
      [vm_compute; split; [discriminate | reflexivity] |].
    rewrite Hm in Hm'. injection Hm' as <-.
    exists self', st, M, m.
    split; [exact H |]. split; [exact Hrun |]. split; [exact Hm |].
    split; [rewrite Hvalues; vm_compute; reflexivity |].
    split; [rewrite Hvalues; vm_compute; reflexivity |].
    split.
    + rewrite Hcycle, Hself.
      change (range (manycore_dim_y _)) with [0; 1].
      change (range (manycore_dim_x _)) with [0].
      cbn [sum_over foldr]. rewrite !Hvalues. vm_compute. reflexivity.
    + rewrite Htotal, Hself.
      change (range (manycore_dim_y _)) with [0; 1].
      change (range (manycore_dim_x _)) with [0].
      cbn [sum_over foldr]. rewrite !Hvalues. vm_compute. reflexivity.
Defined.

(** ** The three totals *)

Lemma occurrences_not_in (op : string) (ops : list string) :
  op ∉ ops -> occurrences op ops = 0.
Proof.
  unfold occurrences. induction ops as [| o ops IH]; intros Hn;
    [reflexivity |].
  apply not_elem_of_cons in Hn. destruct Hn as [Hne Hn].
  cbn [sum_over foldr]. fold (sum_over (fun o => if decide (o = op) then 1 else 0) ops).
  rewrite IH by assumption. rewrite decide_False by congruence. reflexivity.
Qed.

Lemma snapshot_get_outside (self : VanillaStatsParser) kind q traces k :
  k ∉ all_ops self -> counter_get (snapshot self kind q traces ∅) k = 0.
Proof.
  intros Hk. unfold counter_get.
  assert (Hnone : snapshot self kind q traces ∅ !! k = None).
  { apply not_elem_of_dom. intros Hin.
    apply (snapshot_dom self kind q traces ∅) in Hin.
    - apply elem_of_list_to_set in Hin. contradiction.
    - rewrite dom_empty_L. apply empty_subseteq. }
  rewrite Hnone. reflexivity.
Qed.

Lemma accumulated_get_outside (self : VanillaStatsParser) kind g traces c k :
  k ∉ all_ops self ->
  counter_get (accumulated self kind g traces c) k = counter_get c k.
Proof.
  intros Hk. unfold accumulated. revert c.
  induction traces as [| trace traces IH]; intros c; cbn [foldl];
    [reflexivity |].
  rewrite IH. unfold group_step.
  destruct (group_event self kind g trace); [| reflexivity].
  rewrite add_ops_get_count, occurrences_not_in by assumption. lia.
Qed.

(** The totals of a Counter that has none yet, when no category lists a
    total. *)
Lemma add_totals_sums (self : VanillaStatsParser) (delta : Counter) :
  Forall (fun op => op ∉ total_names)
         (instrs self ++ stalls self ++ misses self) ->
  (forall total, total ∈ total_names -> counter_get delta total = 0) ->
  counter_get (add_totals self delta) "instr_total"
  = sum_over (counter_get (add_totals self delta)) (instrs self)
  /\ counter_get (add_totals self delta) "stall_total"
     = sum_over (counter_get (add_totals self delta)) (stalls self)
  /\ counter_get (add_totals self delta) "miss_total"
     = sum_over (counter_get (add_totals self delta)) (misses self).
Proof.
  intros Hfree Hzero.
  apply Forall_app in Hfree. destruct Hfree as [Hi Hfree].
  apply Forall_app in Hfree. destruct Hfree as [Hs Hm].
  assert (Hnot : forall ops total,
            Forall (fun op => op ∉ total_names) ops ->
            total ∈ total_names -> total ∉ ops).
  { intros ops total Hops Ht Hin. rewrite Forall_forall in Hops.
    apply (Hops total Hin Ht). }
  assert (Hsame : forall ops,
            Forall (fun op => op ∉ total_names) ops ->
            sum_over (counter_get (add_totals self delta)) ops
            = sum_over (counter_get delta) ops).
  { intros ops Hops. apply sum_over_ext. intros op Hop.
    rewrite Forall_forall in Hops. apply add_totals_other. auto. }
  assert (T1 : "instr_total" ∈ total_names)
    by (unfold total_names; rewrite !elem_of_cons; auto).
  assert (T2 : "stall_total" ∈ total_names)
    by (unfold total_names; rewrite !elem_of_cons; auto).
  assert (T3 : "miss_total" ∈ total_names)
    by (unfold total_names; rewrite !elem_of_cons; auto).
  rewrite !Hsame by assumption. unfold add_totals.
  split; [| split].
  - rewrite !add_total_other by discriminate.
    rewrite add_total_total by auto. rewrite (Hzero _ T1). lia.
  - rewrite add_total_other by discriminate.
    rewrite add_total_total by auto.
    rewrite add_total_other by discriminate. rewrite (Hzero _ T2).
    rewrite Z.add_0_l. apply sum_over_ext. intros op Hop.
    apply add_total_other. intros ->. apply (Hnot _ _ Hs T1 Hop).
  - rewrite add_total_total by auto.
    rewrite !add_total_other by discriminate. rewrite (Hzero _ T3).
    rewrite Z.add_0_l. apply sum_over_ext. intros op Hop.
    rewrite !add_total_other; [reflexivity | |].
    + intros ->. apply (Hnot _ _ Hm T1 Hop).
    + intros ->. apply (Hnot _ _ Hm T2 Hop).
Qed.

Lemma new_parser_lists (dy dx : Z) (header : list string) :
  all_ops (new_parser dy dx header)
  = stats (new_parser dy dx header) ++ instrs (new_parser dy dx header)
    ++ misses (new_parser dy dx header) ++ stalls (new_parser dy dx header).
Proof.
  unfold new_parser. destruct (parse_header header) as [[[l1 l2] l3] l4].
  reflexivity.
Qed.

(** The schema of a header without stall_total and miss_total has none of
    the three totals. *)
Lemma new_parser_no_total (dy dx : Z) (header : list string) :
  "stall_total" ∉ header -> "miss_total" ∉ header ->
  Forall (fun op => op ∉ total_names) (all_ops (new_parser dy dx header)).
Proof.
  intros Hs Hm. apply Forall_forall. intros op Hop.
  rewrite all_ops_permutation in Hop.
  apply list_elem_of_In, filter_In in Hop. destruct Hop as [Hop Hne].
  apply list_elem_of_In in Hop.
  apply not_total_name; intros ->; [discriminate Hne | tauto | tauto].
Qed.

(** X15. For a parser built from a header without the columns
    stall_total and miss_total, every Counter that the method returns, of
    a tile or of a tile group, has as instr_total the sum of its values of
    the instruction columns, as stall_total the sum of its values of the
    stall columns and as miss_total the sum of its values of the miss
    columns (a column listed twice in the header counted twice). *)
Theorem totals_are_sums (dy dx : Z) (header : list string)
    (self' : VanillaStatsParser) (traces : list (gmap string Z))
    (st : locals) :
  "stall_total" ∉ header -> "miss_total" ∉ header ->
  __generate_tile_stats (new_parser dy dx header) traces = Ok (self', st) ->
  forall c,
    (exists q, cell3 (tile_stat st) q = Some c)
    \/ (exists g, cell2 (tile_group_stat st) g = Some c) ->
    counter_get c "instr_total"
    = sum_over (counter_get c) (instrs (new_parser dy dx header))
    /\ counter_get c "stall_total"
       = sum_over (counter_get c) (stalls (new_parser dy dx header))
    /\ counter_get c "miss_total"
       = sum_over (counter_get c) (misses (new_parser dy dx header)).
Proof.
  intros Hs Hm H c Hc.
  set (self := new_parser dy dx header) in *.
  pose proof (new_parser_no_total dy dx header Hs Hm) as Hfree.
  fold self in Hfree.
  assert (Hcat : Forall (fun op => op ∉ total_names)
                        (instrs self ++ stalls self ++ misses self)).
  { apply Forall_forall. intros op Hop. rewrite Forall_forall in Hfree.
    apply Hfree. unfold self. rewrite new_parser_lists. fold self.
    rewrite !elem_of_app in *. tauto. }
  assert (Hout : forall total, total ∈ total_names ->
                               total ∉ all_ops self).
  { intros total Ht Hin. rewrite Forall_forall in Hfree.
    apply (Hfree total Hin Ht). }
  assert (Hempty : counter_get (∅ : Counter) "instr_total"
                   = sum_over (counter_get (∅ : Counter)) (instrs self)
                   /\ counter_get (∅ : Counter) "stall_total"
                      = sum_over (counter_get (∅ : Counter)) (stalls self)
                   /\ counter_get (∅ : Counter) "miss_total"
                      = sum_over (counter_get (∅ : Counter)) (misses self)).
  { assert (Hz : forall ops, sum_over (counter_get (∅ : Counter)) ops = 0).
    { intros ops. rewrite (sum_over_ext _ (fun _ => 0));
        [apply sum_over_zero | reflexivity]. }
    rewrite !Hz. repeat split. }
  apply generate_tile_stats_spec in H.
  destruct H as (_ & Hsh & _ & _ & Htiles & Hgroups & _).
  destruct Hc as [[[[t a] b] Hc] | [[t g] Hc]].
  - destruct (cell3_lt _ _ _ _ _ _ _ _ (sh_stat _ _ Hsh) Hc) as (Q1 & Q2 & Q3).
    destruct (Htiles (t, a, b) Q1 Q2 Q3) as (_ & _ & _ & Ht).
    rewrite Hc in Ht. injection Ht as ->.
    apply add_totals_sums; [exact Hcat |].
    intros total Ht. rewrite counter_get_sub.
    rewrite !snapshot_get_outside by auto. reflexivity.
  - destruct (cell2_lt _ _ _ _ _ _ (sh_group_stat _ _ Hsh) Hc) as (Q1 & Q2).
    destruct (Hgroups (t, g) Q1 Q2) as (_ & _ & Ht).
    rewrite Hc in Ht. injection Ht as ->.
    destruct (group_done (num_tile_groups st) (t, g)); [| exact Hempty].
    apply add_totals_sums; [exact Hcat |].
    intros total Ht. rewrite counter_get_sub.
    rewrite !accumulated_get_outside by auto. reflexivity.
Qed.

(** A header with two instruction columns and one stall column; one start
    and one end trace of the tile. *)
Lemma totals_are_sums_witness :
  exists self' st c,
    __generate_tile_stats
      (new_parser 1 1 ["x"; "y"; "tag"; "instr_add"; "instr_mul"; "stall_fp"])
      [<["x" := 0]> (<["y" := 1]> (<["tag" := pack 1 1 0 0 0]>
         (<["instr_add" := 5]> (<["instr_mul" := 1]>
            (<["stall_fp" := 2]> ∅)))));
       <["x" := 0]> (<["y" := 1]> (<["tag" := pack 2 1 0 0 0]>
         (<["instr_add" := 15]> (<["instr_mul" := 4]>
            (<["stall_fp" := 9]> ∅)))))] = Ok (self', st)
    /\ cell3 (tile_stat st) (0, 0, 0)%nat = Some c
    /\ counter_get c "instr_total"
       = counter_get c "instr_add" + (counter_get c "instr_mul" + 0)
    /\ counter_get c "stall_total" = counter_get c "stall_fp" + 0
    /\ counter_get c "instr_total" = 13
    /\ counter_get c "stall_total" = 7.
Proof.
  destruct (is_Ok_inv
              (__generate_tile_stats
                 (new_parser 1 1
                    ["x"; "y"; "tag"; "instr_add"; "instr_mul"; "stall_fp"])
                 [<["x" := 0]> (<["y" := 1]> (<["tag" := pack 1 1 0 0 0]>
                    (<["instr_add" := 5]> (<["instr_mul" := 1]>
                       (<["stall_fp" := 2]> ∅)))));
                  <["x" := 0]> (<["y" := 1]> (<["tag" := pack 2 1 0 0 0]>
                    (<["instr_add" := 15]> (<["instr_mul" := 4]>
                       (<["stall_fp" := 9]> ∅)))))]))
    as [[self' st] H].
  - vm_compute. reflexivity.
  - destruct (generate_tile_stats_spec _ _ _ _ H)
      as (_ & _ & _ & _ & Htiles & _).
    destruct (Htiles (0, 0, 0)%nat) as (_ & _ & _ & Hc); [vm_compute; lia ..|].
    assert (Hs : "stall_total"
                 ∉ ["x"; "y"; "tag"; "instr_add"; "instr_mul"; "stall_fp"])
      by (apply (bool_decide_eq_true_1 (_ ∉ _)); vm_compute; reflexivity).
    assert (Hm : "miss_total"
                 ∉ ["x"; "y"; "tag"; "instr_add"; "instr_mul"; "stall_fp"])
      by (apply (bool_decide_eq_true_1 (_ ∉ _)); vm_compute; reflexivity).
    destruct (totals_are_sums 1 1 _ self' _ st Hs Hm H _
                (or_introl (ex_intro _ (0, 0, 0)%nat Hc)))
      as (Hi & Hst & _).
    eexists self', st, _. split; [exact H |]. split; [exact Hc |].
    split; [exact Hi |]. split; [exact Hst |].
    vm_compute. split; reflexivity.
Defined.

(** ** __generate_tile_stats: which exception *)

Lemma index_error (len : nat) (i : Z) (e : error) :
  index len i = Err e -> e = IndexError.
Proof.
  unfold index. destruct (_ && _); [discriminate |].
  destruct (_ && _); [discriminate |]. congruence.
Qed.

Lemma getitem_index_error {A} (l : list A) (i : Z) (e : error) :
  index (length l) i = Err e -> getitem l i = Err IndexError.
Proof.
  intros H. unfold getitem. rewrite H. cbn [bind].
  rewrite (index_error _ _ _ H). reflexivity.
Qed.

Lemma get3_index_error {A} (n m p : nat) (T : list (list (list A)))
    (i j k : Z) (a : nat) :
  rect3 n m p T -> index n i = Ok a ->
  (exists e, index m j = Err e)
  \/ (exists b e, index m j = Ok b /\ index p k = Err e) ->
  get3 T i j k = Err IndexError.
Proof.
  intros HT Hi Hcase. unfold get3.
  destruct (lookup_lt_is_Some_2 T a) as [plane Hplane].
  { rewrite (proj1 HT). apply (index_lt _ _ _ Hi). }
  rewrite (getitem_Ok T i a plane) by (rewrite ?(proj1 HT); assumption).
  cbn [bind]. unfold get2.
  pose proof (rect3_plane _ _ _ _ _ _ HT Hplane) as Hpl.
  destruct Hcase as [[e He] | (b & e & Hb & He)].
  - rewrite (getitem_index_error plane j e) by (rewrite (proj1 Hpl); exact He).
    reflexivity.
  - destruct (lookup_lt_is_Some_2 plane b) as [row Hrow].
    { rewrite (proj1 Hpl). apply (index_lt _ _ _ Hb). }
    rewrite (getitem_Ok plane j b row) by (rewrite ?(proj1 Hpl); assumption).
    cbn [bind]. apply (getitem_index_error row k e).
    rewrite (rect2_row _ _ _ _ _ Hpl Hrow). exact He.
Qed.

(** The loop over the operations raises [KeyError] at the first one that
    the trace lacks. *)
Lemma record_ops_error (trace : gmap string Z) (tag ry rx tg : Z)
    (n m p g : nat) (a b c d : nat) (ops : list string) :
  index n tag = Ok a -> index m ry = Ok b -> index p rx = Ok c ->
  index g tg = Ok d ->
  forallb (fun op => bool_decide (is_Some (trace !! op))) ops = false ->
  forall (T : list (list (list Counter))) (G : list (list Counter))
         (c0 g0 : Counter),
    rect3 n m p T -> rect2 n g G ->
    cell3 T (a, b, c) = Some c0 -> cell2 G (a, d) = Some g0 ->
    for_each (record_op trace tag ry rx tg) ops (T, G) = Err KeyError.
Proof.
  intros Ha Hb Hc Hd.
  induction ops as [| op ops IH]; intros Hops T G c0 g0 HT HG Hc0 Hg0;
    [discriminate |].
  cbn [forallb] in Hops. cbn [for_each]. unfold record_op at 1.
  unfold dict_get. destruct (trace !! op) as [v |] eqn:Hv; [| reflexivity].
  rewrite bool_decide_eq_true_2 in Hops by eauto. cbn [andb] in Hops.
  cbn [bind].
  rewrite (get3_rect n m p T tag ry rx a b c c0) by assumption. cbn [bind].
  rewrite (set3_rect n m p T tag ry rx a b c) by assumption. cbn [bind].
  rewrite (get2_rect n g G tag tg a d g0) by assumption. cbn [bind].
  rewrite (set2_rect n g G tag tg a d) by assumption. cbn [bind].
  apply (IH Hops _ _ (counter_set c0 op v) (counter_iadd g0 op v)).
  - apply rect3_insert3. assumption.
  - apply rect2_insert2. assumption.
  - rewrite cell3_insert3 by (rewrite Hc0; eauto).
    rewrite decide_True by reflexivity. reflexivity.
  - rewrite cell2_insert2 by (rewrite Hg0; eauto).
    rewrite decide_True by reflexivity. reflexivity.
Qed.

Lemma process_trace_error (self : VanillaStatsParser) (st : locals)
    (trace : gmap string Z) :
  shapes self st -> valid_trace self trace = false ->
  process_trace self st trace = Err (trace_exception self trace).
Proof.
  intros Hsh Hvalid.
  unfold process_trace, trace_exception, dict_get.
  unfold valid_trace, event in Hvalid.
  destruct (trace !! "y") as [y |]; [| reflexivity]. cbn [bind].
  destruct (trace !! "x") as [x |]; [| reflexivity]. cbn [bind].
  destruct (trace !! "tag") as [tag |]; [| reflexivity]. cbn [bind].
  destruct (CudaStatTag.init tag) as [cst | e]; [| reflexivity].
  cbn [bind]. rewrite isStat_eq in Hvalid. rewrite isStart_eq, isEnd_eq.
  set (t := Z.to_nat (CudaStatTag.tag cst)).
  set (d := Z.to_nat (CudaStatTag.tg_id cst)).
  pose proof (index_tag cst) as Hit. fold t in Hit.
  pose proof (index_tg_id cst) as Hid. fold d in Hid.
  pose proof (index_lt _ _ _ Hit) as Lt. pose proof (index_lt _ _ _ Hid) as Ld.
  destruct (CudaStatTag.type cst) eqn:Ety.
  - rewrite bool_decide_eq_true_2 in Hvalid by reflexivity. discriminate.
  - rewrite bool_decide_eq_false_2 in Hvalid by discriminate.
    rewrite bool_decide_eq_true_2 by reflexivity.
    destruct (index (dim_y self) _) as [a | e] eqn:Ha.
    2: { rewrite (get3_index_error _ _ _ _ _ _ _ t (sh_credits _ _ Hsh) Hit);
           [reflexivity | left; eauto]. }
    destruct (index (dim_x self) _) as [b | e] eqn:Hb.
    2: { rewrite (get3_index_error _ _ _ _ _ _ _ t (sh_credits _ _ Hsh) Hit);
           [reflexivity | right; eauto]. }
    pose proof (index_lt _ _ _ Ha) as La. pose proof (index_lt _ _ _ Hb) as Lb.
    destruct (rect3_cell _ _ _ (tag_credits st) t a b (sh_credits _ _ Hsh)
                Lt La Lb) as [credit Hcredit].
    rewrite (get3_rect _ _ _ _ _ _ _ t a b credit (sh_credits _ _ Hsh))
      by assumption.
    cbn [bind].
    rewrite (set3_rect _ _ _ _ _ _ _ t a b _ (sh_credits _ _ Hsh) Hit Ha Hb).
    cbn [bind]. simpl_locals.
    destruct (lookup_lt_is_Some_2 (tile_group_stat_start st) t)
      as [groups Hgroups].
    { rewrite (proj1 (sh_group_start _ _ Hsh)). exact Lt. }
    rewrite (getitem_Ok _ _ t groups)
      by (rewrite ?(proj1 (sh_group_start _ _ Hsh)); assumption).
    cbn [bind].
    rewrite (n_groups_truthy _ _ _ _ (sh_group_start _ _ Hsh) Hgroups).
    cbn [negb].
    destruct (lookup_lt_is_Some_2 groups d) as [group Hgroup].
    { rewrite (rect2_row _ _ _ _ _ (sh_group_start _ _ Hsh) Hgroups).
      exact Ld. }
    rewrite (getitem_Ok _ _ d group)
      by (rewrite ?(rect2_row _ _ _ _ _ (sh_group_start _ _ Hsh) Hgroups);
          assumption).
    cbn [bind].
    assert (Hg0 : cell2 (tile_group_stat_start st) (t, d) = Some group).
    { unfold cell2. cbn [fst snd]. rewrite Hgroups. exact Hgroup. }
    destruct (rect3_cell _ _ _ (tile_stat_start st) t a b (sh_start _ _ Hsh)
                Lt La Lb) as [c0 Hc0].
    pose proof (record_ops_error trace _ _ _ _ _ _ _ _ t a b d (all_ops self)
                  Hit Ha Hb Hid Hvalid _ _ c0 group
                  (sh_start _ _ Hsh) (sh_group_start _ _ Hsh) Hc0 Hg0)
      as Hrun.
    destruct (negb (counter_truthy group)); simpl_locals.
    + destruct (lookup_lt_is_Some_2 (num_tile_groups st) t) as [n Hn].
      { rewrite (sh_num_tile_groups _ _ Hsh). exact Lt. }
      rewrite (getitem_Ok _ _ t n)
        by (rewrite ?(sh_num_tile_groups _ _ Hsh); assumption).
      cbn [bind].
      rewrite (setitem_Ok _ _ t)
        by (rewrite ?(sh_num_tile_groups _ _ Hsh); assumption).
      cbn [bind]. simpl_locals. rewrite Hrun. reflexivity.
    + cbn [bind]. simpl_locals. rewrite Hrun. reflexivity.
  - rewrite bool_decide_eq_false_2 in Hvalid by discriminate.
    rewrite bool_decide_eq_false_2 by discriminate.
    rewrite bool_decide_eq_true_2 by reflexivity.
    destruct (index (dim_y self) _) as [a | e] eqn:Ha.
    2: { rewrite (get3_index_error _ _ _ _ _ _ _ t (sh_credits _ _ Hsh) Hit);
           [reflexivity | left; eauto]. }
    destruct (index (dim_x self) _) as [b | e] eqn:Hb.
    2: { rewrite (get3_index_error _ _ _ _ _ _ _ t (sh_credits _ _ Hsh) Hit);
           [reflexivity | right; eauto]. }
    pose proof (index_lt _ _ _ Ha) as La. pose proof (index_lt _ _ _ Hb) as Lb.
    destruct (rect3_cell _ _ _ (tag_credits st) t a b (sh_credits _ _ Hsh)
                Lt La Lb) as [credit Hcredit].
    rewrite (get3_rect _ _ _ _ _ _ _ t a b credit (sh_credits _ _ Hsh))
      by assumption.
    cbn [bind].
    rewrite (set3_rect _ _ _ _ _ _ _ t a b _ (sh_credits _ _ Hsh) Hit Ha Hb).
    cbn [bind]. simpl_locals.
    rewrite (get3_rect n_tags (dim_y self) (dim_x self) _ _ _ _ t a b
               (credit - 1)); trivial.
    2: { apply rect3_insert3. apply (sh_credits _ _ Hsh). }
    2: { rewrite cell3_insert3 by (rewrite Hcredit; eauto).
         rewrite decide_True by reflexivity. reflexivity. }
    cbn [bind].
    destruct (rect2_cell _ _ (tile_group_stat_end st) t d
                (sh_group_end _ _ Hsh) Lt Ld) as [g0 Hg0].
    destruct (rect3_cell _ _ _ (tile_stat_end st) t a b (sh_end _ _ Hsh)
                Lt La Lb) as [c0 Hc0].
    pose proof (record_ops_error trace _ _ _ _ _ _ _ _ t a b d (all_ops self)
                  Hit Ha Hb Hid Hvalid _ _ c0 g0
                  (sh_end _ _ Hsh) (sh_group_end _ _ Hsh) Hc0 Hg0)
      as Hrun.
    destruct (credit - 1 <? 0); simpl_locals; rewrite Hrun; reflexivity.
Qed.

(** X16. The exception that the method raises is that of the first
    trace that is not valid: [KeyError] when the trace lacks y, x or tag;
    else [ValueError] when the stat type of its tag is 3; else, for a
    start or end trace, [IndexError] when [y - 1] or [x] does not index
    the grid; else [KeyError], for an operation of [all_ops] that the trace
    lacks.  The traces after it are not looked at. *)
Theorem first_invalid_trace_raises (self : VanillaStatsParser)
    (done todo : list (gmap string Z)) (trace : gmap string Z) :
  forallb (valid_trace self) done = true ->
  valid_trace self trace = false ->
  __generate_tile_stats self (done ++ trace :: todo)
  = Err (trace_exception self trace).
Proof.
  intros Hdone Htrace.
  destruct (read_traces_total self done Hdone) as [st1 H1].
  destruct (read_traces_spec self done st1 H1) as (S1 & _).
  unfold __generate_tile_stats, read_traces in *.
  rewrite (for_each_Err _ done todo trace _ st1 (trace_exception self trace));
    [reflexivity | exact H1 |].
  apply process_trace_error; assumption.
Qed.

(** A trace whose tag has stat type 3, after a valid start trace and
    before a trace that lacks every column. *)
Lemma first_invalid_trace_raises_witness :
  __generate_tile_stats sample_parser
    ([sample_trace 1 0 (pack 1 1 0 0 0) 10 5]
     ++ sample_trace 1 0 (pack 3 1 0 0 0) 12 6 :: [∅])
  = Err ValueError.
Proof.
  apply (first_invalid_trace_raises sample_parser
           [sample_trace 1 0 (pack 1 1 0 0 0) 10 5] [∅]
           (sample_trace 1 0 (pack 3 1 0 0 0) 12 6)).
  - vm_compute. reflexivity.
  - vm_compute. reflexivity.
Defined.

(** ** Tile groups beyond the count *)

(** X17. The closing loops run over [range(num_tile_groups[tag])], so
    the Counter of a tile group id at or above [num_tile_groups[tag]] is
    left as it was built, empty, whether or not traces name that id. *)
Theorem groups_beyond_the_count_stay_empty (self self' : VanillaStatsParser)
    (traces : list (gmap string Z)) (st : locals) (tag tg_id n : Z) :
  __generate_tile_stats self traces = Ok (self', st) ->
  0 <= tag < max_tags ->
  getitem (num_tile_groups st) tag = Ok n ->
  0 <= tg_id < max_tile_groups -> n <= tg_id ->
  get2 (tile_group_stat st) tag tg_id = Ok ∅.
Proof.
  intros H Htag Hn Htg Hle. apply generate_tile_stats_spec in H.
  destruct H as (_ & Hsh & _ & _ & _ & Hgroups & _).
  pose proof (index_range_Z max_tags tag Htag) as It. fold n_tags in It.
  pose proof (index_range_Z max_tile_groups tg_id Htg) as Ig.
  fold n_groups in Ig.
  destruct (Hgroups (Z.to_nat tag, Z.to_nat tg_id)
              (index_lt _ _ _ It) (index_lt _ _ _ Ig)) as (_ & _ & Hcell).
  apply getitem_inv in Hn. destruct Hn as (t & Ht & Hlook).
  rewrite (sh_num_tile_groups _ _ Hsh), It in Ht. injection Ht as <-.
  unfold group_done in Hcell. cbn [fst snd] in Hcell. rewrite Hlook in Hcell.
  replace (Z.of_nat (Z.to_nat tg_id) <? n) with false in Hcell
    by (symmetry; apply Z.ltb_ge; lia).
  apply (get2_rect _ _ _ _ _ _ _ _ (sh_group_stat _ _ Hsh) It Ig Hcell).
Qed.

(** A start and an end trace of tile group 5, the only one: the count is
    1, and the Counter of tile group 5 is empty. *)
Lemma groups_beyond_the_count_stay_empty_witness :
  exists self' st,
    __generate_tile_stats sample_parser
      [sample_trace 1 0 (pack 1 1 0 5 0) 10 5;
       sample_trace 1 0 (pack 2 1 0 5 0) 25 15] = Ok (self', st)
    /\ getitem (num_tile_groups st) 0 = Ok 1
    /\ get2 (tile_group_stat st) 0 5 = Ok ∅.
Proof.
  destruct (is_Ok_inv
              (__generate_tile_stats sample_parser
                 [sample_trace 1 0 (pack 1 1 0 5 0) 10 5;
                  sample_trace 1 0 (pack 2 1 0 5 0) 25 15]))
    as [[self' st] H].
  - vm_compute. reflexivity.
  - assert (Hn : getitem (num_tile_groups st) 0 = Ok 1).
    { change (num_tile_groups st)
        with (returned_num_tile_groups (Ok (self', st))).
      rewrite <- H. vm_compute. reflexivity. }
    exists self', st. split; [exact H |]. split; [exact Hn |].
    apply (groups_beyond_the_count_stay_empty sample_parser self' _ st 0 5 1
             H).
    + vm_compute. split; [discriminate | reflexivity].
    + exact Hn.
    + vm_compute. split; [discriminate | reflexivity].
    + lia.
Defined.
